(** * Document-processing pipeline: retry, circuit breaker, job queue,
      status store and stage orchestrator

    A shallow embedding of
      - [src/api/services/document/retry_handler.py]
      - [src/api/services/document/job_queue.py]
      - [src/api/services/document/document_db_service.py]
      - [src/api/routers/document.py] (the pipeline driver and the stored
        file name of an upload)
      - [src/api/utils/log_utils.py]
    followed by the properties of the design document that concern them,
    and by further properties of the code.

    Conventions.  Python [int] is [Z]; Python [float] is the binary64
    primitive [float]; [str] is [string]; a raised exception is a value of
    an outcome type; mutable objects are threaded explicitly, and where two
    names refer to one object (a job dictionary kept in the in-process
    queue) the store is updated at the point of mutation. *)

From Stdlib Require Import ZArith String Ascii Bool Lia Floats List DecimalString.
Import ListNotations.

Local Open Scope string_scope.
Local Open Scope list_scope.
Local Open Scope Z_scope.

(* ================================================================== *)
(** * Python values shared by the modules *)
(* ================================================================== *)

Module Py.

(** An exception object: the name of its class, the names of the classes
    on its method resolution order (its own class first), and [str(e)]. *)
Record exn : Type := mkExn {
  exn_class : string;
  exn_mro : list string;
  exn_str : string
}.

(** [isinstance(e, cls)] *)
Definition isinstance (e : exn) (cls : string) : bool :=
  existsb (String.eqb cls) (exn_mro e).

(** [except Exception] catches [e]: its class derives from [Exception].
    [KeyboardInterrupt], [SystemExit] and [asyncio.CancelledError] derive
    from [BaseException] only and pass through such a handler. *)
Definition is_exception (e : exn) : bool := isinstance e "Exception".

(** What a call does: it returns a value or raises an exception. *)
Inductive outcome (T : Type) : Type :=
| Returned (v : T)
| Raised (e : exn).
Arguments Returned {T} v.
Arguments Raised {T} e.

(** [raise None]: "exceptions must derive from BaseException". *)
Definition type_error_raise_none : exn :=
  mkExn "TypeError" ["TypeError"; "Exception"; "BaseException"]
        "exceptions must derive from BaseException".

(** [min(a, b)] on floats: [a] unless [b < a]. *)
Definition fmin (a b : float) : float :=
  if PrimFloat.ltb b a then b else a.

(** [float(z)] for an integer, correctly rounded. *)
Definition float_of_Z (z : Z) : float :=
  SF2Prim (binary_normalize prec emax z 0 false).

(** [int(f)]: truncation towards zero; [None] stands for the
    [OverflowError]/[ValueError] raised on infinities and NaN. *)
Definition int_of_float (f : float) : option Z :=
  match Prim2SF f with
  | S754_zero _ => Some 0
  | S754_finite s m e =>
      let v := if 0 <=? e then Z.pos m * 2 ^ e else Z.pos m / 2 ^ (- e) in
      Some (if s then - v else v)
  | S754_infinity _ => None
  | S754_nan => None
  end.

(** Truthiness of a float: [0.0] and [-0.0] are false. *)
Definition float_truthy (f : float) : bool := negb (PrimFloat.eqb f 0%float).

(** [d[k] = v] on a dictionary kept as an association list in insertion
    order: an existing key keeps its position. *)
Fixpoint dict_set {V : Type} (d : list (string * V)) (k : string) (v : V)
  : list (string * V) :=
  match d with
  | [] => [(k, v)]
  | (k', v') :: d' =>
      if String.eqb k' k then (k, v) :: d' else (k', v') :: dict_set d' k v
  end.

(** [d.get(k)] *)
Fixpoint dict_get {V : Type} (d : list (string * V)) (k : string) : option V :=
  match d with
  | [] => None
  | (k', v') :: d' => if String.eqb k' k then Some v' else dict_get d' k
  end.

(** [del d[k]] / removal of every binding of a key. *)
Definition dict_remove {V : Type} (d : list (string * V)) (k : string)
  : list (string * V) :=
  filter (fun kv => negb (String.eqb (fst kv) k)) d.

Lemma dict_get_set_same :
  forall (V : Type) (d : list (string * V)) (k : string) (v : V),
    dict_get (dict_set d k v) k = Some v.
Proof.
  intros V d k v. induction d as [|[k' v'] d IH]; cbn.
  - now rewrite String.eqb_refl.
  - destruct (String.eqb k' k) eqn:E; cbn.
    + now rewrite String.eqb_refl.
    + now rewrite E.
Qed.

Lemma dict_get_set_other :
  forall (V : Type) (d : list (string * V)) (k k' : string) (v : V),
    k <> k' -> dict_get (dict_set d k v) k' = dict_get d k'.
Proof.
  intros V d k k' v Hne. induction d as [|[k0 v0] d IH]; cbn.
  - destruct (String.eqb_spec k k'); [contradiction|reflexivity].
  - destruct (String.eqb_spec k0 k) as [->|Hk]; cbn.
    + destruct (String.eqb_spec k k'); [contradiction|reflexivity].
    + destruct (String.eqb k0 k'); [reflexivity|exact IH].
Qed.

Lemma flat_map_ext_in :
  forall (A B : Type) (f g : A -> list B) (l : list A),
    (forall a, In a l -> f a = g a) -> flat_map f l = flat_map g l.
Proof.
  intros A B f g l. induction l as [|a l IH]; intros H; [reflexivity|].
  cbn [flat_map]. rewrite (H a (or_introl eq_refl)), IH; [reflexivity|].
  intros b Hb. apply H. now right.
Qed.

End Py.
Import Py.

(* ================================================================== *)
(** * retry_handler.py *)
(* ================================================================== *)

Module RetryHandler.

(** ** RetryConfig *)

Record RetryConfig : Type := mkRetryConfig {
  max_retries : Z;
  initial_delay : float;
  max_delay : float;
  exponential_base : float;
  retryable_exceptions : list string
}.

Definition default_retryable_exceptions : list string :=
  [ "httpx.TimeoutException"; "httpx.NetworkError"; "httpx.ConnectError";
    "httpx.ReadTimeout"; "ConnectionError"; "TimeoutError" ].

(** [RetryConfig.__init__]: [retryable_exceptions or [...]] replaces
    both [None] and the empty list by the default classes. *)
Definition RetryConfig_init (max_retries : Z)
    (initial_delay max_delay exponential_base : float)
    (retryable_exceptions : option (list string)) : RetryConfig :=
  mkRetryConfig max_retries initial_delay max_delay exponential_base
    (match retryable_exceptions with
     | Some (c :: l) => c :: l
     | Some [] => default_retryable_exceptions
     | None => default_retryable_exceptions
     end).

(** [RetryConfig()] *)
Definition RetryConfig_default : RetryConfig :=
  RetryConfig_init 3 1%float 60%float 2%float None.

(** ** retry_with_backoff *)

(** What the caller can observe of one run, besides its outcome. *)
Inductive event : Type :=
| Invoke (attempt : nat)      (* the operation is called *)
| Sleep (delay : float).      (* [await asyncio.sleep(delay)] *)

(** [any(isinstance(e, exc_type) for exc_type in config.retryable_exceptions)] *)
Definition is_retryable (config : RetryConfig) (e : exn) : bool :=
  existsb (isinstance e) (retryable_exceptions config).

Section Retry.
Context {T : Type}.
(** The operation: what its [k]-th invocation (counted from 0) does. *)
Variable func : nat -> outcome T.
Variable config : RetryConfig.

(** The body of [for attempt in range(config.max_retries + 1)], with
    [n] iterations left; [delay] and [last_exception] are the loop's
    two mutable locals. *)
Fixpoint retry_loop (n : nat) (attempt : nat) (delay : float)
    (last_exception : option exn) : outcome T * list event :=
  match n with
  | O =>
      (* # If we get here, all retries failed *)
      (match last_exception with
       | Some e => Raised e
       | None => Raised type_error_raise_none
       end, [])
  | S n' =>
      match func attempt with
      | Returned v => (Returned v, [Invoke attempt])
      | Raised e =>
          if negb (is_exception e) then
            (* not caught by [except Exception as e] *)
            (Raised e, [Invoke attempt])
          else if negb (is_retryable config e) then
            (Raised e, [Invoke attempt])
          else if Z.of_nat attempt <? max_retries config then
            let r := retry_loop n' (S attempt)
                       (fmin (delay * exponential_base config)%float
                             (max_delay config))
                       (Some e) in
            (fst r, Invoke attempt :: Sleep delay :: snd r)
          else
            let r := retry_loop n' (S attempt) delay (Some e) in
            (fst r, Invoke attempt :: snd r)
      end
  end.

Definition retry_with_backoff : outcome T * list event :=
  retry_loop (Z.to_nat (max_retries config + 1)) 0 (initial_delay config) None.

End Retry.

(** [config is None] selects the default configuration. *)
Definition retry_with_backoff_opt {T : Type} (func : nat -> outcome T)
    (config : option RetryConfig) : outcome T * list event :=
  retry_with_backoff func
    (match config with Some c => c | None => RetryConfig_default end).

(** The delay slept after the failure of attempt [k]: it starts at
    [initial_delay], is multiplied by [exponential_base] after each retry
    and capped at [max_delay]. *)
Fixpoint backoff_delay (config : RetryConfig) (k : nat) : float :=
  match k with
  | O => initial_delay config
  | S k' => fmin (backoff_delay config k' * exponential_base config)%float
                 (max_delay config)
  end.

(** Events of a run whose first [m] attempts failed and were retried and
    whose attempt [m] ended it. *)
Definition backoff_trace (config : RetryConfig) (m : nat) : list event :=
  flat_map (fun k => [Invoke k; Sleep (backoff_delay config k)]) (seq 0 m)
  ++ [Invoke m].

Definition invocations (tr : list event) : nat :=
  length (filter (fun ev => match ev with Invoke _ => true | Sleep _ => false end) tr).

Definition sleeps (tr : list event) : list float :=
  flat_map (fun ev => match ev with Invoke _ => [] | Sleep d => [d] end) tr.

(** ** CircuitBreaker *)

Record CircuitBreaker : Type := mkCircuitBreaker {
  failure_threshold : Z;
  recovery_timeout : float;
  half_open_max_calls : Z;
  failure_count : Z;
  last_failure_time : option float;
  state : string;                       (* closed, open, half_open *)
  half_open_calls : Z
}.

(** [CircuitBreaker.__init__] *)
Definition CircuitBreaker_init (failure_threshold : Z)
    (recovery_timeout : float) (half_open_max_calls : Z) : CircuitBreaker :=
  mkCircuitBreaker failure_threshold recovery_timeout half_open_max_calls
    0 None "closed" 0.

(** [CircuitBreaker()] *)
Definition CircuitBreaker_default : CircuitBreaker :=
  CircuitBreaker_init 5 60%float 3.

(** What [call] does for its caller. *)
Inductive call_result (T : Type) : Type :=
| CallReturned (v : T)                   (* [return result] *)
| CallRaised (e : exn)                   (* the operation's exception, re-raised *)
| CallRejected (retry_after : option float).
    (* [Exception("Circuit breaker is OPEN ...")], raised before the
       operation is attempted *)
Arguments CallReturned {T} v.
Arguments CallRaised {T} e.
Arguments CallRejected {T} retry_after.

(** The check of the circuit state that opens [call]; [now] is what
    [time.time()] returns there.  [inl] is the breaker with which the
    operation is attempted, [inr] the rejection. *)
Definition check_state (cb : CircuitBreaker) (now : float)
  : CircuitBreaker + option float :=
  if String.eqb (state cb) "open" then
    match last_failure_time cb with
    | Some t =>
        if float_truthy t then
          let elapsed := (now - t)%float in
          if PrimFloat.leb (recovery_timeout cb) elapsed then
            inl (mkCircuitBreaker (failure_threshold cb) (recovery_timeout cb)
                   (half_open_max_calls cb) (failure_count cb)
                   (last_failure_time cb) "half_open" 0)
          else inr (Some (recovery_timeout cb - elapsed)%float)
        else inr None
    | None => inr None
    end
  else inl cb.

(** The success branch of [call]. *)
Definition on_success (cb : CircuitBreaker) : CircuitBreaker :=
  if String.eqb (state cb) "half_open" then
    let calls := half_open_calls cb + 1 in
    if half_open_max_calls cb <=? calls then
      mkCircuitBreaker (failure_threshold cb) (recovery_timeout cb)
        (half_open_max_calls cb) 0 (last_failure_time cb) "closed" 0
    else
      mkCircuitBreaker (failure_threshold cb) (recovery_timeout cb)
        (half_open_max_calls cb) (failure_count cb) (last_failure_time cb)
        (state cb) calls
  else if String.eqb (state cb) "closed" then
    mkCircuitBreaker (failure_threshold cb) (recovery_timeout cb)
      (half_open_max_calls cb) 0 (last_failure_time cb) (state cb)
      (half_open_calls cb)
  else cb.

(** The [except Exception] branch of [call]; [now] is what
    [time.time()] returns there. *)
Definition on_failure (cb : CircuitBreaker) (now : float) : CircuitBreaker :=
  let count := failure_count cb + 1 in
  mkCircuitBreaker (failure_threshold cb) (recovery_timeout cb)
    (half_open_max_calls cb) count (Some now)
    (if failure_threshold cb <=? count then "open" else state cb)
    (half_open_calls cb).

(** [CircuitBreaker.call]: [t_enter] is the clock when the state is
    checked, [func] what the operation does if attempted, and [t_fail]
    the clock when its exception is handled.  An exception that
    [except Exception] does not catch leaves the breaker as the check of
    the state left it. *)
Definition call {T : Type} (cb : CircuitBreaker) (t_enter : float)
    (func : outcome T) (t_fail : float) : call_result T * CircuitBreaker :=
  match check_state cb t_enter with
  | inr retry_after => (CallRejected retry_after, cb)
  | inl cb1 =>
      match func with
      | Returned v => (CallReturned v, on_success cb1)
      | Raised e =>
          if is_exception e
          then (CallRaised e, on_failure cb1 t_fail)
          else (CallRaised e, cb1)    (* not caught by [except Exception] *)
      end
  end.

(** The breakers a program can hold: a freshly constructed one, and the
    breaker left by any [call] on one it could hold. *)
Inductive reachable : CircuitBreaker -> Prop :=
| reach_init : forall threshold timeout max_calls,
    reachable (CircuitBreaker_init threshold timeout max_calls)
| reach_call : forall (T : Type) cb t_enter (func : outcome T) t_fail,
    reachable cb ->
    reachable (snd (call cb t_enter func t_fail)).

(** ** Properties of [retry_with_backoff] *)

(** [e] is an instance of the class named [cls]: the class is on the
    method resolution order of [e]. *)
Definition instance_of (e : exn) (cls : string) : Prop := In cls (exn_mro e).

(** The type of [e] is in the retryable set: [e] is an instance of one
    of the classes of [config.retryable_exceptions]. *)
Definition in_retryable_set (config : RetryConfig) (e : exn) : Prop :=
  exists cls, In cls (retryable_exceptions config) /\ instance_of e cls.

Lemma isinstance_spec :
  forall e cls, isinstance e cls = true <-> instance_of e cls.
Proof.
  intros e cls. unfold isinstance, instance_of. rewrite existsb_exists. split.
  - intros (x & Hin & Heq). apply String.eqb_eq in Heq. now subst.
  - intros Hin. exists cls. split; [assumption|apply String.eqb_refl].
Qed.

Lemma is_exception_spec :
  forall e, is_exception e = true <-> instance_of e "Exception".
Proof. intros e. apply isinstance_spec. Qed.

Lemma is_retryable_spec :
  forall config e, is_retryable config e = true <-> in_retryable_set config e.
Proof.
  intros config e. unfold is_retryable, in_retryable_set. rewrite existsb_exists.
  split; intros (cls & Hin & H); exists cls; (split; [assumption|]);
    now apply isinstance_spec.
Qed.

Section RetryFacts.
Context {T : Type}.
Variable func : nat -> outcome T.
Variable config : RetryConfig.

(** Attempt [k] failed with an exception that [except Exception] catches
    and whose type is in the retryable set. *)
Definition retryable_failure (k : nat) : Prop :=
  exists e, func k = Raised e
            /\ instance_of e "Exception" /\ in_retryable_set config e.

(** Attempt [m] ends a run: it returned, it raised an exception that is
    not caught or not retried, or it was the last attempt allowed. *)
Definition final_attempt (m : nat) : Prop :=
  (exists v, func m = Returned v)
  \/ (exists e, func m = Raised e
                /\ (~ instance_of e "Exception" \/ ~ in_retryable_set config e))
  \/ Z.of_nat m = max_retries config.

Lemma retry_loop_shape :
  forall n attempt delay last,
    Z.of_nat attempt + Z.of_nat n = max_retries config + 1 ->
    (0 < n)%nat ->
    exists m,
      (attempt <= m)%nat /\ Z.of_nat m <= max_retries config
      /\ (forall k, (attempt <= k < m)%nat -> retryable_failure k)
      /\ final_attempt m
      /\ fst (retry_loop func config n attempt delay last) = func m
      /\ snd (retry_loop func config n attempt delay last)
         = flat_map (fun k => [Invoke k;
                       Sleep (Nat.iter (k - attempt)
                                (fun d => fmin (d * exponential_base config)%float
                                               (max_delay config)) delay)])
                    (seq attempt (m - attempt))
           ++ [Invoke m].
Proof.
  induction n as [|n IH]; intros attempt delay last Hsum Hpos; [lia|].
  cbn [retry_loop].
  destruct (func attempt) as [v|e] eqn:Hf.
  - exists attempt. replace (attempt - attempt)%nat with 0%nat by lia.
    repeat split; try lia.
    + left. now exists v.
    + cbn. now rewrite Hf.
  - destruct (is_exception e) eqn:Hex; cbn [negb].
    + destruct (is_retryable config e) eqn:Hr; cbn [negb].
      * destruct (Z.of_nat attempt <? max_retries config) eqn:Hlt.
        -- apply Z.ltb_lt in Hlt.
           destruct (IH (S attempt)
                       (fmin (delay * exponential_base config)%float (max_delay config))
                       (Some e)) as (m & Hle & Hmax & Hbefore & Hfin & Hres & Htr);
             [lia | lia |].
           exists m. repeat split; try lia; try assumption.
           ++ intros k Hk. destruct (Nat.eq_dec k attempt) as [->|Hne].
              ** exists e. split; [assumption|].
                 split; [now apply is_exception_spec|now apply is_retryable_spec].
              ** apply Hbefore. lia.
           ++ cbn [fst snd]. rewrite Htr.
              replace (m - attempt)%nat with (S (m - S attempt)) by lia.
              cbn [seq flat_map app].
              replace (attempt - attempt)%nat with 0%nat by lia. cbn [Nat.iter].
              do 2 f_equal. f_equal.
              apply flat_map_ext_in. intros k Hk. apply in_seq in Hk.
              replace (k - attempt)%nat with (S (k - S attempt)) by lia.
              rewrite Nat.iter_succ_r. reflexivity.
        -- apply Z.ltb_ge in Hlt.
           assert (n = 0%nat) by lia. subst n. cbn [retry_loop fst snd].
           exists attempt. replace (attempt - attempt)%nat with 0%nat by lia.
           repeat split; try lia.
           ++ right; right. lia.
           ++ now rewrite Hf.
      * exists attempt. replace (attempt - attempt)%nat with 0%nat by lia.
        repeat split; try lia.
        -- right; left. exists e. split; [assumption|]. right.
           intros H. apply is_retryable_spec in H. congruence.
        -- cbn. now rewrite Hf.
    + exists attempt. replace (attempt - attempt)%nat with 0%nat by lia.
      repeat split; try lia.
      * right; left. exists e. split; [assumption|]. left.
        intros H. apply is_exception_spec in H. congruence.
      * cbn. now rewrite Hf.
Qed.

Lemma iter_backoff_delay :
  forall k,
    Nat.iter k (fun d => fmin (d * exponential_base config)%float (max_delay config))
             (initial_delay config)
    = backoff_delay config k.
Proof.
  induction k as [|k IH]; [reflexivity|].
  cbn [backoff_delay]. now rewrite Nat.iter_succ, IH.
Qed.

(** A run with at least one attempt allowed stops at some attempt [m]:
    the attempts before it were retried, each after its delay, and the
    outcome of the run is the outcome of attempt [m]. *)
Lemma retry_with_backoff_shape :
  0 <= max_retries config ->
  exists m,
    Z.of_nat m <= max_retries config
    /\ (forall k, (k < m)%nat -> retryable_failure k)
    /\ final_attempt m
    /\ fst (retry_with_backoff func config) = func m
    /\ snd (retry_with_backoff func config) = backoff_trace config m.
Proof.
  intros Hmax. unfold retry_with_backoff.
  destruct (retry_loop_shape (Z.to_nat (max_retries config + 1)) 0
              (initial_delay config) None)
    as (m & _ & Hle & Hbefore & Hfin & Hres & Htr); [lia | lia |].
  exists m. repeat split; try assumption.
  - intros k Hk. apply Hbefore. lia.
  - rewrite Htr. unfold backoff_trace. rewrite Nat.sub_0_r. f_equal.
    apply flat_map_ext_in. intros k _. rewrite Nat.sub_0_r.
    now rewrite iter_backoff_delay.
Qed.

(** The attempt at which a run stops is determined by the operation. *)
Lemma final_attempt_unique :
  forall m k,
    Z.of_nat m <= max_retries config -> Z.of_nat k <= max_retries config ->
    (forall j, (j < m)%nat -> retryable_failure j) -> final_attempt m ->
    (forall j, (j < k)%nat -> retryable_failure j) ->
    (exists v, func k = Returned v)
    \/ (exists e, func k = Raised e
                  /\ (~ instance_of e "Exception" \/ ~ in_retryable_set config e)) ->
    m = k.
Proof.
  intros m k Hm Hk Hbefore Hfin Hretried Hends.
  destruct (Nat.lt_trichotomy m k) as [Hlt|[Heq|Hgt]]; [|assumption|]; exfalso.
  - destruct (Hretried m Hlt) as (e & He & Hex & Hr).
    destruct Hfin as [(v & Hv)|[(e' & He' & Hnot)|Hlast]]; [congruence| |lia].
    rewrite He in He'. injection He' as <-. tauto.
  - destruct (Hbefore k Hgt) as (e & He & Hex & Hr).
    destruct Hends as [(v & Hv)|(e' & He' & Hnot)]; [congruence|].
    rewrite He in He'. injection He' as <-. tauto.
Qed.

Lemma invocations_backoff_trace :
  forall m, invocations (backoff_trace config m) = S m.
Proof.
  intros m. unfold invocations, backoff_trace.
  rewrite filter_app, length_app. cbn [filter List.length].
  assert (H : forall a n,
             List.length
               (filter (fun ev => match ev with Invoke _ => true | Sleep _ => false end)
                  (flat_map (fun k => [Invoke k; Sleep (backoff_delay config k)])
                            (seq a n))) = n).
  { intros a n; revert a. induction n as [|n IH]; intros a; [reflexivity|].
    cbn [seq flat_map app filter List.length]. now rewrite IH. }
  rewrite H. lia.
Qed.

Lemma sleeps_backoff_trace :
  forall m, sleeps (backoff_trace config m) = map (backoff_delay config) (seq 0 m).
Proof.
  intros m. unfold sleeps, backoff_trace.
  rewrite flat_map_app. cbn [flat_map app]. rewrite app_nil_r.
  generalize 0%nat. induction m as [|m IH]; intros a; [reflexivity|].
  cbn [seq flat_map app map]. now rewrite IH.
Qed.

Lemma nth_backoff_delays :
  forall m k,
    (k < m)%nat ->
    nth k (map (backoff_delay config) (seq 0 m)) 0%float = backoff_delay config k.
Proof.
  intros m k Hk.
  rewrite (nth_indep _ 0%float (backoff_delay config 0))
    by (rewrite length_map, length_seq; exact Hk).
  rewrite (map_nth (backoff_delay config) (seq 0 m) 0%nat k).
  now rewrite seq_nth.
Qed.

End RetryFacts.

(** C6, amended.  For every operation and every configuration with
    [0 <= max_retries], [retry_with_backoff]
    (1) invokes the operation at most [max_retries + 1] times;
    (2) when attempt [k] raises an exception that does not derive from
        [Exception], or whose type is not in the retryable set (the
        attempts before it having been retried), that exception is the
        outcome and attempt [k] is the last event of the run: no further
        attempt and no delay follow it;
    (3) runs as attempt 0, sleep, attempt 1, sleep, ..., attempt [m],
        where the first sleep lasts [initial_delay] and every later one
        the previous delay times [exponential_base], capped at
        [max_delay];
    (4) when every attempt fails with a retryable exception that derives
        from [Exception], invokes the operation [max_retries + 1] times
        and raises the exception of the last attempt. *)
Theorem retry_with_backoff_bounded_backoff :
  forall (T : Type) (func : nat -> outcome T) (config : RetryConfig),
    0 <= max_retries config ->
    let run := retry_with_backoff func config in
    Z.of_nat (invocations (snd run)) <= max_retries config + 1
    /\ (forall k e,
           Z.of_nat k <= max_retries config ->
           (forall j, (j < k)%nat -> retryable_failure func config j) ->
           func k = Raised e ->
           ~ instance_of e "Exception" \/ ~ in_retryable_set config e ->
           fst run = Raised e
           /\ snd run
              = flat_map (fun j => [Invoke j; Sleep (nth j (sleeps (snd run)) 0%float)])
                         (seq 0 k)
                ++ [Invoke k])
    /\ (exists m,
           snd run
           = flat_map (fun j => [Invoke j; Sleep (nth j (sleeps (snd run)) 0%float)])
                      (seq 0 m)
             ++ [Invoke m]
           /\ List.length (sleeps (snd run)) = m
           /\ (0 < m -> nth 0 (sleeps (snd run)) 0%float = initial_delay config)%nat
           /\ forall j, (S j < m)%nat ->
                nth (S j) (sleeps (snd run)) 0%float
                = fmin (nth j (sleeps (snd run)) 0%float * exponential_base config)%float
                       (max_delay config))
    /\ ((forall j, Z.of_nat j <= max_retries config ->
                   retryable_failure func config j) ->
        fst run = func (Z.to_nat (max_retries config))
        /\ Z.of_nat (invocations (snd run)) = max_retries config + 1).
Proof.
  intros T func config Hmax run.
  destruct (retry_with_backoff_shape func config Hmax)
    as (m & Hle & Hbefore & Hfin & Hres & Htr).
  fold run in Hres, Htr.
  assert (Hsleeps : sleeps (snd run) = map (backoff_delay config) (seq 0 m))
    by (rewrite Htr; apply sleeps_backoff_trace).
  assert (Htrace : snd run
                   = flat_map (fun j => [Invoke j;
                                         Sleep (nth j (sleeps (snd run)) 0%float)])
                              (seq 0 m)
                     ++ [Invoke m]).
  { rewrite Hsleeps. rewrite Htr at 1. unfold backoff_trace. f_equal.
    apply flat_map_ext_in. intros j Hj. apply in_seq in Hj.
    rewrite nth_backoff_delays by lia. reflexivity. }
  split; [|split; [|split]].
  - rewrite Htr, invocations_backoff_trace. lia.
  - intros k e Hk Hretried Hfk Hnot.
    assert (m = k) as <-.
    { apply (final_attempt_unique func config m k); try assumption.
      right. now exists e. }
    split; [now rewrite Hres | exact Htrace].
  - exists m. split; [exact Htrace|].
    split; [now rewrite Hsleeps, length_map, length_seq|].
    rewrite Hsleeps. split.
    + intros Hm. now rewrite nth_backoff_delays.
    + intros j Hj. rewrite !nth_backoff_delays by lia. reflexivity.
  - intros Hall.
    assert (m = Z.to_nat (max_retries config)) as ->.
    { destruct Hfin as [(v & Hv)|[(e & He & Hnot)|Hlast]]; [| |lia].
      - destruct (Hall m Hle) as (e' & He' & _). congruence.
      - destruct (Hall m Hle) as (e' & He' & Hex & Hr).
        rewrite He in He'. injection He' as <-. tauto. }
    split; [assumption|].
    rewrite Htr, invocations_backoff_trace. lia.
Qed.

(** A connection that times out twice and then answers. *)
Definition timeout_error : exn :=
  mkExn "TimeoutError" ["TimeoutError"; "OSError"; "Exception"; "BaseException"]
        "timed out".

Definition flaky_twice (k : nat) : outcome Z :=
  if (k <? 2)%nat then Raised timeout_error else Returned 7.

(** A connection that times out at every attempt. *)
Definition always_times_out (k : nat) : outcome Z := Raised timeout_error.

Lemma always_times_out_retryable :
  forall j, retryable_failure always_times_out RetryConfig_default j.
Proof.
  intros j. exists timeout_error. split; [reflexivity|]. split.
  - cbn. tauto.
  - exists "TimeoutError". split; cbn; tauto.
Qed.

Lemma retry_with_backoff_bounded_backoff_witness :
  0 <= max_retries RetryConfig_default
  /\ fst (retry_with_backoff always_times_out RetryConfig_default)
     = Raised timeout_error
  /\ Z.of_nat (invocations (snd (retry_with_backoff always_times_out
                                   RetryConfig_default))) = 4.
Proof.
  assert (Hmax : 0 <= max_retries RetryConfig_default) by (vm_compute; discriminate).
  split; [exact Hmax|].
  exact (proj2 (proj2 (proj2 (retry_with_backoff_bounded_backoff Z always_times_out
                                RetryConfig_default Hmax)))
           (fun j _ => always_times_out_retryable j)).
Defined.

(** [Ctrl-C]: a [KeyboardInterrupt] derives from [BaseException] only. *)
Definition keyboard_interrupt : exn :=
  mkExn "KeyboardInterrupt" ["KeyboardInterrupt"; "BaseException"] EmptyString.

(** C6, as stated, fails in two ways.  With [max_retries = -1] nothing
    is attempted, and the exception raised is the exception of no
    attempt.  With [BaseException] in the retryable set, a
    [KeyboardInterrupt] at the first of four attempts allowed is a
    failure whose type is in the retryable set, and it is not retried:
    [except Exception] does not catch it. *)
Lemma retry_with_backoff_without_attempt_or_retry :
  let no_attempt := RetryConfig_init (-1) 1%float 60%float 2%float None in
  let any_error := RetryConfig_init 3 1%float 60%float 2%float
                     (Some ["BaseException"]) in
  retry_with_backoff always_times_out no_attempt
  = (Raised type_error_raise_none, [])
  /\ ~ (exists k, fst (retry_with_backoff always_times_out no_attempt)
                  = always_times_out k)
  /\ in_retryable_set any_error keyboard_interrupt
  /\ retry_with_backoff (fun _ => @Raised Z keyboard_interrupt) any_error
     = (Raised keyboard_interrupt, [Invoke 0])
  /\ ~ (forall (func : nat -> outcome Z) config e,
           func 0%nat = Raised e -> in_retryable_set config e ->
           0 < max_retries config ->
           sleeps (snd (retry_with_backoff func config)) <> []).
Proof.
  intros no_attempt any_error.
  assert (Hset : in_retryable_set any_error keyboard_interrupt).
  { exists "BaseException". split; cbn; tauto. }
  split; [reflexivity|]. split.
  - intros (k & Hk). vm_compute in Hk. discriminate Hk.
  - split; [exact Hset|]. split; [reflexivity|].
    intros H.
    apply (H (fun _ => @Raised Z keyboard_interrupt) any_error keyboard_interrupt
             eq_refl Hset); [cbn; lia|reflexivity].
Qed.

Example flaky_twice_run :
  retry_with_backoff flaky_twice RetryConfig_default
  = (Returned 7, [Invoke 0; Sleep 1%float; Invoke 1; Sleep 2%float; Invoke 2]).
Proof. vm_compute. reflexivity. Qed.

(** ** Properties of [CircuitBreaker] *)

(** The state is one of the three names, and a breaker that is not
    closed has counted at least [failure_threshold] failures. *)
Definition breaker_inv (cb : CircuitBreaker) : Prop :=
  state cb = "closed"
  \/ ((state cb = "open" \/ state cb = "half_open")
      /\ failure_threshold cb <= failure_count cb).

Lemma check_state_inv :
  forall cb now cb1,
    breaker_inv cb -> check_state cb now = inl cb1 ->
    breaker_inv cb1 /\ state cb1 <> "open".
Proof.
  intros cb now cb1 Hinv. unfold check_state.
  destruct (String.eqb_spec (state cb) "open") as [Hopen|Hnot].
  - destruct (last_failure_time cb) as [t|]; [|discriminate].
    destruct (float_truthy t); [|discriminate].
    destruct (PrimFloat.leb _ _); [|discriminate].
    intros [= <-]. split; [|cbn; discriminate].
    right. cbn. split; [now right|].
    destruct Hinv as [Hc|[_ Hle]]; [congruence|assumption].
  - intros [= <-]. now split.
Qed.

Lemma on_success_inv :
  forall cb, breaker_inv cb -> state cb <> "open" -> breaker_inv (on_success cb).
Proof.
  intros cb Hinv Hnot. unfold on_success.
  destruct (String.eqb_spec (state cb) "half_open") as [Hh|Hnh].
  - destruct (half_open_max_calls cb <=? half_open_calls cb + 1).
    + now left.
    + destruct Hinv as [Hc|Hinv]; [left|right]; assumption.
  - destruct (String.eqb_spec (state cb) "closed"); [now left|assumption].
Qed.

Lemma on_failure_inv :
  forall cb now, breaker_inv cb -> state cb <> "open" -> breaker_inv (on_failure cb now).
Proof.
  intros cb now Hinv Hnot. unfold on_failure, breaker_inv. cbn.
  destruct (failure_threshold cb <=? failure_count cb + 1) eqn:Hle.
  - apply Z.leb_le in Hle. right. split; [now left | assumption].
  - apply Z.leb_gt in Hle.
    destruct Hinv as [Hc|[_ Hge]]; [now left | lia].
Qed.

Lemma reachable_inv : forall cb, reachable cb -> breaker_inv cb.
Proof.
  induction 1 as [threshold timeout max_calls | T cb t_enter func t_fail _ IH].
  - now left.
  - unfold call. destruct (check_state cb t_enter) as [cb1|after] eqn:Hc.
    + destruct (check_state_inv cb t_enter cb1 IH Hc) as [Hinv1 Hnot].
      destruct func as [v|e]; [|destruct (is_exception e)]; cbn [snd].
      * now apply on_success_inv.
      * now apply on_failure_inv.
      * exact Hinv1.
    + exact IH.
Qed.

(** C5, amended.  For every reachable breaker and every call that is
    attempted in [half_open] (the breaker was half-open already, or it was
    open and [recovery_timeout] has elapsed): a success increments the
    half-open success counter; once the counter reaches
    [half_open_max_calls] the state is [closed] again with [failure_count]
    reset to 0; a failure with an exception that derives from [Exception]
    puts the breaker back to [open] and records the time of the failure
    as the new open-timestamp; an exception that does not derive from
    [Exception] is passed on and leaves the breaker half-open. *)
Theorem half_open_success_closes_failure_reopens :
  forall cb, reachable cb ->
    forall (T : Type) (t_enter t_fail : float) (probing : CircuitBreaker),
      check_state cb t_enter = inl probing ->
      state probing = "half_open" ->
      (forall v : T,
          let r := call cb t_enter (Returned v) t_fail in
          fst r = CallReturned v
          /\ (half_open_calls probing + 1 < half_open_max_calls probing ->
              state (snd r) = "half_open"
              /\ half_open_calls (snd r) = half_open_calls probing + 1
              /\ failure_count (snd r) = failure_count probing)
          /\ (half_open_max_calls probing <= half_open_calls probing + 1 ->
              state (snd r) = "closed" /\ failure_count (snd r) = 0))
      /\ (forall e : exn,
             let r := call cb t_enter (@Raised T e) t_fail in
             fst r = CallRaised e
             /\ (instance_of e "Exception" ->
                 state (snd r) = "open"
                 /\ last_failure_time (snd r) = Some t_fail)
             /\ (~ instance_of e "Exception" -> snd r = probing)).
Proof.
  intros cb Hreach T t_enter t_fail probing Hcheck Hhalf.
  destruct (check_state_inv cb t_enter probing (reachable_inv cb Hreach) Hcheck)
    as [Hinv _].
  split.
  - intros v r. subst r. unfold call. rewrite Hcheck. cbn [fst snd].
    split; [reflexivity|]. unfold on_success. rewrite Hhalf.
    change (String.eqb "half_open" "half_open") with true. cbn iota.
    split.
    + intros Hlt.
      destruct (half_open_max_calls probing <=? half_open_calls probing + 1) eqn:Hle;
        [apply Z.leb_le in Hle; lia|].
      cbn. repeat split.
    + intros Hge. apply Z.leb_le in Hge. rewrite Hge. now cbn.
  - intros e r. subst r. unfold call. rewrite Hcheck.
    destruct (is_exception e) eqn:Hex; cbn [fst snd].
    + split; [reflexivity|]. split.
      * intros _. unfold on_failure. cbn.
        split; [|reflexivity].
        destruct Hinv as [Hc|[_ Hge]]; [congruence|].
        assert (Hle : (failure_threshold probing <=? failure_count probing + 1) = true)
          by (apply Z.leb_le; lia).
        now rewrite Hle.
      * intros Hnot. exfalso. apply Hnot. now apply is_exception_spec.
    + split; [reflexivity|]. split; [|reflexivity].
      intros H. apply is_exception_spec in H. congruence.
Qed.

(** A breaker with threshold 1 that failed at time 100 and was probed
    successfully at time 200. *)
Definition probing_breaker : CircuitBreaker :=
  snd (call (snd (call (CircuitBreaker_init 1 60%float 3) 0%float
                       (@Raised Z timeout_error) 100%float))
            200%float (Returned 1) 200%float).

Lemma probing_breaker_reachable : reachable probing_breaker.
Proof. unfold probing_breaker. do 2 apply reach_call. apply reach_init. Qed.

Lemma half_open_success_closes_failure_reopens_witness :
  reachable probing_breaker
  /\ check_state probing_breaker 201%float = inl probing_breaker
  /\ state probing_breaker = "half_open"
  /\ instance_of timeout_error "Exception"
  /\ state (snd (call probing_breaker 201%float (@Raised Z timeout_error) 202%float))
     = "open"
  /\ last_failure_time
       (snd (call probing_breaker 201%float (@Raised Z timeout_error) 202%float))
     = Some 202%float.
Proof.
  assert (Hex : instance_of timeout_error "Exception") by (cbn; tauto).
  split; [exact probing_breaker_reachable|].
  split; [vm_compute; reflexivity|].
  split; [vm_compute; reflexivity|].
  split; [exact Hex|].
  exact (proj1 (proj2 (proj2 (half_open_success_closes_failure_reopens
                                probing_breaker probing_breaker_reachable Z
                                201%float 202%float probing_breaker eq_refl eq_refl)
                             timeout_error))
           Hex).
Defined.

(** The task that runs the probe is cancelled: [asyncio.CancelledError]
    derives from [BaseException] only. *)
Definition cancelled_error : exn :=
  mkExn "CancelledError" ["CancelledError"; "BaseException"] EmptyString.

(** C5, as stated, fails: a probe of a reachable half-open breaker that
    ends with [CancelledError] is a failing call, and it leaves the
    breaker half-open, with the open-timestamp it had. *)
Lemma cancelled_probe_leaves_breaker_half_open :
  reachable probing_breaker
  /\ state probing_breaker = "half_open"
  /\ last_failure_time probing_breaker = Some 100%float
  /\ fst (call probing_breaker 201%float (@Raised Z cancelled_error) 202%float)
     = CallRaised cancelled_error
  /\ state (snd (call probing_breaker 201%float (@Raised Z cancelled_error)
                   202%float)) = "half_open"
  /\ last_failure_time
       (snd (call probing_breaker 201%float (@Raised Z cancelled_error) 202%float))
     = Some 100%float
  /\ ~ (forall cb (T : Type) (e : exn) (t_enter t_fail : float),
           reachable cb -> state cb = "half_open" ->
           state (snd (call cb t_enter (@Raised T e) t_fail)) = "open").
Proof.
  split; [exact probing_breaker_reachable|].
  split; [vm_compute; reflexivity|]. split; [vm_compute; reflexivity|].
  split; [vm_compute; reflexivity|]. split; [vm_compute; reflexivity|].
  split; [vm_compute; reflexivity|].
  intros H.
  specialize (H probing_breaker Z cancelled_error 201%float 202%float
                probing_breaker_reachable eq_refl).
  vm_compute in H. discriminate H.
Qed.

(** An open breaker probed after its recovery timeout. *)
Example open_breaker_probed_after_timeout :
  let opened := snd (call (CircuitBreaker_init 1 60%float 1) 0%float
                          (@Raised Z timeout_error) 100%float) in
  state opened = "open"
  /\ fst (call opened 120%float (Returned 1) 120%float)
     = CallRejected (Some 40%float)
  /\ state (snd (call opened 170%float (Returned 1) 170%float)) = "closed"
  /\ failure_count (snd (call opened 170%float (Returned 1) 170%float)) = 0.
Proof. vm_compute. repeat split. Qed.

(** Reachability matters: a breaker put by hand in [half_open] with fewer
    failures than the threshold stays half-open when a call fails. *)
Example unreachable_half_open_does_not_reopen :
  let by_hand := mkCircuitBreaker 5 60%float 3 0 None "half_open" 0 in
  state (snd (call by_hand 0%float (@Raised Z timeout_error) 1%float)) = "half_open"
  /\ ~ reachable by_hand.
Proof.
  split; [vm_compute; reflexivity|].
  intros Hreach. apply reachable_inv in Hreach.
  destruct Hreach as [Hclosed|[_ Hcount]]; [discriminate|].
  cbn in Hcount. lia.
Qed.

End RetryHandler.

(* ================================================================== *)
(** * job_queue.py *)
(* ================================================================== *)

Module JobQueue.

(** ** Jobs *)

Inductive JobStatus : Type :=
| PENDING | QUEUED | PROCESSING | COMPLETED | FAILED | RETRYING | CANCELLED.

(** [status.value] *)
Definition value (s : JobStatus) : string :=
  match s with
  | PENDING => "pending"
  | QUEUED => "queued"
  | PROCESSING => "processing"
  | COMPLETED => "completed"
  | FAILED => "failed"
  | RETRYING => "retrying"
  | CANCELLED => "cancelled"
  end.

(** A dictionary of strings: the job data and the result of a job. *)
Definition dict : Type := list (string * string).

(** The job dictionary built by [enqueue_job], with the two keys that
    [update_job_status] may add. *)
Record Job : Type := mkJob {
  id : string;
  type : string;
  data : dict;
  status : string;
  priority : Z;
  max_retries : Z;
  retry_count : Z;
  created_at : string;
  updated_at : string;
  error_message : option string;
  result : option dict
}.

Definition set_status (job : Job) (s now : string) : Job :=
  mkJob (id job) (type job) (data job) s (priority job) (max_retries job)
        (retry_count job) (created_at job) now (error_message job) (result job).

Definition set_error_message (job : Job) (m : string) : Job :=
  mkJob (id job) (type job) (data job) (status job) (priority job)
        (max_retries job) (retry_count job) (created_at job) (updated_at job)
        (Some m) (result job).

Definition set_result (job : Job) (r : dict) : Job :=
  mkJob (id job) (type job) (data job) (status job) (priority job)
        (max_retries job) (retry_count job) (created_at job) (updated_at job)
        (error_message job) (Some r).

Definition set_retry_count (job : Job) (n : Z) : Job :=
  mkJob (id job) (type job) (data job) (status job) (priority job)
        (max_retries job) n (created_at job) (updated_at job)
        (error_message job) (result job).

(** ** The Redis server, as far as the queue uses it *)

(** A string key written by [SETEX]: its time to live in seconds and its
    value.  The value is the JSON text of a job; [json.dumps] followed by
    [json.loads] yields a fresh copy of the job, so the value is kept as
    the job itself. *)
Record entry : Type := mkEntry { ttl : Z; payload : Job }.

Record Redis : Type := mkRedis {
  connected : bool;                     (* commands raise when false *)
  keys : list (string * entry);         (* string keys *)
  zset : list (string * float)          (* the sorted set: member, score *)
}.

(** [SETEX key seconds value]; [None] stands for the exception raised by
    the client. *)
Definition setex (r : Redis) (key : string) (seconds : Z) (v : Job)
  : option Redis :=
  if connected r
  then Some (mkRedis (connected r) (dict_set (keys r) key (mkEntry seconds v)) (zset r))
  else None.

(** [GET key] *)
Definition get (r : Redis) (key : string) : option (option Job) :=
  if connected r
  then Some (option_map payload (dict_get (keys r) key))
  else None.

(** The score that the server keeps for an integer: the client sends
    the integer in decimal and the server reads it as a binary64 float,
    the nearest to it; beyond the range of binary64 the server refuses it
    ("value is not a valid float"), which is [None]. *)
Definition score_of (score : Z) : option float :=
  if PrimFloat.is_finite (float_of_Z score) then Some (float_of_Z score) else None.
Arguments score_of : simpl never.

(** [ZADD queue {member: score}] *)
Definition zadd (r : Redis) (member : string) (score : Z) : option Redis :=
  if connected r
  then match score_of score with
       | Some s => Some (mkRedis (connected r) (keys r) (dict_set (zset r) member s))
       | None => None
       end
  else None.

(** [ZREM queue member] *)
Definition zrem (r : Redis) (member : string) : option Redis :=
  if connected r
  then Some (mkRedis (connected r) (keys r) (dict_remove (zset r) member))
  else None.

(** Order of the sorted set: by score, members of equal score by their
    bytes. *)
Definition zset_lt (a b : string * float) : bool :=
  PrimFloat.ltb (snd a) (snd b)
  || (PrimFloat.eqb (snd a) (snd b)
      && match String.compare (fst a) (fst b) with
         | Lt => true | _ => false end).

Fixpoint zset_max (l : list (string * float)) : option (string * float) :=
  match l with
  | [] => None
  | a :: l' =>
      match zset_max l' with
      | Some b => if zset_lt a b then Some b else Some a
      | None => Some a
      end
  end.

(** [ZREVRANGE queue 0 0 WITHSCORES]: the member of highest score, in a
    list of at most one pair. *)
Definition zrevrange_0_0 (r : Redis) : option (list (string * float)) :=
  if connected r
  then Some (match zset_max (zset r) with Some a => [a] | None => [] end)
  else None.

(** ** The queue object *)

Record JobQueue : Type := mkJobQueue {
  redis_client : option Redis;
  redis_available : bool;
  queue_name : string;
  job_prefix : string;
  fallback_queue : list (string * Job)
}.

(** [JobQueue.__init__] *)
Definition JobQueue_init : JobQueue :=
  mkJobQueue None false "document_processing_queue" "doc_job:" [].

(** [initialize]: [server] is the Redis instance that answers the [PING],
    if any does. *)
Definition initialize (q : JobQueue) (server : option Redis) : JobQueue :=
  match server with
  | Some r =>
      if connected r
      then mkJobQueue (Some r) true (queue_name q) (job_prefix q) (fallback_queue q)
      else mkJobQueue None false (queue_name q) (job_prefix q) (fallback_queue q)
  | None => q
  end.

Definition with_redis (q : JobQueue) (r : Redis) : JobQueue :=
  mkJobQueue (Some r) (redis_available q) (queue_name q) (job_prefix q)
             (fallback_queue q).

Definition with_fallback (q : JobQueue) (f : list (string * Job)) : JobQueue :=
  mkJobQueue (redis_client q) (redis_available q) (queue_name q) (job_prefix q) f.

(** [self.redis_available and self.redis_client] *)
Definition use_redis (q : JobQueue) : option Redis :=
  if redis_available q then redis_client q else None.

(** The key of a job: [f"{self.job_prefix}{job_id}"] *)
Definition job_key (q : JobQueue) (job_id : string) : string :=
  String.append (job_prefix q) job_id.

(** Where a job dictionary held by a method comes from: decoded from
    Redis, it is a copy of its own; taken from [fallback_queue], it is the
    very object the queue holds. *)
Inductive origin : Type := Decoded | Shared.

(** ** enqueue_job

    [job_id] is the fresh [uuid4]; [created] and [updated] are the stamps
    of the two [datetime.now()] calls that build the job dictionary. *)
Definition enqueue_job (q : JobQueue) (job_id created updated : string)
    (job_type : string) (job_data : dict) (priority max_retries : Z)
  : string * JobQueue :=
  let job := mkJob job_id job_type job_data (value PENDING) priority
                   max_retries 0 created updated None None in
  match use_redis q with
  | Some r =>
      match setex r (job_key q job_id) (86400 * 7) job with
      | Some r1 =>
          match zadd r1 job_id priority with
          | Some r2 => (job_id, with_redis q r2)
          | None => (job_id, with_fallback (with_redis q r1)
                                (dict_set (fallback_queue q) job_id job))
          end
      | None => (job_id, with_fallback q (dict_set (fallback_queue q) job_id job))
      end
  | None => (job_id, with_fallback q (dict_set (fallback_queue q) job_id job))
  end.

(** ** get_job *)
Definition get_job_from (q : JobQueue) (job_id : string) : option (Job * origin) :=
  let in_memory := option_map (fun j => (j, Shared)) (dict_get (fallback_queue q) job_id) in
  match use_redis q with
  | Some r =>
      match get r (job_key q job_id) with
      | Some (Some job) => Some (job, Decoded)
      | Some None => in_memory
      | None => in_memory
      end
  | None => in_memory
  end.

Definition get_job (q : JobQueue) (job_id : string) : option Job :=
  option_map fst (get_job_from q job_id).

(** A mutation of a job dictionary the method holds: when the dictionary
    is the one in [fallback_queue], the queue sees it at once. *)
Definition mutate (q : JobQueue) (o : origin) (job_id : string) (job : Job)
  : JobQueue :=
  match o with
  | Shared => with_fallback q (dict_set (fallback_queue q) job_id job)
  | Decoded => q
  end.

(** ** update_job_status *)

(** The assignments to the job dictionary: the status and the stamp, and
    the error message and the result when they are given and not empty. *)
Definition updated (job : Job) (s : JobStatus) (error_message : option string)
    (result : option dict) (now : string) : Job :=
  let job1 := set_status job (value s) now in
  let job2 := match error_message with
              | Some (String c m) => set_error_message job1 (String c m)
              | _ => job1
              end in
  match result with
  | Some (kv :: d) => set_result job2 (kv :: d)
  | _ => job2
  end.

Definition update_job_status (q : JobQueue) (job_id : string) (s : JobStatus)
    (error_message : option string) (result : option dict) (now : string)
  : bool * JobQueue :=
  match get_job_from q job_id with
  | None => (false, q)
  | Some (job, o) =>
      let job3 := updated job s error_message result now in
      let q1 := mutate q o job_id job3 in
      let in_memory :=
        (true, with_fallback q1 (dict_set (fallback_queue q1) job_id job3)) in
      match use_redis q1 with
      | Some r =>
          match setex r (job_key q1 job_id) (86400 * 7) job3 with
          | Some r1 => (true, with_redis q1 r1)
          | None => in_memory
          end
      | None => in_memory
      end
  end.

(** ** dequeue_job *)

(** [sorted(items, key=priority, reverse=True)]: a stable sort, items of
    equal priority keep their order. *)
Fixpoint insert_desc (x : string * Job) (l : list (string * Job))
  : list (string * Job) :=
  match l with
  | [] => [x]
  | y :: l' =>
      if priority (snd x) <? priority (snd y)
      then y :: insert_desc x l'
      else x :: y :: l'
  end.

Fixpoint sorted_desc (l : list (string * Job)) : list (string * Job) :=
  match l with
  | [] => []
  | x :: l' => insert_desc x (sorted_desc l')
  end.

(** The loop over the in-process queue: the first pending job in the
    sorted order. *)
Definition first_pending (l : list (string * Job)) : option (string * Job) :=
  find (fun kv => String.eqb (status (snd kv)) (value PENDING)) l.

Definition dequeue_fallback (q : JobQueue) (now : string)
  : option Job * JobQueue :=
  match first_pending (sorted_desc (fallback_queue q)) with
  | Some (job_id, job) =>
      let job1 := set_status job (value PROCESSING) now in
      (Some job1, with_fallback q (dict_set (fallback_queue q) job_id job1))
  | None => (None, q)
  end.

Definition dequeue_job (q : JobQueue) (now : string) : option Job * JobQueue :=
  match use_redis q with
  | Some r =>
      match zrevrange_0_0 r with
      | Some [] => (None, q)
      | Some ((job_id, _) :: _) =>
          match get_job_from q job_id with
          | Some (job, o) =>
              if String.eqb (status job) (value PENDING) then
                match zrem r job_id with
                | Some r1 =>
                    let q2 := snd (update_job_status (with_redis q r1) job_id
                                     PROCESSING None None now) in
                    (match o with
                     | Decoded => Some job
                     | Shared =>
                         match dict_get (fallback_queue q2) job_id with
                         | Some job' => Some job'
                         | None => Some job
                         end
                     end, q2)
                | None => dequeue_fallback q now
                end
              else dequeue_fallback q now
          | None => dequeue_fallback q now
          end
      | None => dequeue_fallback q now
      end
  | None => dequeue_fallback q now
  end.

(** ** retry_job *)
Definition retry_job (q : JobQueue) (job_id now : string) : bool * JobQueue :=
  match get_job_from q job_id with
  | None => (false, q)
  | Some (job, o) =>
      if max_retries job <=? retry_count job then
        (false, snd (update_job_status q job_id FAILED None None now))
      else
        let job1 := set_status (set_retry_count job (retry_count job + 1))
                               (value RETRYING) now in
        let q1 := mutate q o job_id job1 in
        let in_memory :=
          (true, with_fallback q1 (dict_set (fallback_queue q1) job_id job1)) in
        match use_redis q1 with
        | Some r =>
            match setex r (job_key q1 job_id) (86400 * 7) job1 with
            | Some r1 =>
                match zadd r1 job_id (priority job1 - 1) with
                | Some r2 => (true, with_redis q1 r2)
                | None =>
                    (true, with_fallback (with_redis q1 r1)
                             (dict_set (fallback_queue q1) job_id job1))
                end
            | None => in_memory
            end
        | None => in_memory
        end
  end.

(** ** Histories of a queue *)

(** An empty Redis server that answers. *)
Definition fresh_redis : Redis := mkRedis true [] [].

(** What happens to a queue object: the calls of its methods, and the
    link to the Redis server going down or coming back. *)
Inductive command : Type :=
| EnqueueJob (job_id created updated job_type : string) (job_data : dict)
             (priority max_retries : Z)
| GetJob (job_id : string)
| UpdateJobStatus (job_id : string) (s : JobStatus)
                  (error_message : option string) (result : option dict)
                  (now : string)
| DequeueJob (now : string)
| RetryJob (job_id now : string)
| Link (up : bool).

Definition set_link (q : JobQueue) (up : bool) : JobQueue :=
  match redis_client q with
  | Some r => with_redis q (mkRedis up (keys r) (zset r))
  | None => q
  end.

Definition exec (q : JobQueue) (c : command) : JobQueue :=
  match c with
  | EnqueueJob job_id created updated job_type job_data priority max_retries =>
      snd (enqueue_job q job_id created updated job_type job_data priority
             max_retries)
  | GetJob _ => q
  | UpdateJobStatus job_id s error_message result now =>
      snd (update_job_status q job_id s error_message result now)
  | DequeueJob now => snd (dequeue_job q now)
  | RetryJob job_id now => snd (retry_job q job_id now)
  | Link up => set_link q up
  end.

Definition run (q : JobQueue) (cs : list command) : JobQueue :=
  fold_left exec cs q.

(** A queue as [get_job_queue] hands it out: with the in-process store
    only, or connected to a Redis server. *)
Definition initial (q : JobQueue) : Prop :=
  q = JobQueue_init \/ q = initialize JobQueue_init (Some fresh_redis).

(** Jobs are enqueued with a number of retries, not a negative count. *)
Definition sensible (c : command) : Prop :=
  match c with
  | EnqueueJob _ _ _ _ _ _ max_retries => 0 <= max_retries
  | _ => True
  end.

Definition within_retries (job : Job) : Prop :=
  retry_count job <= max_retries job.

(** Every job the queue holds, in Redis or in process, is within its
    retries. *)
Definition all_within_retries (q : JobQueue) : Prop :=
  Forall (fun kv => within_retries (snd kv)) (fallback_queue q)
  /\ match redis_client q with
     | Some r => Forall (fun kv => within_retries (payload (snd kv))) (keys r)
     | None => True
     end.

(** ** Consumers that interleave

    [dequeue_job] is a coroutine: between two awaited Redis commands it
    runs alone, and at each of them another task may run.  A consumer
    inside [dequeue_job] is described by the command it is about to
    await and the locals it holds. *)
Inductive consumer : Type :=
| Entering
| AwaitGet (job_id : string)
| AwaitZrem (job_id : string) (job : Job) (o : origin)
| AwaitUpdateGet (job_id : string) (job : Job) (o : origin)
| AwaitUpdateSetex (job_id : string) (job : Job) (o : origin) (job3 : Job)
| Done (returned : option Job).

(** The object [return job] hands out. *)
Definition returned_job (q : JobQueue) (job_id : string) (job : Job) (o : origin)
  : option Job :=
  match o with
  | Decoded => Some job
  | Shared =>
      match dict_get (fallback_queue q) job_id with
      | Some job' => Some job'
      | None => Some job
      end
  end.

Definition finish_in_memory (q : JobQueue) (now : string) : consumer * JobQueue :=
  (Done (fst (dequeue_fallback q now)), snd (dequeue_fallback q now)).

(** The consumer runs from where it is suspended through the awaited
    command up to its next await. *)
Definition resume (q : JobQueue) (now : string) (c : consumer)
  : consumer * JobQueue :=
  match c with
  | Entering =>
      match use_redis q with
      | Some r =>
          match zrevrange_0_0 r with
          | Some [] => (Done None, q)
          | Some ((job_id, _) :: _) => (AwaitGet job_id, q)
          | None => finish_in_memory q now
          end
      | None => finish_in_memory q now
      end
  | AwaitGet job_id =>
      match get_job_from q job_id with
      | Some (job, o) =>
          if String.eqb (status job) (value PENDING)
          then (AwaitZrem job_id job o, q)
          else finish_in_memory q now
      | None => finish_in_memory q now
      end
  | AwaitZrem job_id job o =>
      match use_redis q with
      | Some r =>
          match zrem r job_id with
          | Some r1 => (AwaitUpdateGet job_id job o, with_redis q r1)
          | None => finish_in_memory q now
          end
      | None => finish_in_memory q now
      end
  | AwaitUpdateGet job_id job o =>
      match get_job_from q job_id with
      | None => (Done (returned_job q job_id job o), q)
      | Some (job_u, o_u) =>
          let job3 := updated job_u PROCESSING None None now in
          let q1 := mutate q o_u job_id job3 in
          match use_redis q1 with
          | Some _ => (AwaitUpdateSetex job_id job o job3, q1)
          | None =>
              let q2 := with_fallback q1 (dict_set (fallback_queue q1) job_id job3) in
              (Done (returned_job q2 job_id job o), q2)
          end
      end
  | AwaitUpdateSetex job_id job o job3 =>
      let in_memory := with_fallback q (dict_set (fallback_queue q) job_id job3) in
      match use_redis q with
      | Some r =>
          match setex r (job_key q job_id) (86400 * 7) job3 with
          | Some r1 =>
              (Done (returned_job (with_redis q r1) job_id job o), with_redis q r1)
          | None => (Done (returned_job in_memory job_id job o), in_memory)
          end
      | None => (Done (returned_job in_memory job_id job o), in_memory)
      end
  | Done returned => (Done returned, q)
  end.

(** Two consumers of one queue; the schedule says which of them runs
    next ([true]: the first). *)
Fixpoint interleave (q : JobQueue) (now1 now2 : string) (c1 c2 : consumer)
    (schedule : list bool) : consumer * consumer * JobQueue :=
  match schedule with
  | [] => (c1, c2, q)
  | true :: rest =>
      let r := resume q now1 c1 in
      interleave (snd r) now1 now2 (fst r) c2 rest
  | false :: rest =>
      let r := resume q now2 c2 in
      interleave (snd r) now1 now2 c1 (fst r) rest
  end.

(** One consumer run to its end without interruption. *)
Definition alone (q : JobQueue) (now : string) : consumer * JobQueue :=
  let r1 := resume q now Entering in
  let r2 := resume (snd r1) now (fst r1) in
  let r3 := resume (snd r2) now (fst r2) in
  let r4 := resume (snd r3) now (fst r3) in
  resume (snd r4) now (fst r4).

(** ** Properties of the queue *)

(** Case analysis on the backend of a queue: Redis connected, Redis
    unreachable, no client, each with and without [redis_available]. *)
Ltac queue_cases q :=
  destruct q as [[[[|] ks zs]|] [|] qn jp fb];
  unfold retry_job, update_job_status, enqueue_job, get_job, get_job_from,
    use_redis, mutate, setex, zadd, zrem, get, with_fallback, with_redis, job_key in *;
  cbn [redis_client redis_available queue_name job_prefix fallback_queue
       connected keys zset fst snd option_map] in *.

Ltac lookup_cases H :=
  repeat match type of H with
         | context [dict_get ?d ?k] =>
             destruct (dict_get d k) as [?|] eqn:?; cbn in H
         end;
  try discriminate; injection H as <-.

Lemma retry_job_below_limit :
  forall q job_id now job,
    get_job q job_id = Some job ->
    retry_count job < max_retries job ->
    fst (retry_job q job_id now) = true
    /\ get_job (snd (retry_job q job_id now)) job_id
       = Some (set_status (set_retry_count job (retry_count job + 1))
                          (value RETRYING) now).
Proof.
  intros q job_id now job Hget Hlt.
  apply Z.leb_gt in Hlt.
  queue_cases q.
  all: lookup_cases Hget; cbn; rewrite ?Hlt; cbn;
    try destruct (score_of _); cbn;
    rewrite ?dict_get_set_same; cbn; rewrite ?dict_get_set_same; auto.
Qed.

Lemma retry_job_at_limit :
  forall q job_id now job,
    get_job q job_id = Some job ->
    max_retries job <= retry_count job ->
    fst (retry_job q job_id now) = false
    /\ get_job (snd (retry_job q job_id now)) job_id
       = Some (set_status job (value FAILED) now).
Proof.
  intros q job_id now job Hget Hge.
  apply Z.leb_le in Hge.
  queue_cases q.
  all: lookup_cases Hget; cbn; rewrite ?Hge; cbn;
    repeat match goal with
           | H : dict_get _ _ = _ |- _ => rewrite H; cbn
           end;
    rewrite ?dict_get_set_same; cbn; rewrite ?dict_get_set_same; auto.
Qed.

(** On a connected Redis backend a retry puts the job id back in the
    sorted set, with the score of [priority - 1]. *)
Lemma retry_job_redis_score :
  forall q r job_id now job score,
    use_redis q = Some r -> connected r = true ->
    get_job q job_id = Some job ->
    retry_count job < max_retries job ->
    score_of (priority job - 1) = Some score ->
    exists r',
      use_redis (snd (retry_job q job_id now)) = Some r'
      /\ dict_get (zset r') job_id = Some score.
Proof.
  intros q r job_id now job score Huse Hconn Hget Hlt Hscore.
  apply Z.leb_gt in Hlt.
  queue_cases q; try discriminate; injection Huse as <-; try discriminate.
  lookup_cases Hget; cbn; rewrite ?Hlt; cbn; rewrite Hscore;
    (eexists; split; [reflexivity|]); cbn; now rewrite dict_get_set_same.
Qed.

(** A job enqueued in process, with the default priority and retries. *)
Definition one_job_in_memory : JobQueue :=
  snd (enqueue_job JobQueue_init "job-a" "2025-01-01T00:00:00.000010"
         "2025-01-01T00:00:00.000012" "process_document"
         [("document_id", "d1")] 0 3).

(** The same job enqueued in Redis. *)
Definition one_job_in_redis : JobQueue :=
  snd (enqueue_job (initialize JobQueue_init (Some fresh_redis)) "job-a"
         "2025-01-01T00:00:00.000010" "2025-01-01T00:00:00.000012"
         "process_document" [("document_id", "d1")] 0 3).

(** A job of priority 5 that a consumer has taken and that then failed,
    on each backend. *)
Definition taken : list command :=
  [ EnqueueJob "job-a" "2025-01-01T00:00:00.000010" "2025-01-01T00:00:00.000012"
      "process_document" [("document_id", "d1")] 5 3;
    DequeueJob "2025-01-01T00:00:01" ].

Definition taken_in_memory : JobQueue := run JobQueue_init taken.

Definition taken_in_redis : JobQueue :=
  run (initialize JobQueue_init (Some fresh_redis)) taken.

(** C3 at the failing input.  [retry_job] returns [True] and counts the
    retry on both backends, but it marks the job [retrying], not
    [pending]: [dequeue_job], which takes pending jobs only, returns
    nothing from then on, on both backends, and the job retried is never
    run again.  The lower priority exists in Redis only, as the score 4 of
    the sorted set; in process the job keeps priority 5. *)
Lemma retry_job_remarks_retrying_not_pending :
  let m := retry_job taken_in_memory "job-a" "2025-01-01T00:00:02" in
  let r := retry_job taken_in_redis "job-a" "2025-01-01T00:00:02" in
  (fst m = true /\ fst r = true)
  /\ (option_map retry_count (get_job (snd m) "job-a") = Some 1
      /\ option_map retry_count (get_job (snd r) "job-a") = Some 1)
  /\ (option_map status (get_job (snd m) "job-a") = Some "retrying"
      /\ option_map status (get_job (snd r) "job-a") = Some "retrying")
  /\ (option_map priority (get_job (snd m) "job-a") = Some 5
      /\ option_map priority (get_job (snd r) "job-a") = Some 5
      /\ option_map zset (use_redis (snd r)) = Some [("job-a", 4%float)])
  /\ (dequeue_job (snd m) "2025-01-01T00:00:03" = (None, snd m)
      /\ dequeue_job (snd r) "2025-01-01T00:00:03" = (None, snd r)).
Proof. vm_compute. repeat split. Qed.

(** *** Retries are bounded *)

Lemma Forall_dict_set :
  forall (V : Type) (P : V -> Prop) (d : list (string * V)) k v,
    Forall (fun kv => P (snd kv)) d -> P v ->
    Forall (fun kv => P (snd kv)) (dict_set d k v).
Proof.
  intros V P d k v Hd Hv. induction Hd as [|[k' v'] d Hx Hd IH]; cbn.
  - constructor; [assumption|constructor].
  - destruct (String.eqb k' k); constructor; assumption.
Qed.

Lemma Forall_dict_get :
  forall (V : Type) (P : V -> Prop) (d : list (string * V)) k v,
    Forall (fun kv => P (snd kv)) d -> dict_get d k = Some v -> P v.
Proof.
  intros V P d k v Hd. induction Hd as [|[k' v'] d Hx Hd IH]; cbn; [discriminate|].
  destruct (String.eqb k' k); [intros [= <-]; exact Hx | exact IH].
Qed.

Lemma in_insert_desc :
  forall x y l, In y (insert_desc x l) -> y = x \/ In y l.
Proof.
  intros x y l. induction l as [|z l IH]; cbn.
  - intros [<-|[]]. now left.
  - destruct (priority (snd x) <? priority (snd z)); cbn.
    + intros [<-|H]; [right; now left|]. destruct (IH H); auto.
    + intros [<-|H]; auto.
Qed.

Lemma in_sorted_desc :
  forall y l, In y (sorted_desc l) -> In y l.
Proof.
  intros y l. induction l as [|x l IH]; cbn; [tauto|].
  intros H. apply in_insert_desc in H. destruct H as [->|H]; auto.
Qed.

Lemma get_job_from_within_retries :
  forall q job_id job o,
    all_within_retries q -> get_job_from q job_id = Some (job, o) ->
    within_retries job.
Proof.
  intros q job_id job o [Hfb Hredis] Hget.
  queue_cases q;
    repeat match type of Hget with
           | context [dict_get ?d ?k] =>
               destruct (dict_get d k) as [?|] eqn:?; cbn in Hget
           end;
    try discriminate; injection Hget as <- <-;
    first [ eapply (Forall_dict_get _ within_retries); eassumption
          | eapply (Forall_dict_get _ (fun e => within_retries (payload e))); eassumption ].
Qed.

Ltac within_retries_tac :=
  cbn [redis_client redis_available queue_name job_prefix fallback_queue
       connected keys zset fst snd] in *;
  repeat first
    [ assumption
    | exact I
    | split
    | apply (Forall_dict_set _ within_retries)
    | apply (Forall_dict_set _ (fun e => within_retries (payload e))) ].

Lemma enqueue_job_within_retries :
  forall q job_id created updated job_type job_data priority max_retries,
    0 <= max_retries -> all_within_retries q ->
    all_within_retries
      (snd (enqueue_job q job_id created updated job_type job_data priority
              max_retries)).
Proof.
  intros q job_id created updated job_type job_data priority m Hm [Hfb Hredis].
  unfold all_within_retries.
  queue_cases q; try destruct (score_of _); within_retries_tac.
Qed.

Lemma set_status_within_retries :
  forall job s now, within_retries job -> within_retries (set_status job s now).
Proof. intros job s now H. exact H. Qed.

Lemma updated_within_retries :
  forall job s error_message result now,
    within_retries job -> within_retries (updated job s error_message result now).
Proof.
  intros job s error_message result now H. unfold updated.
  destruct result as [[|kv d]|], error_message as [[|c m]|]; exact H.
Qed.

Lemma update_job_status_within_retries :
  forall q job_id s error_message result now,
    all_within_retries q ->
    all_within_retries (snd (update_job_status q job_id s error_message result now)).
Proof.
  intros q job_id s error_message result now Hall.
  unfold update_job_status.
  destruct (get_job_from q job_id) as [[job o]|] eqn:Hget; [|exact Hall].
  pose proof (updated_within_retries job s error_message result now
                (get_job_from_within_retries q job_id job o Hall Hget)) as Hjob3.
  revert Hjob3. generalize (updated job s error_message result now) as job3.
  intros job3 Hjob3. clear Hget. destruct Hall as [Hfb Hredis].
  unfold all_within_retries.
  queue_cases q; destruct o; within_retries_tac.
Qed.

Lemma retry_job_within_retries :
  forall q job_id now,
    all_within_retries q -> all_within_retries (snd (retry_job q job_id now)).
Proof.
  intros q job_id now Hall. unfold retry_job.
  destruct (get_job_from q job_id) as [[job o]|] eqn:Hget; [|exact Hall].
  destruct (max_retries job <=? retry_count job) eqn:Hlim.
  - cbn [snd]. now apply update_job_status_within_retries.
  - apply Z.leb_gt in Hlim.
    assert (Hjob1 : within_retries
              (set_status (set_retry_count job (retry_count job + 1))
                          (value RETRYING) now)).
    { unfold within_retries. cbn. lia. }
    revert Hjob1.
    generalize (set_status (set_retry_count job (retry_count job + 1))
                           (value RETRYING) now) as job1.
    intros job1 Hjob1. clear Hget. destruct Hall as [Hfb Hredis].
    unfold all_within_retries.
    queue_cases q; destruct o; try destruct (score_of _); within_retries_tac.
Qed.

Lemma dequeue_fallback_within_retries :
  forall q now,
    all_within_retries q -> all_within_retries (snd (dequeue_fallback q now)).
Proof.
  intros q now [Hfb Hredis]. unfold dequeue_fallback, first_pending.
  destruct (find _ (sorted_desc (fallback_queue q))) as [[job_id job]|] eqn:Hfind;
    [|now split].
  apply find_some in Hfind. destruct Hfind as [Hin _].
  apply in_sorted_desc in Hin.
  pose proof (proj1 (Forall_forall _ _) Hfb _ Hin) as Hjob.
  split; [|exact Hredis].
  cbn. apply (Forall_dict_set _ within_retries); [exact Hfb | exact Hjob].
Qed.

Lemma with_redis_zrem_within_retries :
  forall q r r1 job_id,
    all_within_retries q -> use_redis q = Some r -> zrem r job_id = Some r1 ->
    all_within_retries (with_redis q r1).
Proof.
  intros q r r1 job_id [Hfb Hredis] Huse Hzrem.
  queue_cases q; try discriminate; injection Huse as <-; try discriminate.
  injection Hzrem as <-. split; assumption.
Qed.

Lemma dequeue_job_within_retries :
  forall q now,
    all_within_retries q -> all_within_retries (snd (dequeue_job q now)).
Proof.
  intros q now Hall. unfold dequeue_job.
  destruct (use_redis q) as [r|] eqn:Huse;
    [|now apply dequeue_fallback_within_retries].
  destruct (zrevrange_0_0 r) as [[|[job_id score] top]|];
    [exact Hall | | now apply dequeue_fallback_within_retries].
  destruct (get_job_from q job_id) as [[job o]|];
    [|now apply dequeue_fallback_within_retries].
  destruct (String.eqb (status job) (value PENDING));
    [|now apply dequeue_fallback_within_retries].
  destruct (zrem r job_id) as [r1|] eqn:Hzrem;
    [|now apply dequeue_fallback_within_retries].
  cbn [snd]. apply update_job_status_within_retries.
  exact (with_redis_zrem_within_retries q r r1 job_id Hall Huse Hzrem).
Qed.

Lemma set_link_within_retries :
  forall q up, all_within_retries q -> all_within_retries (set_link q up).
Proof.
  intros [[r|] ra qn jp fb] up [Hfb Hredis]; unfold set_link, all_within_retries;
    cbn in *; now split.
Qed.

Lemma exec_within_retries :
  forall q c, sensible c -> all_within_retries q -> all_within_retries (exec q c).
Proof.
  intros q [job_id created updated job_type job_data priority m | job_id
           | job_id s error_message result now | now | job_id now | up] Hc Hall;
    cbn [exec].
  - now apply enqueue_job_within_retries.
  - exact Hall.
  - now apply update_job_status_within_retries.
  - now apply dequeue_job_within_retries.
  - now apply retry_job_within_retries.
  - now apply set_link_within_retries.
Qed.

Lemma run_within_retries :
  forall cs q,
    Forall sensible cs -> all_within_retries q -> all_within_retries (run q cs).
Proof.
  induction cs as [|c cs IH]; intros q Hcs Hall; [exact Hall|].
  inversion Hcs as [|c' cs' Hc Hcs']; subst.
  cbn [run fold_left]. apply IH; [assumption|].
  now apply exec_within_retries.
Qed.

Lemma initial_within_retries :
  forall q, initial q -> all_within_retries q.
Proof.
  intros q [->| ->]; split; cbn; constructor.
Qed.

(** On a connected Redis backend a retry below the limit leaves the
    backend connected. *)
Lemma retry_job_redis_connected :
  forall q r job_id now,
    use_redis q = Some r -> connected r = true ->
    exists r', use_redis (snd (retry_job q job_id now)) = Some r'
               /\ connected r' = true.
Proof.
  intros q r job_id now Huse Hconn. unfold retry_job.
  destruct (get_job_from q job_id) as [[job o]|] eqn:Hget; [|eauto].
  destruct (max_retries job <=? retry_count job); cbn [snd].
  - unfold update_job_status. rewrite Hget. clear Hget.
    queue_cases q; try discriminate; injection Huse as <-; try discriminate.
    destruct o; cbn; eauto.
  - clear Hget.
    queue_cases q; try discriminate; injection Huse as <-; try discriminate.
    destruct o; cbn; destruct (score_of _); cbn; eauto.
Qed.

(** C7, amended.  After every sequence of queue operations on a queue
    that starts empty, jobs being enqueued with [max_retries >= 0], every
    job held satisfies [retry_count <= max_retries]; and for a job with
    [max_retries = 3] and no retry yet, three calls of [retry_job] return
    [True], each of them counting one retry and, on a connected Redis
    backend, putting the job id back in the sorted set with the score of
    [priority - 1]; the fourth call returns [False] and leaves the job
    [failed] with [retry_count = 3]. *)
Theorem retry_count_bounded_three_retries_then_failed :
  forall q0 cs,
    initial q0 -> Forall sensible cs ->
    let q := run q0 cs in
    (forall job_id job,
        get_job q job_id = Some job -> retry_count job <= max_retries job)
    /\ (forall job_id job t1 t2 t3 t4,
           get_job q job_id = Some job ->
           max_retries job = 3 -> retry_count job = 0 ->
           let r1 := retry_job q job_id t1 in
           let r2 := retry_job (snd r1) job_id t2 in
           let r3 := retry_job (snd r2) job_id t3 in
           let r4 := retry_job (snd r3) job_id t4 in
           (fst r1 = true /\ fst r2 = true /\ fst r3 = true /\ fst r4 = false)
           /\ (option_map retry_count (get_job (snd r1) job_id) = Some 1
               /\ option_map retry_count (get_job (snd r2) job_id) = Some 2
               /\ option_map retry_count (get_job (snd r3) job_id) = Some 3)
           /\ (forall server score,
                  use_redis q = Some server -> connected server = true ->
                  score_of (priority job - 1) = Some score ->
                  option_map (fun s => dict_get (zset s) job_id) (use_redis (snd r1))
                  = Some (Some score)
                  /\ option_map (fun s => dict_get (zset s) job_id)
                       (use_redis (snd r2)) = Some (Some score)
                  /\ option_map (fun s => dict_get (zset s) job_id)
                       (use_redis (snd r3)) = Some (Some score))
           /\ exists job',
               get_job (snd r4) job_id = Some job'
               /\ status job' = value FAILED
               /\ retry_count job' = 3 /\ max_retries job' = 3).
Proof.
  intros q0 cs Hinit Hcs q.
  assert (Hall : all_within_retries q).
  { apply run_within_retries; [assumption|]. now apply initial_within_retries. }
  split.
  - intros job_id job Hget. unfold get_job in Hget.
    destruct (get_job_from q job_id) as [[job' o]|] eqn:Hfrom; [|discriminate].
    injection Hget as ->.
    exact (get_job_from_within_retries q job_id job o Hall Hfrom).
  - intros job_id job t1 t2 t3 t4 Hget Hmax Hcount r1 r2 r3 r4.
    destruct (retry_job_below_limit q job_id t1 job Hget) as [H1 G1];
      [lia|]. fold r1 in H1, G1.
    destruct (retry_job_below_limit (snd r1) job_id t2 _ G1) as [H2 G2];
      [cbn; lia|]. fold r2 in H2, G2.
    destruct (retry_job_below_limit (snd r2) job_id t3 _ G2) as [H3 G3];
      [cbn; lia|]. fold r3 in H3, G3.
    destruct (retry_job_at_limit (snd r3) job_id t4 _ G3) as [H4 G4];
      [cbn; lia|]. fold r4 in H4, G4.
    split; [repeat split; assumption|].
    split; [rewrite G1, G2, G3; cbn; rewrite Hcount; repeat split|].
    split.
    + intros server score Huse Hconn Hscore.
      destruct (retry_job_redis_score q server job_id t1 job score Huse Hconn Hget
                  ltac:(lia) Hscore) as (s1 & U1 & Z1).
      destruct (retry_job_redis_connected q server job_id t1 Huse Hconn)
        as (s1' & U1' & C1).
      fold r1 in U1, U1'. rewrite U1 in U1'. injection U1' as <-.
      destruct (retry_job_redis_score (snd r1) s1 job_id t2 _ score U1 C1 G1
                  ltac:(cbn; lia) Hscore) as (s2 & U2 & Z2).
      destruct (retry_job_redis_connected (snd r1) s1 job_id t2 U1 C1)
        as (s2' & U2' & C2).
      fold r2 in U2, U2'. rewrite U2 in U2'. injection U2' as <-.
      destruct (retry_job_redis_score (snd r2) s2 job_id t3 _ score U2 C2 G2
                  ltac:(cbn; lia) Hscore) as (s3 & U3 & Z3).
      fold r3 in U3.
      rewrite U1, U2, U3. cbn. rewrite Z1, Z2, Z3. repeat split.
    + eexists. split; [exact G4|]. cbn. repeat split; lia.
Qed.

Lemma retry_count_bounded_three_retries_then_failed_witness :
  let t1 := "2025-01-01T00:00:02" in
  let t2 := "2025-01-01T00:00:04" in
  let t3 := "2025-01-01T00:00:06" in
  let t4 := "2025-01-01T00:00:08" in
  let r1 := retry_job taken_in_redis "job-a" t1 in
  let r2 := retry_job (snd r1) "job-a" t2 in
  let r3 := retry_job (snd r2) "job-a" t3 in
  let r4 := retry_job (snd r3) "job-a" t4 in
  initial (initialize JobQueue_init (Some fresh_redis))
  /\ Forall sensible taken
  /\ option_map max_retries (get_job taken_in_redis "job-a") = Some 3
  /\ option_map retry_count (get_job taken_in_redis "job-a") = Some 0
  /\ (fst r1 = true /\ fst r2 = true /\ fst r3 = true /\ fst r4 = false)
  /\ option_map retry_count (get_job (snd r3) "job-a") = Some 3
  /\ option_map (fun s => dict_get (zset s) "job-a") (use_redis (snd r3))
     = Some (Some 4%float)
  /\ option_map status (get_job (snd r4) "job-a") = Some "failed"
  /\ option_map retry_count (get_job (snd r4) "job-a") = Some 3.
Proof.
  intros t1 t2 t3 t4 r1 r2 r3 r4.
  assert (Hi : initial (initialize JobQueue_init (Some fresh_redis))) by now right.
  assert (Hs : Forall sensible taken).
  { repeat constructor. cbn. lia. }
  destruct (proj2 (retry_count_bounded_three_retries_then_failed
                     (initialize JobQueue_init (Some fresh_redis)) taken Hi Hs)
              "job-a"
              (mkJob "job-a" "process_document" [("document_id", "d1")] "processing"
                 5 3 0 "2025-01-01T00:00:00.000010" "2025-01-01T00:00:01" None None)
              t1 t2 t3 t4 eq_refl eq_refl eq_refl)
    as (Hreturned & (_ & _ & Hcount) & Hredis & job' & Hget & Hstatus & Hretries & _).
  fold taken_in_redis in Hreturned, Hcount, Hredis, Hget.
  fold r1 in Hreturned, Hcount, Hredis, Hget. fold r2 in Hreturned, Hcount, Hredis, Hget.
  fold r3 in Hreturned, Hcount, Hredis, Hget. fold r4 in Hreturned, Hget.
  split; [exact Hi|]. split; [exact Hs|].
  split; [reflexivity|]. split; [reflexivity|].
  split; [exact Hreturned|]. split; [exact Hcount|].
  split.
  - exact (proj2 (proj2 (Hredis (mkRedis true
                                   [("doc_job:job-a",
                                     mkEntry (86400 * 7)
                                       (mkJob "job-a" "process_document"
                                          [("document_id", "d1")] "processing" 5 3 0
                                          "2025-01-01T00:00:00.000010"
                                          "2025-01-01T00:00:01" None None))]
                                   [])
                           4%float eq_refl eq_refl eq_refl))).
  - rewrite Hget. cbn. rewrite Hstatus, Hretries. split; reflexivity.
Defined.

(** C7, as stated, fails: [enqueue_job] accepts a negative [max_retries],
    and the job it enqueues has [retry_count = 0] above it. *)
Lemma negative_max_retries_breaks_retry_bound :
  let q := run JobQueue_init
             [ EnqueueJob "job-n" "2025-01-01T00:00:00.000010"
                 "2025-01-01T00:00:00.000012" "process_document" [] 0 (-1) ] in
  initial JobQueue_init
  /\ option_map retry_count (get_job q "job-n") = Some 0
  /\ option_map max_retries (get_job q "job-n") = Some (-1)
  /\ ~ (forall job_id job,
           get_job q job_id = Some job -> retry_count job <= max_retries job).
Proof.
  intros q. split; [now left|]. split; [reflexivity|]. split; [reflexivity|].
  intros H.
  specialize (H "job-n"
                (mkJob "job-n" "process_document" [] "pending" 0 (-1) 0
                   "2025-01-01T00:00:00.000010" "2025-01-01T00:00:00.000012"
                   None None) eq_refl).
  cbn in H. lia.
Qed.

(** *** Dequeue *)

(** A job is enqueued with priority 5, taken by a consumer, fails and is
    retried; then a second job is enqueued with priority 0. *)
Definition retried_head : JobQueue :=
  run (initialize JobQueue_init (Some fresh_redis))
    [ EnqueueJob "job-a" "2025-01-01T00:00:00.000010" "2025-01-01T00:00:00.000012"
        "process_document" [("document_id", "d1")] 5 3;
      DequeueJob "2025-01-01T00:00:01";
      RetryJob "job-a" "2025-01-01T00:00:02";
      EnqueueJob "job-b" "2025-01-01T00:00:03.000010" "2025-01-01T00:00:03.000012"
        "process_document" [("document_id", "d2")] 0 3 ].

(** C4 at the failing input.  On the Redis backend the retried job
    [job-a] heads the sorted set with status [retrying]; [job-b] is
    pending; [dequeue_job] returns [None] and changes nothing. *)
Lemma dequeue_job_redis_none_with_pending_job :
  option_map zset (use_redis retried_head)
  = Some [("job-a", 4%float); ("job-b", 0%float)]
  /\ option_map status (get_job retried_head "job-a") = Some (value RETRYING)
  /\ option_map status (get_job retried_head "job-b") = Some (value PENDING)
  /\ dequeue_job retried_head "2025-01-01T00:00:04" = (None, retried_head).
Proof. vm_compute. repeat split. Qed.

Definition pending (job : Job) : Prop := status job = value PENDING.

(** In the sorted order every item is followed by items of lower or equal
    priority only. *)
Fixpoint descending (l : list (string * Job)) : Prop :=
  match l with
  | [] => True
  | x :: l' =>
      (forall y, In y l' -> priority (snd y) <= priority (snd x)) /\ descending l'
  end.

Lemma insert_desc_in :
  forall x y l, In y (insert_desc x l) <-> y = x \/ In y l.
Proof.
  intros x y l. split; [apply in_insert_desc|].
  induction l as [|z l IH]; cbn.
  - intros [->|[]]. now left.
  - destruct (priority (snd x) <? priority (snd z)); cbn.
    + intros [->|[->|H]]; auto.
    + intros [->|[->|H]]; auto.
Qed.

Lemma sorted_desc_in :
  forall y l, In y (sorted_desc l) <-> In y l.
Proof.
  intros y l. induction l as [|x l IH]; cbn; [tauto|].
  rewrite insert_desc_in, IH. intuition congruence.
Qed.

Lemma insert_desc_descending :
  forall x l, descending l -> descending (insert_desc x l).
Proof.
  intros x l. induction l as [|z l IH]; cbn.
  - intros _. split; [intros y []|exact I].
  - intros [Hz Hl]. destruct (priority (snd x) <? priority (snd z)) eqn:E; cbn.
    + apply Z.ltb_lt in E. split; [|now apply IH].
      intros y Hy. apply insert_desc_in in Hy. destruct Hy as [->|Hy]; [lia|auto].
    + apply Z.ltb_ge in E. split; [|now split].
      intros y [<-|Hy]; [assumption|]. specialize (Hz y Hy). lia.
Qed.

Lemma sorted_desc_descending : forall l, descending (sorted_desc l).
Proof.
  induction l as [|x l IH]; cbn; [exact I|]. now apply insert_desc_descending.
Qed.

Lemma first_pending_descending :
  forall l,
    descending l ->
    match first_pending l with
    | Some kv =>
        In kv l /\ pending (snd kv)
        /\ forall kv', In kv' l -> pending (snd kv') ->
                       priority (snd kv') <= priority (snd kv)
    | None => forall kv, In kv l -> ~ pending (snd kv)
    end.
Proof.
  unfold first_pending, pending.
  induction l as [|x l IH]; cbn [find descending In]; [intros _ kv []|].
  intros [Hx Hl]. destruct (String.eqb_spec (status (snd x)) (value PENDING)) as [Hp|Hn].
  - split; [now left|]. split; [assumption|].
    intros kv' [<-|Hin] _; [lia|auto].
  - specialize (IH Hl). destruct (find _ l) as [kv|].
    + destruct IH as (Hin & Hp & Hmax). split; [now right|]. split; [assumption|].
      intros kv' [<-|Hin'] Hp'; [contradiction|auto].
    + intros kv [<-|Hin]; [assumption|auto].
Qed.

(** On the in-process queue [dequeue_job] takes a pending job of maximal
    priority and marks it [processing]; it returns nothing exactly when no
    job is pending. *)
Lemma dequeue_fallback_takes_highest_pending :
  forall q now,
    match fst (dequeue_fallback q now) with
    | Some taken =>
        exists job_id job,
          In (job_id, job) (fallback_queue q) /\ pending job
          /\ taken = set_status job (value PROCESSING) now
          /\ snd (dequeue_fallback q now)
             = with_fallback q (dict_set (fallback_queue q) job_id taken)
          /\ forall k j, In (k, j) (fallback_queue q) -> pending j ->
                         priority j <= priority job
    | None =>
        snd (dequeue_fallback q now) = q
        /\ forall k j, In (k, j) (fallback_queue q) -> ~ pending j
    end.
Proof.
  intros q now. unfold dequeue_fallback.
  pose proof (first_pending_descending _ (sorted_desc_descending (fallback_queue q))) as H.
  destruct (first_pending (sorted_desc (fallback_queue q))) as [[job_id job]|].
  - destruct H as (Hin & Hp & Hmax). cbn [fst snd] in *.
    exists job_id, job. apply (proj1 (sorted_desc_in _ _)) in Hin.
    repeat split; try assumption.
    intros k j Hkj Hpj. apply (Hmax (k, j)); [|assumption].
      now apply sorted_desc_in.
  - cbn [fst snd]. split; [reflexivity|].
    intros k j Hkj. apply (H (k, j)). now apply sorted_desc_in.
Qed.

(** On the Redis backend, a job that heads the sorted set and is not
    pending is neither taken nor removed: [dequeue_job] turns to the
    in-process queue, whatever else is pending in Redis. *)
Lemma dequeue_job_head_not_pending :
  forall q r job_id score rest job now,
    use_redis q = Some r ->
    zrevrange_0_0 r = Some ((job_id, score) :: rest) ->
    get_job q job_id = Some job ->
    status job <> value PENDING ->
    dequeue_job q now = dequeue_fallback q now.
Proof.
  intros q r job_id score rest job now Huse Htop Hget Hstatus.
  unfold dequeue_job. rewrite Huse, Htop.
  unfold get_job in Hget.
  destruct (get_job_from q job_id) as [[job' o]|]; [|discriminate].
  injection Hget as ->.
  destruct (String.eqb_spec (status job) (value PENDING)); [contradiction|reflexivity].
Qed.

Lemma dequeue_job_in_memory :
  forall q now, use_redis q = None -> dequeue_job q now = dequeue_fallback q now.
Proof. intros q now H. unfold dequeue_job. now rewrite H. Qed.

(** *** Two consumers *)

Lemma alone_dequeue_job :
  forall q now,
    alone q now = (Done (fst (dequeue_job q now)), snd (dequeue_job q now)).
Proof.
  intros q now. unfold alone, dequeue_job.
  destruct (use_redis q) as [r|] eqn:Huse; cbn [resume]; rewrite ?Huse;
    [|reflexivity].
  destruct (zrevrange_0_0 r) as [[|[job_id score] top]|] eqn:Htop;
    try reflexivity.
  cbn [fst snd resume].
  destruct (get_job_from q job_id) as [[job o]|] eqn:Hget; try reflexivity.
  destruct (String.eqb (status job) (value PENDING)); try reflexivity.
  cbn [fst snd resume]. rewrite Huse.
  destruct (zrem r job_id) as [r1|] eqn:Hzrem; try reflexivity.
  cbn [fst snd resume]. unfold update_job_status.
  destruct (get_job_from (with_redis q r1) job_id) as [[job_u o_u]|] eqn:Hget2.
  - cbn zeta.
    destruct (use_redis (mutate (with_redis q r1) o_u job_id
                           (updated job_u PROCESSING None None now))) as [r2|] eqn:Huse2;
      cbn [fst snd resume]; rewrite ?Huse2.
    + destruct (setex r2 _ _ _); reflexivity.
    + reflexivity.
  - reflexivity.
Qed.

(** The keys of the in-process queue are the ids of its jobs. *)
Definition well_keyed (d : list (string * Job)) : Prop :=
  NoDup (map fst d) /\ forall k j, In (k, j) d -> id j = k.

Lemma in_dict_set :
  forall (V : Type) (d : list (string * V)) k v k' v',
    NoDup (map fst d) -> In (k', v') (dict_set d k v) ->
    (k' = k /\ v' = v) \/ (k' <> k /\ In (k', v') d).
Proof.
  intros V d k v k' v'. induction d as [|[k0 v0] d IH]; cbn.
  - intros _ [[= <- <-]|[]]. now left.
  - intros Hnd. inversion Hnd as [|x l Hnotin Hnd']; subst.
    destruct (String.eqb_spec k0 k) as [->|Hne]; cbn.
    + intros [[= <- <-]|Hin]; [now left|]. right. split; [|now right].
      intros ->. apply Hnotin. apply (in_map fst) in Hin. exact Hin.
    + intros [[= <- <-]|Hin]; [right; split; [assumption|now left]|].
      destruct (IH Hnd' Hin) as [H|[H1 H2]]; [now left|]. right. split; [assumption|now right].
Qed.

Lemma dequeue_fallback_twice_distinct :
  forall q now1 now2 j1 j2,
    well_keyed (fallback_queue q) ->
    fst (dequeue_fallback q now1) = Some j1 ->
    fst (dequeue_fallback (snd (dequeue_fallback q now1)) now2) = Some j2 ->
    id j1 <> id j2.
Proof.
  intros q now1 now2 j1 j2 [Hnd Hid] H1 H2.
  pose proof (dequeue_fallback_takes_highest_pending q now1) as S1.
  rewrite H1 in S1. destruct S1 as (k1 & job1 & Hin1 & Hp1 & -> & Hq1 & _).
  pose proof (dequeue_fallback_takes_highest_pending
                (snd (dequeue_fallback q now1)) now2) as S2.
  rewrite H2 in S2. destruct S2 as (k2 & job2 & Hin2 & Hp2 & -> & _).
  rewrite Hq1 in Hin2. cbn [with_fallback fallback_queue] in Hin2.
  apply in_dict_set in Hin2; [|assumption].
  destruct Hin2 as [[-> ->]|[Hne Hin2]].
  - unfold pending in Hp2. cbn in Hp2. discriminate.
  - cbn. rewrite (Hid _ _ Hin1), (Hid _ _ Hin2). congruence.
Qed.

Lemma dequeue_fallback_use_redis :
  forall q now, use_redis (snd (dequeue_fallback q now)) = use_redis q.
Proof.
  intros q now. unfold dequeue_fallback.
  destruct (first_pending _) as [[job_id job]|]; reflexivity.
Qed.

Lemma interleave_done_done :
  forall schedule q now1 now2 r1 r2,
    interleave q now1 now2 (Done r1) (Done r2) schedule = (Done r1, Done r2, q).
Proof.
  induction schedule as [|[|] rest IH]; intros; cbn; auto.
Qed.

(** On the in-process queue a consumer runs [dequeue_job] from its entry
    to its return without awaiting: however two consumers are scheduled,
    one of them takes its job from the queue the other one left, and they
    never return the same job id. *)
Lemma in_memory_consumers_exclusive :
  forall schedule q now1 now2 j1 j2 q',
    use_redis q = None -> well_keyed (fallback_queue q) ->
    interleave q now1 now2 Entering Entering schedule
    = (Done (Some j1), Done (Some j2), q') ->
    id j1 <> id j2.
Proof.
  assert (Hfirst : forall schedule q now1 now2 r1 j1 j2 q',
             use_redis q = None ->
             interleave q now1 now2 (Done r1) Entering schedule
             = (Done (Some j1), Done (Some j2), q') ->
             r1 = Some j1 /\ fst (dequeue_fallback q now2) = Some j2).
  { induction schedule as [|[|] rest IH]; intros q now1 now2 r1 j1 j2 q' Huse H;
      cbn in H.
    - discriminate.
    - eauto.
    - rewrite Huse in H. cbn in H. rewrite interleave_done_done in H.
      injection H as -> H2 _. now split. }
  assert (Hsecond : forall schedule q now1 now2 r2 j1 j2 q',
             use_redis q = None ->
             interleave q now1 now2 Entering (Done r2) schedule
             = (Done (Some j1), Done (Some j2), q') ->
             r2 = Some j2 /\ fst (dequeue_fallback q now1) = Some j1).
  { induction schedule as [|[|] rest IH]; intros q now1 now2 r2 j1 j2 q' Huse H;
      cbn in H.
    - discriminate.
    - rewrite Huse in H. cbn in H. rewrite interleave_done_done in H.
      injection H as H1 -> _. now split.
    - eauto. }
  induction schedule as [|[|] rest IH]; intros q now1 now2 j1 j2 q' Huse Hwk H;
    cbn in H.
  - discriminate.
  - rewrite Huse in H. cbn in H.
    apply Hfirst in H; [|now rewrite dequeue_fallback_use_redis].
    destruct H as [H1 H2].
    exact (dequeue_fallback_twice_distinct q now1 now2 j1 j2 Hwk H1 H2).
  - rewrite Huse in H. cbn in H.
    apply Hsecond in H; [|now rewrite dequeue_fallback_use_redis].
    destruct H as [H2 H1].
    apply not_eq_sym.
    exact (dequeue_fallback_twice_distinct q now2 now1 j2 j1 Hwk H2 H1).
Qed.

Definition alternating : list bool :=
  [true; false; true; false; true; false; true; false; true; false].

(** C9 at the failing input.  Two consumers of a Redis-backed queue that
    holds one pending job, resumed in turn at each awaited command, both
    return that job. *)
Lemma concurrent_dequeue_job_same_job_twice :
  exists j1 j2 q',
    interleave one_job_in_redis "2025-01-01T00:00:01" "2025-01-01T00:00:02"
      Entering Entering alternating
    = (Done (Some j1), Done (Some j2), q')
    /\ id j1 = "job-a" /\ id j2 = "job-a".
Proof. do 3 eexists. vm_compute. repeat split. Qed.

End JobQueue.

(* ================================================================== *)
(** * document_db_service.py *)
(* ================================================================== *)

Module DocumentDB.

(** ** Values *)

#[local] Unset Elimination Schemes.

(** What [json.dumps] writes and [json.loads] reads. *)
Inductive json : Type :=
| JNull
| JBool (b : bool)
| JInt (z : Z)
| JFloat (f : float)
| JStr (s : string)
| JList (l : list json)
| JDict (d : list (string * json)).

(** The objects a stage may leave in its result. *)
Inductive pyobj : Type :=
| PNone
| PBool (b : bool)
| PInt (z : Z)
| PFloat (f : float)
| PStr (s : string)
| PList (l : list pyobj)
| PTuple (l : list pyobj)
| PDict (d : list (string * pyobj))
| PImage (width height : Z) (mode : string) (format : option string)
| PDatetime (isoformat : string)       (* [datetime.datetime] *)
| PDateOrTime (isoformat : string)     (* [datetime.date], [datetime.time] *)
| PObject (str : option string).       (* anything else; [None]: [str(obj)] raises *)

#[local] Set Elimination Schemes.

(** [ensure_serializable], the helper of [save_extraction_result]; a
    tuple is written by [json.dumps] as a list. *)
Fixpoint ensure_serializable (obj : pyobj) : json :=
  match obj with
  | PImage width height mode format =>
      JDict [ ("type", JStr "pil_image");
              ("size", JList [JInt width; JInt height]);
              ("mode", JStr mode);
              ("format", match format with Some f => JStr f | None => JNull end) ]
  | PDatetime iso => JStr iso
  | PDateOrTime iso => JStr iso
  | PDict d => JDict (map (fun kv => (fst kv, ensure_serializable (snd kv))) d)
  | PList l => JList (map ensure_serializable l)
  | PTuple l => JList (map ensure_serializable l)
  | PStr s => JStr s
  | PInt z => JInt z
  | PFloat f => JFloat f
  | PBool b => JBool b
  | PNone => JNull
  | PObject (Some s) => JStr s
  | PObject None => JNull
  end.

(** The truth value of an object; an object of a class of its own is
    taken with the default, true. *)
Definition py_truthy (obj : pyobj) : bool :=
  match obj with
  | PNone => false
  | PBool b => b
  | PInt z => negb (z =? 0)
  | PFloat f => negb (PrimFloat.eqb f 0%float)
  | PStr s => negb (String.eqb s EmptyString)
  | PList l => match l with [] => false | _ => true end
  | PTuple l => match l with [] => false | _ => true end
  | PDict d => match d with [] => false | _ => true end
  | _ => true
  end.

(** [metadata or {}] *)
Definition or_empty_dict (metadata : option pyobj) : pyobj :=
  match metadata with
  | Some obj => if py_truthy obj then obj else PDict []
  | None => PDict []
  end.

(** The object that [json.loads] builds for a JSON value. *)
Fixpoint py_of_json (j : json) : pyobj :=
  match j with
  | JNull => PNone
  | JBool b => PBool b
  | JInt z => PInt z
  | JFloat f => PFloat f
  | JStr s => PStr s
  | JList l => PList (map py_of_json l)
  | JDict d => PDict (map (fun kv => (fst kv, py_of_json (snd kv))) d)
  end.


(** ** Strings *)

Definition is_ascii_digit (c : ascii) : bool :=
  let n := nat_of_ascii c in ((48 <=? n) && (n <=? 57))%nat.
Definition is_ascii_lower (c : ascii) : bool :=
  let n := nat_of_ascii c in ((97 <=? n) && (n <=? 122))%nat.
Definition is_ascii_upper (c : ascii) : bool :=
  let n := nat_of_ascii c in ((65 <=? n) && (n <=? 90))%nat.
Definition ascii_upper (c : ascii) : ascii :=
  if is_ascii_lower c then ascii_of_nat (nat_of_ascii c - 32) else c.
Definition ascii_lower (c : ascii) : ascii :=
  if is_ascii_upper c then ascii_of_nat (nat_of_ascii c + 32) else c.

(** [s.replace(a, b)] for single characters. *)
Fixpoint replace_char (a b : ascii) (s : string) : string :=
  match s with
  | EmptyString => EmptyString
  | String c s' => String (if Ascii.eqb c a then b else c) (replace_char a b s')
  end.

(** [s.title()] on ASCII text: a letter that follows a letter is
    lowercased, any other letter is uppercased. *)
Fixpoint title_from (previous_is_cased : bool) (s : string) : string :=
  match s with
  | EmptyString => EmptyString
  | String c s' =>
      if is_ascii_lower c || is_ascii_upper c
      then String (if previous_is_cased then ascii_lower c else ascii_upper c)
                  (title_from true s')
      else String c (title_from false s')
  end.
Definition title (s : string) : string := title_from false s.

(** [s.isdigit()] on ASCII text. *)
Fixpoint all_digits (s : string) : bool :=
  match s with
  | EmptyString => true
  | String c s' => is_ascii_digit c && all_digits s'
  end.
Definition isdigit (s : string) : bool :=
  match s with EmptyString => false | _ => all_digits s end.

(** [int(s)] for a string of digits. *)
Fixpoint int_of_digits (acc : Z) (s : string) : Z :=
  match s with
  | EmptyString => acc
  | String c s' => int_of_digits (10 * acc + Z.of_nat (nat_of_ascii c - 48)) s'
  end.

(** ** Tables *)

Record document_row : Type := mkDocument {
  d_id : string;                       (* the UUID, as [str] prints it *)
  d_filename : string;
  d_file_path : string;
  d_file_type : string;
  d_file_size : Z;
  d_user_id : option Z;
  d_status : string;
  d_processing_stage : string;
  d_document_type : string;
  d_metadata : string;
  d_upload_timestamp : string;
  d_created_at : string;
  d_updated_at : string
}.

Record stage_row : Type := mkStage {
  ps_id : string;
  ps_document_id : string;
  ps_stage_name : string;
  ps_status : string;
  ps_started_at : option string;
  ps_completed_at : option string;
  ps_error_message : option string;
  ps_processing_time_ms : option Z;
  ps_metadata : option string
}.

Record extraction_row : Type := mkExtraction {
  er_document_id : string;
  er_stage : string;
  er_raw_data : string;
  er_processed_data : string;
  er_confidence_score : float;
  er_processing_time_ms : Z;
  er_model_used : string;
  er_metadata : string
}.

Record quality_row : Type := mkQuality {
  qs_document_id : string;
  qs_overall_score : float;
  qs_completeness_score : float;
  qs_accuracy_score : float;
  qs_compliance_score : float;
  qs_quality_score : float;
  qs_decision : string;
  qs_reasoning : string;
  qs_issues_found : string;
  qs_confidence : float;
  qs_judge_model : string
}.

Record routing_row : Type := mkRouting {
  rd_document_id : string;
  rd_routing_action : string;
  rd_routing_reason : string;
  rd_wms_integration_status : string;
  rd_wms_integration_data : string;
  rd_human_review_required : bool
}.

(** The tables, each in the order of its [created_at] column. *)
Record database : Type := mkDatabase {
  documents : list document_row;
  processing_stages : list stage_row;
  extraction_results : list extraction_row;
  quality_scores : list quality_row;
  routing_decisions : list routing_row
}.

(** The database and what the connection will do: [faults] says, for the
    statements to come, which of them raise (none once the list is
    exhausted). *)
Record world : Type := mkWorld { db : database; faults : list bool }.

(** ** Statements that may raise *)

(** A computation on the database; [None] is a raised exception. *)
Definition DB (A : Type) : Type := world -> option A * world.

Definition ret {A : Type} (a : A) : DB A := fun w => (Some a, w).

Definition raise {A : Type} : DB A := fun w => (None, w).

Definition bind {A B : Type} (m : DB A) (k : A -> DB B) : DB B :=
  fun w => match m w with
           | (Some a, w') => k a w'
           | (None, w') => (None, w')
           end.

Notation "x <- m ;; k" := (bind m (fun x => k))
  (at level 61, m at next level, right associativity).
Notation "m ;;; k" := (bind m (fun _ => k))
  (at level 61, right associativity).

(** [try: ... except Exception: return fallback] *)
Definition try_except {A : Type} (m : DB A) (fallback : A) : world -> A * world :=
  fun w => match m w with
           | (Some a, w') => (a, w')
           | (None, w') => (fallback, w')
           end.

(** [await self.db.execute_command(...)] *)
Definition execute_command (f : database -> database) : DB unit :=
  fun w => match faults w with
           | true :: rest => (None, mkWorld (db w) rest)
           | false :: rest => (Some tt, mkWorld (f (db w)) rest)
           | [] => (Some tt, mkWorld (f (db w)) [])
           end.

(** [await self.db.execute_query(...)] *)
Definition execute_query {A : Type} (f : database -> A) : DB A :=
  fun w => match faults w with
           | true :: rest => (None, mkWorld (db w) rest)
           | false :: rest => (Some (f (db w)), mkWorld (db w) rest)
           | [] => (Some (f (db w)), w)
           end.

(** A value that Python computes before the statement, and that may be
    an exception. *)
Definition value_of {A : Type} (v : option A) : DB A :=
  match v with Some a => ret a | None => raise end.

(** ** What the status and result queries return *)

(** One entry of the [stages] list; a stage dictionary may lack the
    [metadata] key, or hold SQL [NULL] or the text of the JSONB column. *)
Inductive column : Type :=
| Absent
| Null
| Text (s : string).

Record stage_dict : Type := mkStageDict {
  sd_stage_name : string;
  sd_status : string;
  sd_started_at : option string;
  sd_completed_at : option string;
  sd_error_message : option string;
  sd_processing_time_ms : option Z;
  sd_metadata : column
}.

Record stage_view : Type := mkStageView {
  name : string;
  status : string;
  started_at : option string;
  completed_at : option string;
  processing_time_ms : option Z;
  error_message : option string;
  metadata : json
}.

Record status_view : Type := mkStatusView {
  document_id : string;
  document_status : string;            (* the key [status] *)
  current_stage : string;
  progress : Z;
  stages : list stage_view;
  filename : string;
  document_type : string;
  upload_timestamp : string
}.

Record extraction_view : Type := mkExtractionView {
  raw_data : json;
  processed_data : json;
  confidence_score : float;
  ev_processing_time_ms : Z;
  model_used : string;
  ev_metadata : json
}.

Record quality_view : Type := mkQualityView {
  overall_score : float;
  completeness_score : float;
  accuracy_score : float;
  compliance_score : float;
  quality_score : float;
  decision : string;
  reasoning : json;
  issues_found : json;
  confidence : float;
  judge_model : string
}.

Record routing_view : Type := mkRoutingView {
  routing_action : string;
  routing_reason : string;
  wms_integration_status : string;
  wms_integration_data : json;
  human_review_required : bool
}.

Record results_view : Type := mkResultsView {
  rv_extraction_results : list (string * extraction_view);
  rv_quality_score : option quality_view;
  rv_routing_decision : option routing_view
}.

(** [{"stage_name": ..., "status": "pending"}] *)
Definition default_stage (stage_name : string) : stage_dict :=
  mkStageDict stage_name "pending" None None None None Absent.

Definition default_stages : list stage_dict :=
  [ default_stage "preprocessing"; default_stage "ocr_extraction";
    default_stage "llm_processing"; default_stage "validation";
    default_stage "routing" ].

(** The dictionary of a row of [processing_stages]. *)
Definition stage_of_row (r : stage_row) : stage_dict :=
  mkStageDict (ps_stage_name r) (ps_status r) (ps_started_at r)
    (ps_completed_at r) (ps_error_message r) (ps_processing_time_ms r)
    (match ps_metadata r with Some s => Text s | None => Null end).

(** [sum(1 for s in stages if s.get("status") == "completed")] *)
Definition completed_stages (stages : list stage_dict) : Z :=
  Z.of_nat (List.length (filter (fun s => String.eqb (sd_status s) "completed") stages)).

(** [int((completed_stages / total_stages * 100)) if total_stages > 0 else 0];
    [None] stands for the exception of [int] on a float that is not
    finite. *)
Definition progress_of (completed total : Z) : option Z :=
  if 0 <? total
  then int_of_float (float_of_Z completed / float_of_Z total * 100)%float
  else Some 0.

(** One more completed stage out of [t] does not lower the progress, and
    the progress stays between 0 and 100: checked by evaluation. *)
Definition progress_step_ok (t c : nat) : bool :=
  match progress_of (Z.of_nat c) (Z.of_nat t),
        progress_of (Z.of_nat (S c)) (Z.of_nat t) with
  | Some p, Some p' => (p <=? p') && (0 <=? p) && (p' <=? 100)
  | _, _ => false
  end.

Definition progress_steps_ok (n : nat) : bool :=
  forallb (fun t => forallb (progress_step_ok t) (seq 0 t)) (seq 0 (S n)).

(** The number of stage records per document up to which the progress
    has been evaluated; the pipeline has five stages. *)
Definition checked_stage_records : nat := 100.

(** The loop that determines the current stage. *)
Fixpoint current_stage_of (stages : list stage_dict) : string :=
  match stages with
  | [] => "Preprocessing"
  | stage :: rest =>
      if String.eqb (sd_status stage) "processing"
      then title (replace_char "_" " " (sd_stage_name stage))
      else if String.eqb (sd_status stage) "pending"
      then title (replace_char "_" " " (sd_stage_name stage))
      else current_stage_of rest
  end.

Section Service.

(** [uuid.UUID(s)], printed by [str]; [None]: [ValueError]. *)
Variable UUID : string -> option string.
(** [s.isdigit()], and [int(s)] with [None] for [ValueError]: [isdigit]
    accepts digits that [int] refuses, a superscript two for one, and
    [int] refuses a string of more digits than the interpreter's limit. *)
Variable str_isdigit : string -> bool.
Variable int_of_str : string -> option Z.
(** [json.dumps], and [json.loads] with [None] for [JSONDecodeError]. *)
Variable json_dumps : json -> string.
Variable json_loads : string -> option json.

(** [parse_jsonb_field] of [get_document_status] *)
Definition parse_jsonb_field_status (v : column) : json :=
  match v with
  | Text s => match json_loads s with Some j => j | None => JStr s end
  | Null => JNull
  | Absent => JDict []
  end.

(** [parse_jsonb_field] of [get_extraction_results] *)
Definition parse_jsonb_field (v : option string) : json :=
  match v with
  | Some s => match json_loads s with Some j => j | None => JStr s end
  | None => JDict []
  end.

(** [metadata or {}] on a value that is already JSON. *)
Definition or_empty (metadata : option json) : json :=
  match metadata with
  | Some j => if py_truthy (py_of_json j) then j else JDict []
  | None => JDict []
  end.

(** *** create_document *)

Definition upsert_document (row : document_row) (now : string) (d : database)
  : database :=
  mkDatabase
    (if existsb (fun r => String.eqb (d_id r) (d_id row)) (documents d)
     then map (fun r =>
                 if String.eqb (d_id r) (d_id row)
                 then mkDocument (d_id r) (d_filename row) (d_file_path row)
                        (d_file_type row) (d_file_size row) (d_user_id r)
                        (d_status r) (d_processing_stage r) (d_document_type r)
                        (d_metadata r) (d_upload_timestamp r) (d_created_at r) now
                 else r)
              (documents d)
     else documents d ++ [row])
    (processing_stages d) (extraction_results d) (quality_scores d)
    (routing_decisions d).

Definition create_document (document_id filename file_path file_type : string)
    (file_size : Z) (user_id document_type : string) (metadata : option json)
    (now : string) : world -> bool * world :=
  try_except
    (id <- value_of (UUID document_id) ;;
     user <- value_of (if str_isdigit user_id
                       then option_map Some (int_of_str user_id)
                       else Some None) ;;
     execute_command
       (upsert_document
          (mkDocument id filename file_path file_type file_size user
             "uploaded" "uploaded" document_type
             (json_dumps (or_empty metadata)) now now now)
          now) ;;;
     ret true)
    false.

(** *** update_document_status *)

Definition set_document_status (id status : string)
    (processing_stage : option string) (now : string) (d : database) : database :=
  mkDatabase
    (map (fun r =>
            if String.eqb (d_id r) id
            then mkDocument (d_id r) (d_filename r) (d_file_path r) (d_file_type r)
                   (d_file_size r) (d_user_id r) status
                   (match processing_stage with
                    | Some stage => stage
                    | None => d_processing_stage r
                    end)
                   (d_document_type r) (d_metadata r) (d_upload_timestamp r)
                   (d_created_at r) now
            else r)
         (documents d))
    (processing_stages d) (extraction_results d) (quality_scores d)
    (routing_decisions d).

Definition update_document_status (document_id status : string)
    (processing_stage : option string) (now : string) : world -> bool * world :=
  try_except
    (id <- value_of (UUID document_id) ;;
     execute_command (set_document_status id status processing_stage now) ;;;
     ret true)
    false.

(** *** create_processing_stage *)

Definition insert_stage (row : stage_row) (d : database) : database :=
  mkDatabase (documents d) (processing_stages d ++ [row]) (extraction_results d)
    (quality_scores d) (routing_decisions d).

(** [stage_id] is the fresh [uuid4]. *)
Definition create_processing_stage (stage_id document_id stage_name status : string)
    (metadata : option json) (now : string) : world -> option string * world :=
  try_except
    (sid <- value_of (UUID stage_id) ;;
     id <- value_of (UUID document_id) ;;
     execute_command
       (insert_stage (mkStage sid id stage_name status (Some now) None None None
                        (Some (json_dumps (or_empty metadata))))) ;;;
     ret (Some stage_id))
    None.

(** *** update_processing_stage *)

(** The row that the [UPDATE] leaves in place of [r]: [completed_at] is
    set only when the new status is [completed], and the metadata is
    always given, so that [COALESCE] never keeps the old one. *)
Definition updated_stage (id stage_name status : string)
    (error_message : option string) (processing_time_ms : option Z)
    (metadata now : string) (r : stage_row) : stage_row :=
  if String.eqb (ps_document_id r) id && String.eqb (ps_stage_name r) stage_name
  then mkStage (ps_id r) (ps_document_id r) (ps_stage_name r) status
         (ps_started_at r)
         (if String.eqb status "completed" then Some now else ps_completed_at r)
         error_message processing_time_ms (Some metadata)
  else r.

Definition set_stage (id stage_name status : string)
    (error_message : option string) (processing_time_ms : option Z)
    (metadata : string) (now : string) (d : database) : database :=
  mkDatabase (documents d)
    (map (updated_stage id stage_name status error_message processing_time_ms
            metadata now)
         (processing_stages d))
    (extraction_results d) (quality_scores d) (routing_decisions d).

Definition update_processing_stage (document_id stage_name status : string)
    (error_message : option string) (processing_time_ms : option Z)
    (metadata : option json) (now : string) : world -> bool * world :=
  try_except
    (id <- value_of (UUID document_id) ;;
     execute_command
       (set_stage id stage_name status error_message processing_time_ms
          (json_dumps (or_empty metadata)) now) ;;;
     ret true)
    false.

(** *** get_document_status *)

Definition stage_view_of (s : stage_dict) : stage_view :=
  mkStageView (sd_stage_name s) (sd_status s) (sd_started_at s)
    (sd_completed_at s) (sd_processing_time_ms s) (sd_error_message s)
    (parse_jsonb_field_status (sd_metadata s)).

Definition select_document (id : string) (d : database) : list document_row :=
  filter (fun r => String.eqb (d_id r) id) (documents d).

Definition select_stages (id : string) (d : database) : list stage_dict :=
  map stage_of_row
      (filter (fun r => String.eqb (ps_document_id r) id) (processing_stages d)).

Definition get_document_status (document_id : string)
  : world -> option status_view * world :=
  try_except
    (id <- value_of (UUID document_id) ;;
     results <- execute_query (select_document id) ;;
     match results with
     | [] => ret None
     | doc :: _ =>
         id' <- value_of (UUID document_id) ;;
         stages <- execute_query (select_stages id') ;;
         let total_stages := Z.of_nat (List.length stages) in
         progress <- value_of (progress_of (completed_stages stages) total_stages) ;;
         let current_stage := current_stage_of stages in
         let stages := match stages with [] => default_stages | _ => stages end in
         ret (Some (mkStatusView (d_id doc) (d_status doc) current_stage progress
                      (map stage_view_of stages) (d_filename doc)
                      (d_document_type doc) (d_upload_timestamp doc)))
     end)
    None.

(** *** Writes between two status queries *)

(** The writes of the pipeline to a document that create no record. *)
Inductive status_write : Type :=
| WriteStage (stage_name status : string) (error_message : option string)
             (processing_time_ms : option Z) (metadata : option json)
             (now : string)                  (* [update_processing_stage] *)
| WriteDocument (status : string) (processing_stage : option string)
                (now : string).              (* [update_document_status] *)

Definition apply_write (document_id : string) (w : world) (x : status_write)
  : world :=
  match x with
  | WriteStage stage_name status error_message processing_time_ms metadata now =>
      snd (update_processing_stage document_id stage_name status error_message
             processing_time_ms metadata now w)
  | WriteDocument status processing_stage now =>
      snd (update_document_status document_id status processing_stage now w)
  end.

(** The write does not take a completed stage record of the document out
    of [completed]. *)
Definition keeps_completed (id stage_name status : string) (d : database) : Prop :=
  forall r,
    In r (processing_stages d) ->
    ps_document_id r = id -> ps_stage_name r = stage_name ->
    ps_status r = "completed" -> status = "completed".

(** Each write of the list keeps the completed records completed, in the
    database that it finds. *)
Fixpoint writes_keep_completed (document_id id : string) (w : world)
    (xs : list status_write) : Prop :=
  match xs with
  | [] => True
  | x :: rest =>
      match x with
      | WriteStage stage_name status _ _ _ _ =>
          keeps_completed id stage_name status (db w)
      | WriteDocument _ _ _ => True
      end
      /\ writes_keep_completed document_id id (apply_write document_id w x) rest
  end.

(** *** save_extraction_result *)

Definition delete_extraction (id stage : string) (d : database) : database :=
  mkDatabase (documents d) (processing_stages d)
    (filter (fun r => negb (String.eqb (er_document_id r) id
                            && String.eqb (er_stage r) stage))
            (extraction_results d))
    (quality_scores d) (routing_decisions d).

Definition insert_extraction (row : extraction_row) (d : database) : database :=
  mkDatabase (documents d) (processing_stages d) (extraction_results d ++ [row])
    (quality_scores d) (routing_decisions d).

Definition save_extraction_result (document_id stage : string)
    (raw_data processed_data : pyobj) (confidence_score : float)
    (processing_time_ms : Z) (model_used : string) (metadata : option pyobj)
  : world -> bool * world :=
  try_except
    (let serialized_raw := ensure_serializable raw_data in
     let serialized_processed := ensure_serializable processed_data in
     let serialized_metadata := ensure_serializable (or_empty_dict metadata) in
     id <- value_of (UUID document_id) ;;
     (* First, delete existing result for this stage if it exists *)
     execute_command (delete_extraction id stage) ;;;
     (* Then insert new result *)
     id' <- value_of (UUID document_id) ;;
     execute_command
       (insert_extraction
          (mkExtraction id' stage (json_dumps serialized_raw)
             (json_dumps serialized_processed) confidence_score
             processing_time_ms model_used (json_dumps serialized_metadata))) ;;;
     ret true)
    false.

(** *** save_quality_score *)

Definition delete_quality (id : string) (d : database) : database :=
  mkDatabase (documents d) (processing_stages d) (extraction_results d)
    (filter (fun r => negb (String.eqb (qs_document_id r) id)) (quality_scores d))
    (routing_decisions d).

Definition insert_quality (row : quality_row) (d : database) : database :=
  mkDatabase (documents d) (processing_stages d) (extraction_results d)
    (quality_scores d ++ [row]) (routing_decisions d).

Definition save_quality_score (document_id : string)
    (overall_score completeness_score accuracy_score compliance_score
       quality_score : float)
    (decision : string) (reasoning : json) (issues_found : list string)
    (confidence : float) (judge_model : string) : world -> bool * world :=
  try_except
    (id <- value_of (UUID document_id) ;;
     execute_command (delete_quality id) ;;;
     id' <- value_of (UUID document_id) ;;
     execute_command
       (insert_quality
          (mkQuality id' overall_score completeness_score accuracy_score
             compliance_score quality_score decision (json_dumps reasoning)
             (json_dumps (JList (map JStr issues_found))) confidence judge_model)) ;;;
     ret true)
    false.

(** *** save_routing_decision *)

Definition delete_routing (id : string) (d : database) : database :=
  mkDatabase (documents d) (processing_stages d) (extraction_results d)
    (quality_scores d)
    (filter (fun r => negb (String.eqb (rd_document_id r) id)) (routing_decisions d)).

Definition insert_routing (row : routing_row) (d : database) : database :=
  mkDatabase (documents d) (processing_stages d) (extraction_results d)
    (quality_scores d) (routing_decisions d ++ [row]).

Definition save_routing_decision (document_id routing_action routing_reason
    wms_integration_status : string) (wms_integration_data : json)
    (human_review_required : bool) : world -> bool * world :=
  try_except
    (id <- value_of (UUID document_id) ;;
     execute_command (delete_routing id) ;;;
     id' <- value_of (UUID document_id) ;;
     execute_command
       (insert_routing
          (mkRouting id' routing_action routing_reason wms_integration_status
             (json_dumps wms_integration_data) human_review_required)) ;;;
     ret true)
    false.

(** *** get_extraction_results *)

Definition extraction_view_of (r : extraction_row) : extraction_view :=
  mkExtractionView (parse_jsonb_field (Some (er_raw_data r)))
    (parse_jsonb_field (Some (er_processed_data r))) (er_confidence_score r)
    (er_processing_time_ms r) (er_model_used r)
    (parse_jsonb_field (Some (er_metadata r))).

(** [for r in results: extraction_results[r["stage"]] = {...}] *)
Definition collect_extractions (results : list extraction_row)
  : list (string * extraction_view) :=
  fold_left (fun acc r => dict_set acc (er_stage r) (extraction_view_of r))
            results [].

Definition quality_view_of (q : quality_row) : quality_view :=
  mkQualityView (qs_overall_score q) (qs_completeness_score q)
    (qs_accuracy_score q) (qs_compliance_score q) (qs_quality_score q)
    (qs_decision q) (parse_jsonb_field (Some (qs_reasoning q)))
    (parse_jsonb_field (Some (qs_issues_found q))) (qs_confidence q)
    (qs_judge_model q).

Definition routing_view_of (r : routing_row) : routing_view :=
  mkRoutingView (rd_routing_action r) (rd_routing_reason r)
    (rd_wms_integration_status r)
    (parse_jsonb_field (Some (rd_wms_integration_data r)))
    (rd_human_review_required r).

Definition select_extractions (id : string) (d : database) : list extraction_row :=
  filter (fun r => String.eqb (er_document_id r) id) (extraction_results d).

Definition select_quality (id : string) (d : database) : list quality_row :=
  filter (fun r => String.eqb (qs_document_id r) id) (quality_scores d).

Definition select_routing (id : string) (d : database) : list routing_row :=
  filter (fun r => String.eqb (rd_document_id r) id) (routing_decisions d).

(** [None] stands for the empty dictionary returned after an exception. *)
Definition get_extraction_results (document_id : string)
  : world -> option results_view * world :=
  try_except
    (id <- value_of (UUID document_id) ;;
     results <- execute_query (select_extractions id) ;;
     let extraction_results := collect_extractions results in
     id2 <- value_of (UUID document_id) ;;
     quality_results <- execute_query (select_quality id2) ;;
     let quality_score := option_map quality_view_of (hd_error quality_results) in
     id3 <- value_of (UUID document_id) ;;
     routing_results <- execute_query (select_routing id3) ;;
     let routing_decision := option_map routing_view_of (hd_error routing_results) in
     ret (Some (mkResultsView extraction_results quality_score routing_decision)))
    None.

(** ** Properties of the status and result queries *)

Ltac db_unfold :=
  unfold try_except, bind, value_of, ret, raise, execute_command, execute_query.

Lemma filter_none :
  forall (A : Type) (f : A -> bool) (l : list A),
    (forall x, In x l -> f x = false) -> filter f l = [].
Proof.
  intros A f l H. induction l as [|x l IH]; [reflexivity|].
  cbn. rewrite (H x (or_introl eq_refl)). apply IH.
  intros y Hy. apply H. now right.
Qed.

(** C10.  For every document that exists in [documents] and has no row
    yet in [processing_stages] (the queries being answered),
    [get_document_status] returns progress 0, current stage
    ["Preprocessing"], and exactly the five pipeline stages, each
    [pending] and otherwise empty. *)
Theorem get_document_status_defaults_without_stage_rows :
  forall (document_id id : string) (doc : document_row) (w : world),
    UUID document_id = Some id ->
    In doc (documents (db w)) -> d_id doc = id ->
    (forall r, In r (processing_stages (db w)) -> ps_document_id r <> id) ->
    faults w = [] ->
    exists view,
      get_document_status document_id w = (Some view, w)
      /\ progress view = 0
      /\ current_stage view = "Preprocessing"
      /\ stages view
         = map (fun stage_name =>
                  mkStageView stage_name "pending" None None None None (JDict []))
               ["preprocessing"; "ocr_extraction"; "llm_processing";
                "validation"; "routing"].
Proof.
  intros document_id id doc w Huuid Hin Hid Hnone Hfaults.
  assert (Hstages : select_stages id (db w) = []).
  { unfold select_stages. rewrite filter_none; [reflexivity|].
    intros r Hr. apply String.eqb_neq. now apply Hnone. }
  assert (Hdoc : exists doc0 rest, select_document id (db w) = doc0 :: rest).
  { unfold select_document.
    destruct (filter (fun r => String.eqb (d_id r) id) (documents (db w)))
      as [|doc0 rest] eqn:Hsel; [|eauto].
    exfalso. assert (Hf : In doc (filter (fun r => String.eqb (d_id r) id)
                                        (documents (db w)))).
    { apply filter_In. split; [assumption|]. now apply String.eqb_eq. }
    rewrite Hsel in Hf. exact Hf. }
  destruct Hdoc as (doc0 & rest & Hsel).
  unfold get_document_status. db_unfold.
  repeat (first [rewrite Huuid | rewrite Hfaults | rewrite Hsel | rewrite Hstages];
          cbv beta iota zeta).
  eexists. split; [reflexivity|]. cbn. repeat split.
Qed.

(** *** Saved results *)



Lemma filter_filter_negb :
  forall (A : Type) (f : A -> bool) (l : list A),
    filter f (filter (fun x => negb (f x)) l) = [].
Proof.
  intros A f l. apply filter_none. intros x Hx.
  apply filter_In in Hx. destruct Hx as [_ Hx]. now apply negb_true_iff.
Qed.

(** The rows of a document's results, by key. *)
Definition extraction_rows (id stage : string) (d : database) : list extraction_row :=
  filter (fun r => String.eqb (er_document_id r) id && String.eqb (er_stage r) stage)
         (extraction_results d).














(** *** Progress *)

Lemma progress_steps_checked : progress_steps_ok checked_stage_records = true.
Proof. vm_compute. reflexivity. Qed.

Lemma progress_step :
  forall t c,
    (t <= checked_stage_records)%nat -> (c < t)%nat ->
    exists p p',
      progress_of (Z.of_nat c) (Z.of_nat t) = Some p
      /\ progress_of (Z.of_nat (S c)) (Z.of_nat t) = Some p'
      /\ p <= p'.
Proof.
  intros t c Ht Hc.
  pose proof progress_steps_checked as Hall. unfold progress_steps_ok in Hall.
  rewrite forallb_forall in Hall.
  assert (Hin : In t (seq 0 (S checked_stage_records))) by (apply in_seq; lia).
  specialize (Hall t Hin). rewrite forallb_forall in Hall.
  assert (Hinc : In c (seq 0 t)) by (apply in_seq; lia).
  specialize (Hall c Hinc). unfold progress_step_ok in Hall.
  destruct (progress_of (Z.of_nat c) (Z.of_nat t)) as [p|]; [|discriminate].
  destruct (progress_of (Z.of_nat (S c)) (Z.of_nat t)) as [p'|]; [|discriminate].
  exists p, p'. repeat split.
  apply andb_prop in Hall. destruct Hall as [Hall _].
  apply andb_prop in Hall. destruct Hall as [Hle _].
  now apply Z.leb_le.
Qed.

Lemma progress_of_monotone :
  forall t c c' p p',
    (t <= checked_stage_records)%nat -> (c <= c' <= t)%nat ->
    progress_of (Z.of_nat c) (Z.of_nat t) = Some p ->
    progress_of (Z.of_nat c') (Z.of_nat t) = Some p' ->
    p <= p'.
Proof.
  intros t c c' p p' Ht [Hcc Hct]. revert p'.
  induction Hcc as [|c' Hcc IH]; intros p' Hp Hp'.
  - rewrite Hp in Hp'. injection Hp' as <-. lia.
  - destruct (progress_step t c' Ht) as (q & q' & Hq & Hq' & Hle); [lia|].
    rewrite Hp' in Hq'. injection Hq' as <-.
    specialize (IH ltac:(lia) q Hp Hq). lia.
Qed.

Lemma updated_stage_document :
  forall id stage_name status error_message processing_time_ms metadata now r,
    ps_document_id
      (updated_stage id stage_name status error_message processing_time_ms
         metadata now r)
    = ps_document_id r.
Proof.
  intros id stage_name status error_message processing_time_ms metadata now r. unfold updated_stage.
  destruct (String.eqb (ps_document_id r) id && String.eqb (ps_stage_name r) stage_name);
    reflexivity.
Qed.

Lemma filter_map_commute :
  forall (A : Type) (f : A -> bool) (g : A -> A) (l : list A),
    (forall x, f (g x) = f x) -> filter f (map g l) = map g (filter f l).
Proof.
  intros A f g l H. induction l as [|x l IH]; [reflexivity|].
  cbn. rewrite H. destruct (f x); cbn; now rewrite IH.
Qed.

Lemma filter_map_length_le :
  forall (A : Type) (f : A -> bool) (g : A -> A) (l : list A),
    (forall x, In x l -> f x = true -> f (g x) = true) ->
    (List.length (filter f l) <= List.length (filter f (map g l)))%nat.
Proof.
  intros A f g l H. induction l as [|x l IH]; [cbn; lia|].
  assert (IH' := IH (fun y Hy => H y (or_intror Hy))). clear IH.
  cbn. destruct (f x) eqn:Hx.
  - rewrite (H x (or_introl eq_refl) Hx). cbn. lia.
  - destruct (f (g x)); cbn; lia.
Qed.

Lemma select_stages_set_stage :
  forall id stage_name status error_message processing_time_ms metadata now d,
    select_stages id
      (set_stage id stage_name status error_message processing_time_ms
         metadata now d)
    = map stage_of_row
        (map (updated_stage id stage_name status error_message
                processing_time_ms metadata now)
             (filter (fun r => String.eqb (ps_document_id r) id)
                     (processing_stages d))).
Proof.
  intros id stage_name status error_message processing_time_ms metadata now d.
  unfold select_stages, set_stage. cbn [processing_stages]. f_equal.
  apply (filter_map_commute _ (fun r => String.eqb (ps_document_id r) id)
           (updated_stage id stage_name status error_message
              processing_time_ms metadata now)).
  intros r. now rewrite updated_stage_document.
Qed.

Lemma select_stages_set_stage_length :
  forall id stage_name status error_message processing_time_ms metadata now d,
    List.length (select_stages id
                   (set_stage id stage_name status error_message
                      processing_time_ms metadata now d))
    = List.length (select_stages id d).
Proof.
  intros id stage_name status error_message processing_time_ms metadata now d.
  rewrite select_stages_set_stage. unfold select_stages.
  now rewrite !length_map.
Qed.

Lemma completed_stages_rows :
  forall rows,
    completed_stages (map stage_of_row rows)
    = Z.of_nat (List.length
                  (filter (fun r => String.eqb (ps_status r) "completed") rows)).
Proof.
  intros rows. unfold completed_stages. f_equal.
  induction rows as [|r rows IH]; [reflexivity|].
  cbn [map filter stage_of_row sd_status].
  destruct (String.eqb (ps_status r) "completed"); cbn [List.length]; now rewrite IH.
Qed.

Lemma select_stages_set_stage_completed :
  forall id stage_name status error_message processing_time_ms metadata now d,
    keeps_completed id stage_name status d ->
    completed_stages (select_stages id d)
    <= completed_stages
         (select_stages id
            (set_stage id stage_name status error_message processing_time_ms
               metadata now d)).
Proof.
  intros id stage_name status error_message processing_time_ms metadata now d Hkeep.
  rewrite select_stages_set_stage. unfold select_stages.
  rewrite !completed_stages_rows. apply inj_le.
  apply filter_map_length_le.
  intros r Hr Hcompleted. apply filter_In in Hr. destruct Hr as [Hr Hid].
  apply String.eqb_eq in Hid. apply String.eqb_eq in Hcompleted.
  unfold updated_stage.
  destruct (String.eqb_spec (ps_document_id r) id) as [_|Hne]; [|contradiction].
  destruct (String.eqb_spec (ps_stage_name r) stage_name) as [Hname|_]; cbn [andb].
  - cbn [ps_status]. apply String.eqb_eq.
    exact (Hkeep r Hr Hid Hname Hcompleted).
  - now apply String.eqb_eq.
Qed.

Lemma completed_stages_bounds :
  forall stages, 0 <= completed_stages stages <= Z.of_nat (List.length stages).
Proof.
  intros stages. unfold completed_stages.
  pose proof (filter_length_le (fun s => String.eqb (sd_status s) "completed") stages).
  lia.
Qed.

Lemma get_document_status_some :
  forall document_id w view w',
    get_document_status document_id w = (Some view, w') ->
    db w' = db w
    /\ exists id,
         UUID document_id = Some id
         /\ progress_of (completed_stages (select_stages id (db w)))
                        (Z.of_nat (List.length (select_stages id (db w))))
            = Some (progress view).
Proof.
  intros document_id w view w'.
  unfold get_document_status. db_unfold.
  destruct (UUID document_id) as [id|]; [|discriminate].
  destruct w as [d [|[|] [|[|] rest]]]; cbn [faults db];
    try discriminate;
    (destruct (select_document id d) as [|doc docs]; [discriminate|]);
    cbn [faults db]; try discriminate;
    (destruct (progress_of _ _) as [p|] eqn:Hp; [|discriminate]);
    intros H; inversion H; subst; cbn; (split; [reflexivity|]);
    exists id; split; reflexivity || exact Hp.
Qed.

Lemma update_processing_stage_db :
  forall document_id stage_name status error_message processing_time_ms
         metadata now w ok w1,
    update_processing_stage document_id stage_name status error_message
      processing_time_ms metadata now w = (ok, w1) ->
    db w1 = db w
    \/ exists id,
         UUID document_id = Some id
         /\ db w1 = set_stage id stage_name status error_message
                      processing_time_ms (json_dumps (or_empty metadata)) now (db w).
Proof.
  intros document_id stage_name status error_message processing_time_ms
         metadata now w ok w1.
  unfold update_processing_stage. db_unfold.
  destruct (UUID document_id) as [id|]; [|intros [= _ <-]; now left].
  destruct w as [d [|[|] rest]]; cbn; intros [= _ <-]; cbn; eauto.
Qed.

Lemma update_document_status_db :
  forall document_id status processing_stage now w ok w1,
    update_document_status document_id status processing_stage now w = (ok, w1) ->
    db w1 = db w
    \/ exists id,
         UUID document_id = Some id
         /\ db w1 = set_document_status id status processing_stage now (db w).
Proof.
  intros document_id status processing_stage now w ok w1.
  unfold update_document_status. db_unfold.
  destruct (UUID document_id) as [id|]; [|intros [= _ <-]; now left].
  destruct w as [d [|[|] rest]]; cbn; intros [= _ <-]; cbn; eauto.
Qed.

(** The number of completed stage records of a document and the number
    of its stage records. *)
Definition completed_and_total (id : string) (d : database) : Z * Z :=
  (completed_stages (select_stages id d),
   Z.of_nat (List.length (select_stages id d))).

Lemma apply_write_completed_and_total :
  forall document_id id w x,
    UUID document_id = Some id ->
    match x with
    | WriteStage stage_name status _ _ _ _ =>
        keeps_completed id stage_name status (db w)
    | WriteDocument _ _ _ => True
    end ->
    fst (completed_and_total id (db w))
    <= fst (completed_and_total id (db (apply_write document_id w x)))
    /\ snd (completed_and_total id (db (apply_write document_id w x)))
       = snd (completed_and_total id (db w)).
Proof.
  intros document_id id w x Huuid Hkeep. unfold completed_and_total. cbn [fst snd].
  destruct x as [stage_name status error_message processing_time_ms metadata now
                | status processing_stage now]; cbn [apply_write].
  - destruct (update_processing_stage document_id stage_name status error_message
                processing_time_ms metadata now w) as [ok w1] eqn:Hupdate.
    cbn [snd].
    destruct (update_processing_stage_db _ _ _ _ _ _ _ _ _ _ Hupdate)
      as [->|(id' & Hid' & ->)]; [lia|].
    rewrite Huuid in Hid'. injection Hid' as <-.
    rewrite select_stages_set_stage_length. split; [|reflexivity].
    now apply select_stages_set_stage_completed.
  - destruct (update_document_status document_id status processing_stage now w)
      as [ok w1] eqn:Hupdate.
    cbn [snd].
    destruct (update_document_status_db _ _ _ _ _ _ _ Hupdate)
      as [->|(id' & _ & ->)]; [lia|].
    unfold select_stages, set_document_status. cbn [processing_stages]. lia.
Qed.

Lemma apply_writes_completed_and_total :
  forall document_id id xs w,
    UUID document_id = Some id ->
    writes_keep_completed document_id id w xs ->
    fst (completed_and_total id (db w))
    <= fst (completed_and_total id (db (fold_left (apply_write document_id) xs w)))
    /\ snd (completed_and_total id (db (fold_left (apply_write document_id) xs w)))
       = snd (completed_and_total id (db w)).
Proof.
  intros document_id id xs. induction xs as [|x xs IH]; intros w Huuid Hkeep.
  - cbn. lia.
  - destruct Hkeep as [Hx Hrest]. cbn [fold_left].
    destruct (apply_write_completed_and_total document_id id w x Huuid Hx)
      as [Hle Htotal].
    destruct (IH (apply_write document_id w x) Huuid Hrest) as [Hle' Htotal'].
    split; [lia | congruence].
Qed.

(** C2, amended.  Between two status queries of a document that are
    separated by [update_processing_stage] and [update_document_status]
    writes only (no stage record is created in between), the progress does
    not decrease, provided no write takes a completed stage record of the
    document out of [completed] and the document has at most
    [checked_stage_records] stage records. *)
Theorem progress_nondecreasing_across_stage_updates :
  forall document_id id xs w before wa after wb,
    UUID document_id = Some id ->
    (List.length (select_stages id (db w)) <= checked_stage_records)%nat ->
    get_document_status document_id w = (Some before, wa) ->
    writes_keep_completed document_id id wa xs ->
    get_document_status document_id (fold_left (apply_write document_id) xs wa)
    = (Some after, wb) ->
    progress before <= progress after.
Proof.
  intros document_id id xs w before wa after wb Huuid Hbound Hbefore Hkeep Hafter.
  destruct (get_document_status_some _ _ _ _ Hbefore) as (Hdb & id0 & Hid0 & Hp0).
  rewrite Huuid in Hid0. injection Hid0 as <-.
  destruct (get_document_status_some _ _ _ _ Hafter) as (_ & id1 & Hid1 & Hp1).
  rewrite Huuid in Hid1. injection Hid1 as <-.
  destruct (apply_writes_completed_and_total document_id id xs wa Huuid Hkeep)
    as [Hle Htotal].
  unfold completed_and_total in Hle, Htotal. cbn [fst snd] in Hle, Htotal.
  rewrite Hdb in Hle, Htotal. rewrite Htotal in Hp1.
  pose proof (completed_stages_bounds
                (select_stages id
                   (db (fold_left (apply_write document_id) xs wa)))) as Hb.
  rewrite Htotal in Hb.
  unfold completed_stages in Hp0, Hp1, Hle, Hb.
  eapply progress_of_monotone; [exact Hbound | | exact Hp0 | exact Hp1].
  lia.
Qed.

End Service.

(** ** Examples *)

(** The examples name documents by UUIDs in the form that [str] prints,
    give user ids in ASCII, and store JSON of constants, integers, strings
    of printable ASCII, lists and dictionaries, in the text that
    [json.dumps] writes for them. *)
Definition example_UUID (s : string) : option string :=
  if (String.length s =? 36)%nat then Some s else None.

Definition example_isdigit (s : string) : bool := isdigit s.

(** [int] refuses more than 4300 digits. *)
Definition example_int (s : string) : option Z :=
  if (4300 <? String.length s)%nat then None else Some (int_of_digits 0 s).

Definition quote : ascii := ascii_of_nat 34.
Definition backslash : ascii := ascii_of_nat 92.

Fixpoint escape (s : string) : string :=
  match s with
  | EmptyString => EmptyString
  | String c s' =>
      if Ascii.eqb c quote || Ascii.eqb c backslash
      then String backslash (String c (escape s'))
      else String c (escape s')
  end.

Definition quoted (s : string) : string :=
  String quote (String.append (escape s) (String quote EmptyString)).

Fixpoint example_dumps (j : json) : string :=
  match j with
  | JNull => "null"
  | JBool true => "true"
  | JBool false => "false"
  | JInt z => NilZero.string_of_int (Z.to_int z)
  | JFloat _ => "null"
  | JStr s => quoted s
  | JList l =>
      String.append "[" (String.append (String.concat ", " (map example_dumps l)) "]")
  | JDict d =>
      String.append "{"
        (String.append
           (String.concat ", "
              (map (fun kv =>
                      String.append (quoted (fst kv))
                        (String.append ": " (example_dumps (snd kv))))
                 d))
           "}")
  end.

(** The text up to the closing quote, and what follows it. *)
Fixpoint read_string (s : string) : option (string * string) :=
  match s with
  | EmptyString => None
  | String c rest =>
      if Ascii.eqb c quote then Some (EmptyString, rest)
      else if Ascii.eqb c backslash
      then match rest with
           | String c' rest' =>
               match read_string rest' with
               | Some (t, r) => Some (String c' t, r)
               | None => None
               end
           | EmptyString => None
           end
      else match read_string rest with
           | Some (t, r) => Some (String c t, r)
           | None => None
           end
  end.

Fixpoint read_digits (s : string) : string * string :=
  match s with
  | String c rest =>
      if is_ascii_digit c
      then let (ds, r) := read_digits rest in (String c ds, r)
      else (EmptyString, s)
  | EmptyString => (EmptyString, EmptyString)
  end.

Definition read_int (s : string) : option (json * string) :=
  match s with
  | String "-"%char rest =>
      let (ds, r) := read_digits rest in
      if isdigit ds then Some (JInt (- int_of_digits 0 ds), r) else None
  | _ =>
      let (ds, r) := read_digits s in
      if isdigit ds then Some (JInt (int_of_digits 0 ds), r) else None
  end.

Definition read_constant (s : string) : option (json * string) :=
  if String.prefix "null" s then Some (JNull, String.substring 4 (String.length s - 4) s)
  else if String.prefix "true" s
  then Some (JBool true, String.substring 4 (String.length s - 4) s)
  else if String.prefix "false" s
  then Some (JBool false, String.substring 5 (String.length s - 5) s)
  else read_int s.

Fixpoint read_value (fuel : nat) (s : string) : option (json * string) :=
  match fuel with
  | O => None
  | S fuel' =>
      match s with
      | String c rest =>
          if Ascii.eqb c quote
          then match read_string rest with
               | Some (t, r) => Some (JStr t, r)
               | None => None
               end
          else if Ascii.eqb c "["%char
          then match rest with
               | String "]"%char r => Some (JList [], r)
               | _ => match read_items fuel' rest with
                      | Some (l, r) => Some (JList l, r)
                      | None => None
                      end
               end
          else if Ascii.eqb c "{"%char
          then match rest with
               | String "}"%char r => Some (JDict [], r)
               | _ => match read_members fuel' rest with
                      | Some (d, r) => Some (JDict d, r)
                      | None => None
                      end
               end
          else read_constant s
      | EmptyString => None
      end
  end
with read_items (fuel : nat) (s : string) : option (list json * string) :=
  match fuel with
  | O => None
  | S fuel' =>
      match read_value fuel' s with
      | Some (v, String ","%char (String " "%char rest)) =>
          match read_items fuel' rest with
          | Some (l, r) => Some (v :: l, r)
          | None => None
          end
      | Some (v, String "]"%char rest) => Some ([v], rest)
      | _ => None
      end
  end
with read_members (fuel : nat) (s : string)
  : option (list (string * json) * string) :=
  match fuel with
  | O => None
  | S fuel' =>
      match s with
      | String c rest =>
          if Ascii.eqb c quote
          then match read_string rest with
               | Some (k, String ":"%char (String " "%char rest1)) =>
                   match read_value fuel' rest1 with
                   | Some (v, String ","%char (String " "%char rest2)) =>
                       match read_members fuel' rest2 with
                       | Some (d, r) => Some ((k, v) :: d, r)
                       | None => None
                       end
                   | Some (v, String "}"%char rest2) => Some ([(k, v)], rest2)
                   | _ => None
                   end
               | _ => None
               end
          else None
      | EmptyString => None
      end
  end.

Definition example_loads (s : string) : option json :=
  match read_value (S (String.length s)) s with
  | Some (j, EmptyString) => Some j
  | _ => None
  end.

Definition invoice : string := "6f1c1f0e-5a3b-4c2d-9e8f-000000000001".

Definition empty_world : world := mkWorld (mkDatabase [] [] [] [] []) [].

(** The document has been uploaded. *)
Definition uploaded : world :=
  snd (create_document example_UUID example_isdigit example_int example_dumps
         invoice "invoice.pdf" "data/uploads/invoice.pdf" "application/pdf" 1024
         "42" "invoice" None "2025-01-01T00:00:00" empty_world).

(** Preprocessing has begun, and its record has been created. *)
Definition preprocessing_begun : world :=
  snd (create_processing_stage example_UUID example_dumps
         "6f1c1f0e-5a3b-4c2d-9e8f-0000000000a1" invoice "preprocessing"
         "processing" None "2025-01-01T00:00:01" uploaded).

(** Preprocessing has completed. *)
Definition preprocessing_completed : world :=
  snd (update_document_status example_UUID invoice "preprocessing"
         (Some "preprocessing") "2025-01-01T00:00:02"
         (snd (update_processing_stage example_UUID example_dumps invoice
                 "preprocessing" "completed" None None None
                 "2025-01-01T00:00:02" preprocessing_begun))).

(** OCR has begun, and its record has been created. *)
Definition ocr_begun : world :=
  snd (create_processing_stage example_UUID example_dumps
         "6f1c1f0e-5a3b-4c2d-9e8f-0000000000a2" invoice "ocr_extraction"
         "processing" None "2025-01-01T00:00:03" preprocessing_completed).

Definition status_in (w : world) : option status_view :=
  fst (get_document_status example_UUID example_loads invoice w).

(** C2, as stated, fails: when the record of the OCR stage is created
    after preprocessing has completed, the progress of a document that is
    in no terminal state falls from 100 to 50. *)
Lemma progress_falls_when_stage_record_is_created :
  option_map progress (status_in preprocessing_completed) = Some 100
  /\ option_map progress (status_in ocr_begun) = Some 50
  /\ option_map document_status (status_in ocr_begun) = Some "preprocessing"
  /\ ~ (forall before after,
           status_in preprocessing_completed = Some before ->
           status_in ocr_begun = Some after ->
           progress before <= progress after).
Proof.
  assert (H1 : option_map progress (status_in preprocessing_completed) = Some 100)
    by (vm_compute; reflexivity).
  assert (H2 : option_map progress (status_in ocr_begun) = Some 50)
    by (vm_compute; reflexivity).
  split; [exact H1|]. split; [exact H2|]. split; [vm_compute; reflexivity|].
  intros H.
  destruct (status_in preprocessing_completed) as [before|]; [|discriminate].
  destruct (status_in ocr_begun) as [after|]; [|discriminate].
  specialize (H before after eq_refl eq_refl).
  cbn in H1, H2. injection H1 as H1. injection H2 as H2. lia.
Qed.

(** What the completion of preprocessing writes. *)
Definition preprocessing_completion : list status_write :=
  [ WriteStage "preprocessing" "completed" None None None "2025-01-01T00:00:02";
    WriteDocument "preprocessing" (Some "preprocessing") "2025-01-01T00:00:02" ].

Lemma progress_nondecreasing_across_stage_updates_witness :
  exists before after,
    example_UUID invoice = Some invoice
    /\ (List.length (select_stages invoice (db preprocessing_begun))
        <= checked_stage_records)%nat
    /\ get_document_status example_UUID example_loads invoice preprocessing_begun
       = (Some before, preprocessing_begun)
    /\ writes_keep_completed example_UUID example_dumps invoice invoice
         preprocessing_begun preprocessing_completion
    /\ fold_left (apply_write example_UUID example_dumps invoice)
         preprocessing_completion preprocessing_begun
       = preprocessing_completed
    /\ get_document_status example_UUID example_loads invoice
         preprocessing_completed
       = (Some after, preprocessing_completed)
    /\ progress before = 0 /\ progress after = 100
    /\ progress before <= progress after.
Proof.
  assert (Hkeep : writes_keep_completed example_UUID example_dumps invoice invoice
                    preprocessing_begun preprocessing_completion).
  { split; [intros r _ _ _ _; reflexivity|]. split; exact I. }
  assert (Hbound : (List.length (select_stages invoice (db preprocessing_begun))
                    <= checked_stage_records)%nat)
    by (vm_compute; lia).
  do 2 eexists.
  split; [reflexivity|]. split; [exact Hbound|].
  split; [vm_compute; reflexivity|]. split; [exact Hkeep|].
  split; [reflexivity|].
  split; [vm_compute; reflexivity|].
  split; [reflexivity|]. split; [reflexivity|].
  eapply (progress_nondecreasing_across_stage_updates example_UUID example_dumps
            example_loads invoice invoice preprocessing_completion
            preprocessing_begun _ preprocessing_begun _ preprocessing_completed
            eq_refl Hbound);
    [vm_compute; reflexivity | exact Hkeep | vm_compute; reflexivity].
Defined.

(** The progress is computed on floats: 29 completed stages out of 100
    give 28, since [29 / 100 * 100] is [28.999999999999996]. *)
Example progress_of_values :
  progress_of 0 5 = Some 0 /\ progress_of 1 5 = Some 20
  /\ progress_of 1 3 = Some 33 /\ progress_of 2 3 = Some 66
  /\ progress_of 5 5 = Some 100 /\ progress_of 29 100 = Some 28.
Proof. vm_compute. repeat split. Qed.

Example current_stage_of_ocr :
  current_stage_of
    [ mkStageDict "preprocessing" "completed" None None None None Null;
      mkStageDict "ocr_extraction" "processing" None None None None Null ]
  = "Ocr Extraction".
Proof. vm_compute. reflexivity. Qed.

(** The row that [create_document] wrote. *)
Definition uploaded_row : document_row :=
  mkDocument invoice "invoice.pdf" "data/uploads/invoice.pdf" "application/pdf"
    1024 (Some 42) "uploaded" "uploaded" "invoice" "{}" "2025-01-01T00:00:00"
    "2025-01-01T00:00:00" "2025-01-01T00:00:00".

Lemma get_document_status_defaults_without_stage_rows_witness :
  example_UUID invoice = Some invoice
  /\ In uploaded_row (documents (db uploaded))
  /\ d_id uploaded_row = invoice
  /\ (forall r, In r (processing_stages (db uploaded)) -> ps_document_id r <> invoice)
  /\ faults uploaded = []
  /\ exists view,
       get_document_status example_UUID example_loads invoice uploaded
       = (Some view, uploaded)
       /\ progress view = 0
       /\ current_stage view = "Preprocessing"
       /\ map name (stages view)
          = ["preprocessing"; "ocr_extraction"; "llm_processing"; "validation";
             "routing"]
       /\ map status (stages view)
          = ["pending"; "pending"; "pending"; "pending"; "pending"].
Proof.
  assert (Hin : In uploaded_row (documents (db uploaded)))
    by (vm_compute; left; reflexivity).
  assert (Hnone : forall r, In r (processing_stages (db uploaded)) ->
                            ps_document_id r <> invoice)
    by (intros r []).
  split; [reflexivity|]. split; [exact Hin|]. split; [reflexivity|].
  split; [exact Hnone|]. split; [reflexivity|].
  destruct (get_document_status_defaults_without_stage_rows example_UUID
              example_loads invoice invoice uploaded_row uploaded eq_refl Hin
              eq_refl Hnone eq_refl) as (view & Hget & Hprogress & Hstage & Hstages).
  exists view. rewrite Hstages. repeat split; assumption.
Defined.

(** The validation stage saved its default result, twice. *)
Definition saved_once : world :=
  snd (save_quality_score example_UUID example_dumps invoice
         1%float 1%float 1%float 1%float 1%float "APPROVED" (JDict []) []
         1%float "judge" uploaded).

Definition saved_twice : world :=
  snd (save_quality_score example_UUID example_dumps invoice
         0%float 0%float 0%float 0%float 0%float "REVIEW_REQUIRED" (JDict []) []
         0%float "judge" saved_once).










Example saved_twice_reads_latest :
  option_map (fun view => option_map decision (rv_quality_score view))
    (fst (get_extraction_results example_UUID example_loads invoice saved_twice))
  = Some (Some "REVIEW_REQUIRED").
Proof. vm_compute. reflexivity. Qed.

End DocumentDB.

(* ================================================================== *)
(** * routers/document.py: the pipeline driver *)
(* ================================================================== *)

Module Router.

Import RetryHandler.
Import DocumentDB.

(** The result of a stage: a dictionary. *)
Definition dict : Type := list (string * json).

(** [d.get(k, default)] *)
Definition get (d : dict) (k : string) (default : json) : json :=
  match dict_get d k with
  | Some v => v
  | None => default
  end.

(** Truthiness of a value. *)
Definition truthy (j : json) : bool :=
  match j with
  | JNull => false
  | JBool b => b
  | JInt z => negb (z =? 0)
  | JFloat f => float_truthy f
  | JStr s => negb (String.eqb s EmptyString)
  | JList l => match l with [] => false | _ => true end
  | JDict d => match d with [] => false | _ => true end
  end.

(** What a run asks of the status store, in order.  The calls on
    [tools.db_service] are those of [DocumentDB]; the others are methods
    and fields of [DocumentActionTools]. *)
Inductive call : Type :=
| MemorySetPreprocessing
    (* [document_statuses[document_id]]: status [PREPROCESSING], current
       stage ["Preprocessing"], progress 10 *)
| UpdateProcessingStage (stage_name status : string) (error_message : option string)
    (* [tools.db_service.update_processing_stage] *)
| UpdateDocumentStatus (status : string) (processing_stage : option string)
    (* [tools.db_service.update_document_status] *)
| MemoryStageCompleted (stage_name current_stage : string) (progress : Z)
    (* the in-memory part of [_update_stage_completion] *)
| ToolsUpdateDocumentStatus (status error_message : string)
    (* [tools._update_document_status] *)
| ToolsStoreProcessingResults
    (preprocessing_result ocr_result llm_result validation_result
       routing_result : dict).
    (* [tools._store_processing_results] *)

Definition file_not_found (file_path : string) : exn :=
  mkExn "FileNotFoundError"
        ["FileNotFoundError"; "OSError"; "Exception"; "BaseException"]
        (String.append "File not found: " file_path).

(** [type(v).__name__] *)
Definition type_name (j : json) : string :=
  match j with
  | JNull => "NoneType"
  | JBool _ => "bool"
  | JInt _ => "int"
  | JFloat _ => "float"
  | JStr _ => "str"
  | JList _ => "list"
  | JDict _ => "dict"
  end.

(** Raised by [.get] on a value that is not a dictionary. *)
Definition attribute_error (j : json) : exn :=
  mkExn "AttributeError" ["AttributeError"; "Exception"; "BaseException"]
        (String.append "'" (String.append (type_name j)
                                          "' object has no attribute 'get'")).

(** Raised by [len] on a value that has no length. *)
Definition len_type_error (j : json) : exn :=
  mkExn "TypeError" ["TypeError"; "Exception"; "BaseException"]
        (String.append "object of type '" (String.append (type_name j)
                                                         "' has no len()")).

Definition has_len (j : json) : bool :=
  match j with
  | JStr _ | JList _ | JDict _ => true
  | _ => false
  end.

(** The retry configuration of [_execute_processing_stage]. *)
Definition retry_config : RetryConfig :=
  RetryConfig_init 3 1%float 30%float 2%float None.

(** The validation result substituted when validation fails. *)
Definition default_validation_result : dict :=
  [ ("overall_score", JFloat 0%float);
    ("decision", JStr "REVIEW_REQUIRED");
    ("quality", JDict [("score", JFloat 0%float)]);
    ("accuracy", JDict [("score", JFloat 0%float)]);
    ("compliance", JDict [("score", JFloat 0%float)]);
    ("reasoning", JDict []);
    ("issues_found", JList [JStr "Validation stage failed or timed out"]);
    ("confidence", JFloat 0%float) ].

(** The routing result substituted when routing fails. *)
Definition default_routing_result : dict :=
  [ ("routing_action", JStr "flag_review");
    ("routing_reason", JStr "Routing stage failed or timed out");
    ("wms_integration_status", JStr "pending");
    ("wms_integration_data", JDict []);
    ("human_review_required", JBool true) ].

(** The lines that include the OCR text in the LLM result before the
    results are stored.  [structured_data] is asked for its
    [extracted_fields] with [.get], and when these are empty the length of
    the OCR text is logged. *)
Definition include_ocr_text (llm_result ocr_result : dict) : outcome dict :=
  match dict_get llm_result "structured_data" with
  | Some structured_data =>
      if truthy (get ocr_result "text" JNull) then
        match structured_data with
        | JDict fields =>
            if negb (truthy (get fields "extracted_fields" JNull))
               && negb (has_len (get ocr_result "text" (JStr EmptyString)))
            then Raised (len_type_error (get ocr_result "text" (JStr EmptyString)))
            else Returned (dict_set llm_result "ocr_text"
                             (get ocr_result "text" (JStr EmptyString)))
        | other => Raised (attribute_error other)
        end
      else Returned llm_result
  | None => Returned llm_result
  end.

(** ** Runs *)

(** A part of a run: its result, or the exception that leaves it, and the
    calls it has made. *)
Definition run (A : Type) : Type := (outcome A * list call)%type.

Definition done {A : Type} (a : A) : run A := (Returned a, []).

Definition calling (calls : list call) : run unit := (Returned tt, calls).

Definition raising {A : Type} (e : exn) : run A := (Raised e, []).

Definition and_then {A B : Type} (m : run A) (k : A -> run B) : run B :=
  match fst m with
  | Returned a => (fst (k a), snd m ++ snd (k a))
  | Raised e => (Raised e, snd m)
  end.

(** [try: m  except Exception as e: handler(e)]: an exception that does
    not derive from [Exception] leaves the block. *)
Definition except_Exception {A : Type} (m : run A) (handler : exn -> run A)
  : run A :=
  match fst m with
  | Returned _ => m
  | Raised e =>
      if is_exception e
      then (fst (handler e), snd m ++ snd (handler e))
      else m
  end.

Notation "'let*' x ':=' m 'in' k" := (and_then m (fun x => k))
  (at level 10, x pattern, m at level 100, k at level 200, only parsing).

Section Pipeline.

(** [sanitize_error_message] of [src.api.utils.error_handler]. *)
Variable sanitize_error_message : exn -> string -> string.

(** [tools.use_database and tools.db_service] *)
Variable use_database : bool.
(** [document_id in tools.document_statuses] *)
Variable tracked : bool.

Definition when (b : bool) (calls : list call) : list call :=
  if b then calls else [].

Definition _update_stage_completion (stage_name current_stage : string)
    (progress : Z) : list call :=
  when use_database
    [ UpdateProcessingStage stage_name "completed" None;
      UpdateDocumentStatus stage_name (Some stage_name) ]
  ++ when tracked [ MemoryStageCompleted stage_name current_stage progress ].

Definition _handle_stage_error (stage_name : string) (error : exn) : list call :=
  [ ToolsUpdateDocumentStatus "failed" (sanitize_error_message error stage_name) ].

(** What the stage's processor yields once [retry_with_backoff] is done
    with it. *)
Definition stage_outcome (processor_func : nat -> outcome dict) : outcome dict :=
  fst (retry_with_backoff processor_func retry_config).

(** [_execute_processing_stage]: the result or the exception re-raised,
    and the calls made. *)
Definition _execute_processing_stage (stage_name next_stage : string)
    (progress : Z) (processor_func : nat -> outcome dict) : run dict :=
  let* _ := calling (when use_database
                       [ UpdateProcessingStage stage_name "processing" None ]) in
  except_Exception
    (let* result := (stage_outcome processor_func, []) in
     let* _ := calling (_update_stage_completion stage_name next_stage progress) in
     done result)
    (fun e =>
       let* _ := calling (_handle_stage_error stage_name e) in
       raising e).

(** The stage processors: what attempt [k] of each does on its input. *)
Record processors : Type := mkProcessors {
  process_document : string -> nat -> outcome dict;
      (* [NeMoRetrieverPreprocessor.process_document(file_path)] *)
  extract_text : json -> json -> nat -> outcome dict;
      (* [NeMoOCRService.extract_text(images, metadata)] *)
  llm_process_document : json -> json -> string -> nat -> outcome dict;
      (* [SmallLLMProcessor.process_document(images, text, document_type)] *)
  evaluate_document : json -> json -> string -> nat -> outcome dict;
      (* [LargeLLMJudge.evaluate_document(structured_data, entities, document_type)] *)
  route_document : dict -> dict -> string -> nat -> outcome dict
      (* [IntelligentRouter.route_document(llm_result, validation_result, document_type)] *)
}.

(** The handler of the outer [except Exception]. *)
Definition processing_failed (e : exn) : list call :=
  [ ToolsUpdateDocumentStatus "failed"
      (sanitize_error_message e "NVIDIA NeMo processing") ].

(** Stage 4, with the handler that makes it optional. *)
Definition validation_stage (p : processors) (document_type : string)
    (llm_result : dict) : run dict :=
  except_Exception
    (_execute_processing_stage "validation" "Routing" 80
       (evaluate_document p (get llm_result "structured_data" (JDict []))
          (get llm_result "entities" (JDict [])) document_type))
    (fun validation_error =>
       let* _ := calling
                   (when use_database
                      [ UpdateProcessingStage "validation" "failed"
                          (Some (substring 0 500 (exn_str validation_error))) ]) in
       done default_validation_result).

(** Stage 5, with the handler that makes it optional. *)
Definition routing_stage (p : processors) (document_type : string)
    (llm_result validation_result : dict) : run dict :=
  except_Exception
    (_execute_processing_stage "routing" "Finalizing" 90
       (route_document p llm_result validation_result document_type))
    (fun routing_error =>
       let* _ := calling
                   (when use_database
                      [ UpdateProcessingStage "routing" "failed"
                          (Some (substring 0 500 (exn_str routing_error))) ]) in
       done default_routing_result).

(** [process_document_background]: one run; an exception that leaves it
    does not derive from [Exception]. *)
Definition process_document_background (p : processors) (file_exists : bool)
    (file_path document_type : string) : run unit :=
  except_Exception
    (let* _ := (if negb file_exists then raising (file_not_found file_path)
                else done tt) in
     let* _ := calling (when tracked [ MemorySetPreprocessing ]) in
     let* preprocessing_result :=
       _execute_processing_stage "preprocessing" "OCR Extraction" 20
         (process_document p file_path) in
     let* ocr_result :=
       _execute_processing_stage "ocr_extraction" "LLM Processing" 40
         (extract_text p (get preprocessing_result "images" (JList []))
            (get preprocessing_result "metadata" (JDict []))) in
     let* llm_result :=
       _execute_processing_stage "llm_processing" "Validation" 60
         (llm_process_document p
            (get preprocessing_result "images" (JList []))
            (get ocr_result "text" (JStr EmptyString)) document_type) in
     let* validation_result := validation_stage p document_type llm_result in
     let* routing_result :=
       routing_stage p document_type llm_result validation_result in
     let* llm_result' := (include_ocr_text llm_result ocr_result, []) in
     calling [ ToolsStoreProcessingResults preprocessing_result ocr_result
                 llm_result' validation_result routing_result ])
    (fun e => calling (processing_failed e)).

End Pipeline.

(** The three critical stages: their results, or the exception of the
    first of them that fails after its retries. *)
Definition critical_stages (p : processors) (file_path document_type : string)
  : outcome (dict * dict * dict) :=
  match stage_outcome (process_document p file_path) with
  | Raised e => Raised e
  | Returned preprocessing_result =>
      match stage_outcome
              (extract_text p (get preprocessing_result "images" (JList []))
                 (get preprocessing_result "metadata" (JDict []))) with
      | Raised e => Raised e
      | Returned ocr_result =>
          match stage_outcome
                  (llm_process_document p
                     (get preprocessing_result "images" (JList []))
                     (get ocr_result "text" (JStr EmptyString)) document_type) with
          | Raised e => Raised e
          | Returned llm_result =>
              Returned (preprocessing_result, ocr_result, llm_result)
          end
      end
  end.

(** ** The document's overall status *)

Section Store.

Variable UUID : string -> option string.
Variable json_dumps : json -> string.
Variable document_id : string.
Variable now : string.

(** Modelled from the spec: [DocumentActionTools._update_document_status],
    whose source is not available; it marks the Document with the given
    status (and keeps the sanitized error message).  The mark is written
    through the status store. *)
Definition _update_document_status (status error_message : string) (w : world)
  : world :=
  snd (update_document_status UUID document_id status None now w).

(** Modelled from the spec: [DocumentActionTools._store_processing_results],
    whose source is not available; it persists all stage outputs and marks
    the Document COMPLETED (the call site says so too).  Only the mark is
    modelled. *)
Definition _store_processing_results (w : world) : world :=
  snd (update_document_status UUID document_id "completed" (Some "completed") now w).

(** The effect of a call on the database; the in-memory mirror is not
    part of it. *)
Definition perform (w : world) (c : call) : world :=
  match c with
  | MemorySetPreprocessing => w
  | UpdateProcessingStage stage_name status error_message =>
      snd (update_processing_stage UUID json_dumps document_id stage_name status
             error_message None None now w)
  | UpdateDocumentStatus status processing_stage =>
      snd (update_document_status UUID document_id status processing_stage now w)
  | MemoryStageCompleted _ _ _ => w
  | ToolsUpdateDocumentStatus status error_message =>
      _update_document_status status error_message w
  | ToolsStoreProcessingResults _ _ _ _ _ => _store_processing_results w
  end.

(** The [status] column of the document after each call of a run. *)
Fixpoint status_history (w : world) (calls : list call) : list (list string) :=
  match calls with
  | [] => []
  | c :: rest =>
      let w' := perform w c in
      map d_status
          (filter (fun r => match UUID document_id with
                            | Some id => String.eqb (d_id r) id
                            | None => false
                            end)
                  (documents (db w')))
      :: status_history w' rest
  end.

End Store.

(** Modelled from the spec: the status that a call writes as the
    document's overall status, if it writes one.  The writes of
    [update_document_status] and of the in-memory record are those of the
    source; that [_update_document_status] writes the status it is given
    and [_store_processing_results] writes COMPLETED is what the
    specification says of the two methods, whose source is not
    available. *)
Definition document_status_written (c : call) : option string :=
  match c with
  | MemorySetPreprocessing => Some "preprocessing"
  | UpdateProcessingStage _ _ _ => None
  | UpdateDocumentStatus status _ => Some status
  | MemoryStageCompleted _ _ _ => None
  | ToolsUpdateDocumentStatus status _ => Some status
  | ToolsStoreProcessingResults _ _ _ _ _ => Some "completed"
  end.

Definition status_writes (calls : list call) : list string :=
  flat_map (fun c => match document_status_written c with
                     | Some s => [s]
                     | None => []
                     end) calls.

(** Once ['failed'] has been written, every later write of the run writes
    ['failed']. *)
Definition failed_is_absorbing (writes : list string) : Prop :=
  forall before after,
    writes = before ++ "failed" :: after -> Forall (eq "failed") after.

(** ** A run in which validation times out *)

Definition returns (d : dict) (attempt : nat) : outcome dict := Returned d.

Definition judge_times_out : processors :=
  mkProcessors
    (fun _ => returns [("images", JList [JStr "page-1"]); ("metadata", JDict [])])
    (fun _ _ => returns [("text", JStr "INVOICE 42")])
    (fun _ _ _ => returns [("structured_data", JDict []); ("entities", JDict [])])
    (fun _ _ _ _ => Raised timeout_error)
    (fun _ _ _ => returns [("routing_action", JStr "approve_auto");
                           ("human_review_required", JBool false)]).

Definition sanitized (e : exn) (operation : string) : string :=
  String.append operation " failed".

Definition validation_times_out : list call :=
  snd (process_document_background sanitized true true judge_times_out true
         "data/uploads/invoice.pdf" "invoice").

(** C1 at the failing input.  The code does not keep ['failed'] once it
    is written.  In a run in which validation times out after its
    retries, the handler of [_execute_processing_stage] asks
    [_update_document_status] to mark the document ['failed']; the run
    then marks the validation stage failed, runs the routing stage, whose
    completion writes ['routing'] as the document's status, and stores the
    results, which marks the document COMPLETED.  The run returns without
    an exception. *)
Lemma failed_status_is_overwritten_after_validation_failure :
  fst (process_document_background sanitized true true judge_times_out true
         "data/uploads/invoice.pdf" "invoice") = Returned tt
  /\ skipn 14 validation_times_out
     = [ ToolsUpdateDocumentStatus "failed" "validation failed";
         UpdateProcessingStage "validation" "failed" (Some (exn_str timeout_error));
         UpdateProcessingStage "routing" "processing" None;
         UpdateProcessingStage "routing" "completed" None;
         UpdateDocumentStatus "routing" (Some "routing");
         MemoryStageCompleted "routing" "Finalizing" 90;
         ToolsStoreProcessingResults
           [("images", JList [JStr "page-1"]); ("metadata", JDict [])]
           [("text", JStr "INVOICE 42")]
           [("structured_data", JDict []); ("entities", JDict []);
            ("ocr_text", JStr "INVOICE 42")]
           default_validation_result
           [("routing_action", JStr "approve_auto");
            ("human_review_required", JBool false)] ]
  /\ status_writes validation_times_out
     = ["preprocessing"; "preprocessing"; "ocr_extraction"; "llm_processing";
        "failed"; "routing"; "completed"]
  /\ ~ failed_is_absorbing (status_writes validation_times_out)
  /\ skipn 14 (status_history example_UUID example_dumps invoice
                 "2025-01-01T00:01:00" uploaded validation_times_out)
     = [["failed"]; ["failed"]; ["failed"]; ["failed"];
        ["routing"]; ["routing"]; ["completed"]].
Proof.
  assert (Hwrites : status_writes validation_times_out
                    = ["preprocessing"; "preprocessing"; "ocr_extraction";
                       "llm_processing"; "failed"; "routing"; "completed"])
    by (vm_compute; reflexivity).
  split; [vm_compute; reflexivity|]. split; [vm_compute; reflexivity|].
  split; [exact Hwrites|]. split; [|vm_compute; reflexivity].
  intros Habsorbing. rewrite Hwrites in Habsorbing.
  specialize (Habsorbing
                ["preprocessing"; "preprocessing"; "ocr_extraction"; "llm_processing"]
                ["routing"; "completed"] eq_refl).
  inversion Habsorbing as [|x l Hx _]. discriminate Hx.
Qed.

(** A run in which OCR fails with an error that is not retried. *)
Definition ocr_rejects : processors :=
  mkProcessors
    (fun _ => returns [("images", JList [JStr "page-1"]); ("metadata", JDict [])])
    (fun _ _ _ => Raised (mkExn "ValueError" ["ValueError"; "Exception"; "BaseException"]
                                "unreadable image"))
    (fun _ _ _ => returns [("structured_data", JDict []); ("entities", JDict [])])
    (fun _ _ _ => returns [("decision", JStr "APPROVED")])
    (fun _ _ _ => returns [("routing_action", JStr "approve_auto")]).

Example ocr_rejects_run :
  status_writes
    (snd (process_document_background sanitized true true ocr_rejects true
            "data/uploads/invoice.pdf" "invoice"))
  = ["preprocessing"; "preprocessing"; "failed"; "failed"].
Proof. vm_compute. reflexivity. Qed.

(** A run that is cancelled while its document is read: the exception
    leaves the run, and nothing marks the document. *)
Definition ocr_is_cancelled : processors :=
  mkProcessors
    (fun _ => returns [("images", JList [JStr "page-1"]); ("metadata", JDict [])])
    (fun _ _ _ => Raised cancelled_error)
    (fun _ _ _ => returns [("structured_data", JDict []); ("entities", JDict [])])
    (fun _ _ _ => returns [("decision", JStr "APPROVED")])
    (fun _ _ _ => returns [("routing_action", JStr "approve_auto")]).

Example ocr_is_cancelled_run :
  fst (process_document_background sanitized true true ocr_is_cancelled true
         "data/uploads/invoice.pdf" "invoice") = Raised cancelled_error
  /\ status_writes
       (snd (process_document_background sanitized true true ocr_is_cancelled true
               "data/uploads/invoice.pdf" "invoice"))
     = ["preprocessing"; "preprocessing"].
Proof. split; vm_compute; reflexivity. Qed.

End Router.

(* ================================================================== *)
(** * Further properties of the retry handler *)
(* ================================================================== *)

Module RetryHandlerFacts.
Import Py RetryHandler.

Lemma SFcompare_refl_not_Lt :
  forall f, SFcompare f f <> Some Lt.
Proof.
  intros [s|s| |s m e]; cbn.
  - discriminate.
  - destruct s; discriminate.
  - discriminate.
  - rewrite Z.compare_refl, Pos.compare_cont_refl.
    destruct s; discriminate.
Qed.

Lemma ltb_irrefl : forall x : float, PrimFloat.ltb x x = false.
Proof.
  intros x. rewrite ltb_spec. unfold SFltb.
  pose proof (SFcompare_refl_not_Lt (Prim2SF x)) as H.
  destruct (SFcompare (Prim2SF x) (Prim2SF x)) as [[| |]|]; congruence.
Qed.

Lemma fmin_not_above : forall a b, PrimFloat.ltb b (fmin a b) = false.
Proof.
  intros a b. unfold fmin. destruct (PrimFloat.ltb b a) eqn:E.
  - apply ltb_irrefl.
  - exact E.
Qed.

(** X1.  When the attempts before attempt [k] fail with exceptions that
    derive from [Exception] and whose type is in the retryable set, and
    attempt [k], one of the attempts allowed, returns [v],
    [retry_with_backoff] returns [v] after [k + 1] invocations and [k]
    sleeps, and attempts nothing more. *)
Theorem retry_with_backoff_returns_first_success :
  forall (T : Type) (func : nat -> outcome T) (config : RetryConfig)
         (k : nat) (v : T),
    Z.of_nat k <= max_retries config ->
    (forall j, (j < k)%nat -> retryable_failure func config j) ->
    func k = Returned v ->
    retry_with_backoff func config = (Returned v, backoff_trace config k).
Proof.
  intros T func config k v Hk Hbefore Hfk.
  destruct (retry_with_backoff_shape func config ltac:(lia))
    as (m & Hle & Hretried & Hfin & Hres & Htr).
  assert (m = k) as ->.
  { destruct (Nat.lt_trichotomy m k) as [Hlt|[Heq|Hgt]]; [|assumption|].
    - exfalso. destruct (Hbefore m Hlt) as (e & He & Hex & Hr).
      destruct Hfin as [(v' & Hv')|[(e' & He' & Hr')|Hlast]]; [congruence| |lia].
      rewrite He in He'. injection He' as <-. destruct Hr'; contradiction.
    - exfalso. destruct (Hretried k Hgt) as (e & He & _). congruence. }
  rewrite (surjective_pairing (retry_with_backoff func config)).
  now rewrite Hres, Htr, Hfk.
Qed.

Lemma retry_with_backoff_returns_first_success_witness :
  Z.of_nat 2 <= max_retries RetryConfig_default
  /\ (forall j, (j < 2)%nat -> retryable_failure flaky_twice RetryConfig_default j)
  /\ flaky_twice 2 = Returned 7
  /\ retry_with_backoff flaky_twice RetryConfig_default
     = (Returned 7, backoff_trace RetryConfig_default 2).
Proof.
  assert (H1 : Z.of_nat 2 <= max_retries RetryConfig_default)
    by (vm_compute; discriminate).
  assert (H2 : forall j, (j < 2)%nat ->
                         retryable_failure flaky_twice RetryConfig_default j).
  { intros j Hj. exists timeout_error.
    assert (Hretryable : instance_of timeout_error "Exception"
                         /\ in_retryable_set RetryConfig_default timeout_error).
    { split; [apply is_exception_spec|apply is_retryable_spec]; reflexivity. }
    destruct j as [|[|j]]; [split; [reflexivity|exact Hretryable]
                           | split; [reflexivity|exact Hretryable] | lia]. }
  split; [exact H1|]. split; [exact H2|]. split; [reflexivity|].
  exact (retry_with_backoff_returns_first_success Z flaky_twice
           RetryConfig_default 2 7 H1 H2 eq_refl).
Defined.

(** X2.  With a negative [max_retries] the loop has no iteration: the
    operation is never invoked, and [raise last_exception] raises a
    [TypeError], [last_exception] being [None]. *)
Theorem retry_with_backoff_negative_max_retries :
  forall (T : Type) (func : nat -> outcome T) (config : RetryConfig),
    max_retries config < 0 ->
    retry_with_backoff func config = (Raised type_error_raise_none, []).
Proof.
  intros T func config Hneg. unfold retry_with_backoff.
  replace (Z.to_nat (max_retries config + 1)) with 0%nat by lia.
  reflexivity.
Qed.

Lemma retry_with_backoff_negative_max_retries_witness :
  max_retries (RetryConfig_init (-1) 1%float 60%float 2%float None) < 0
  /\ retry_with_backoff flaky_twice
       (RetryConfig_init (-1) 1%float 60%float 2%float None)
     = (Raised type_error_raise_none, []).
Proof.
  assert (H : max_retries (RetryConfig_init (-1) 1%float 60%float 2%float None) < 0)
    by (vm_compute; reflexivity).
  split; [exact H|].
  exact (retry_with_backoff_negative_max_retries Z flaky_twice _ H).
Defined.

Lemma backoff_delay_capped :
  forall config k,
    PrimFloat.ltb (max_delay config) (backoff_delay config (S k)) = false.
Proof. intros config k. cbn [backoff_delay]. apply fmin_not_above. Qed.

(** X3.  In every run, no sleep after the first is longer than
    [max_delay]; the first sleep is [initial_delay] as configured. *)
Theorem retry_with_backoff_sleeps_capped :
  forall (T : Type) (func : nat -> outcome T) (config : RetryConfig),
    Forall (fun d => PrimFloat.ltb (max_delay config) d = false)
           (tl (sleeps (snd (retry_with_backoff func config)))).
Proof.
  intros T func config.
  destruct (Z.lt_ge_cases (max_retries config) 0) as [Hneg|Hpos].
  - unfold retry_with_backoff.
    replace (Z.to_nat (max_retries config + 1)) with 0%nat by lia.
    constructor.
  - destruct (retry_with_backoff_shape func config Hpos)
      as (m & _ & _ & _ & _ & Htr).
    rewrite Htr, sleeps_backoff_trace.
    destruct m as [|m]; [constructor|].
    cbn [seq map tl]. rewrite <- seq_shift, map_map.
    apply Forall_forall. intros d Hd. apply in_map_iff in Hd.
    destruct Hd as (k & <- & _). apply backoff_delay_capped.
Qed.

(** The first sleep is not capped. *)
Example first_sleep_is_not_capped :
  sleeps (snd (retry_with_backoff flaky_twice
                 (RetryConfig_init 3 10%float 4%float 2%float None)))
  = [10%float; 4%float].
Proof. vm_compute. reflexivity. Qed.

(** *** Consecutive failures and successes of a breaker *)

(** Calls that fail one after the other: for each, the clock at entry,
    the exception and the clock when it is handled. *)
Fixpoint fail_each (cb : CircuitBreaker) (calls : list (float * exn * float))
  : CircuitBreaker :=
  match calls with
  | [] => cb
  | (t_enter, e, t_fail) :: rest =>
      fail_each (snd (call cb t_enter (@Raised unit e) t_fail)) rest
  end.

(** The exception of a failing call is one that [except Exception]
    catches. *)
Definition caught (c : float * exn * float) : Prop :=
  instance_of (snd (fst c)) "Exception".

(** Calls that succeed one after the other, with the clock at entry. *)
Fixpoint succeed_each (cb : CircuitBreaker) (calls : list float) : CircuitBreaker :=
  match calls with
  | [] => cb
  | t_enter :: rest => succeed_each (snd (call cb t_enter (Returned tt) 0%float)) rest
  end.

Lemma closed_failures_below_threshold :
  forall calls cb,
    state cb = "closed" ->
    Forall caught calls ->
    failure_count cb + Z.of_nat (List.length calls) < failure_threshold cb ->
    state (fail_each cb calls) = "closed"
    /\ failure_count (fail_each cb calls)
       = failure_count cb + Z.of_nat (List.length calls)
    /\ failure_threshold (fail_each cb calls) = failure_threshold cb
    /\ recovery_timeout (fail_each cb calls) = recovery_timeout cb.
Proof.
  induction calls as [|[[t_enter e] t_fail] rest IH];
    intros cb Hclosed Hcaught Hbelow.
  - cbn [fail_each succeed_each List.length Z.of_nat]. repeat split; try assumption; lia.
  - cbn [fail_each List.length] in *.
    inversion Hcaught as [|c cs Hc Hrest]; subst.
    apply is_exception_spec in Hc. cbn [fst snd] in Hc.
    assert (Hstep : snd (call cb t_enter (@Raised unit e) t_fail)
                    = on_failure cb t_fail).
    { unfold call, check_state. rewrite Hclosed. cbn. now rewrite Hc. }
    rewrite Hstep.
    assert (Hle : (failure_threshold cb <=? failure_count cb + 1) = false)
      by (apply Z.leb_gt; lia).
    destruct (IH (on_failure cb t_fail)) as (H1 & H2 & H3 & H4).
    + unfold on_failure. cbn [state failure_threshold failure_count].
      now rewrite Hle.
    + exact Hrest.
    + unfold on_failure. cbn [state failure_threshold failure_count]. lia.
    + assert (Hfc : failure_count (on_failure cb t_fail) = failure_count cb + 1)
        by reflexivity.
      assert (Hth : failure_threshold (on_failure cb t_fail) = failure_threshold cb)
        by reflexivity.
      assert (Hto : recovery_timeout (on_failure cb t_fail) = recovery_timeout cb)
        by reflexivity.
      rewrite Hfc in H2. rewrite Hth in H3. rewrite Hto in H4.
      repeat split; try assumption. lia.
Qed.

(** X4.  A closed breaker that fails as many times in a row as it is
    short of [failure_threshold], with exceptions that derive from
    [Exception], is open after the last failure, with the time of that
    failure as its open-timestamp; until [recovery_timeout] has elapsed
    since then, a call is rejected without being attempted and leaves the
    breaker as it is. *)
Theorem breaker_opens_after_threshold_failures :
  forall cb earlier t_enter e t_fail,
    state cb = "closed" ->
    Forall caught (earlier ++ [(t_enter, e, t_fail)]) ->
    failure_count cb + Z.of_nat (List.length earlier) + 1 = failure_threshold cb ->
    let opened := fail_each cb (earlier ++ [(t_enter, e, t_fail)]) in
    state (fail_each cb earlier) = "closed"
    /\ state opened = "open"
    /\ failure_count opened = failure_threshold cb
    /\ last_failure_time opened = Some t_fail
    /\ forall (T : Type) (now : float) (func : outcome T) (t_fail' : float),
         float_truthy t_fail = true ->
         PrimFloat.leb (recovery_timeout cb) (now - t_fail)%float = false ->
         call opened now func t_fail'
         = (CallRejected (Some (recovery_timeout cb - (now - t_fail))%float), opened).
Proof.
  intros cb earlier t_enter e t_fail Hclosed Hcaught Hcount opened.
  apply Forall_app in Hcaught. destruct Hcaught as [Hearlier Hlast].
  inversion Hlast as [|c cs He _]; subst.
  apply is_exception_spec in He. cbn [fst snd] in He.
  destruct (closed_failures_below_threshold earlier cb Hclosed Hearlier ltac:(lia))
    as (Hstate & Hfc & Hthreshold & Htimeout).
  assert (Hopened : opened = on_failure (fail_each cb earlier) t_fail).
  { subst opened.
    assert (Happ : forall l1 l2 c, fail_each c (l1 ++ l2) = fail_each (fail_each c l1) l2).
    { induction l1 as [|[[a b] c0] l1 IH]; intros l2 c; [reflexivity|]. cbn. apply IH. }
    rewrite Happ. cbn [fail_each]. unfold call, check_state. rewrite Hstate. cbn.
    now rewrite He. }
  assert (Hle : (failure_threshold (fail_each cb earlier)
                 <=? failure_count (fail_each cb earlier) + 1) = true)
    by (apply Z.leb_le; lia).
  split; [exact Hstate|].
  rewrite Hopened. unfold on_failure at 1 2 3. cbn [state failure_count last_failure_time].
  rewrite Hle.
  split; [reflexivity|]. split; [lia|]. split; [reflexivity|].
  intros T now func t_fail' Htruthy Hearly.
  unfold call, check_state, on_failure.
  cbn [state last_failure_time recovery_timeout]. rewrite Hle.
  change (String.eqb "open" "open") with true. cbv iota.
  rewrite Htruthy, Htimeout, Hearly. reflexivity.
Qed.

Lemma timeout_error_caught :
  forall t_enter t_fail, caught (t_enter, timeout_error, t_fail).
Proof. intros t_enter t_fail. apply is_exception_spec. reflexivity. Qed.

Lemma breaker_opens_after_threshold_failures_witness :
  state (CircuitBreaker_init 2 60%float 3) = "closed"
  /\ Forall caught ([(0%float, timeout_error, 10%float)]
                    ++ [(11%float, timeout_error, 20%float)])
  /\ failure_count (CircuitBreaker_init 2 60%float 3)
     + Z.of_nat (List.length [(0%float, timeout_error, 10%float)]) + 1
     = failure_threshold (CircuitBreaker_init 2 60%float 3)
  /\ state (fail_each (CircuitBreaker_init 2 60%float 3)
              ([(0%float, timeout_error, 10%float)]
               ++ [(11%float, timeout_error, 20%float)])) = "open".
Proof.
  assert (Hcaught : Forall caught ([(0%float, timeout_error, 10%float)]
                                   ++ [(11%float, timeout_error, 20%float)]))
    by (repeat constructor; apply timeout_error_caught).
  split; [reflexivity|]. split; [exact Hcaught|]. split; [reflexivity|].
  apply (breaker_opens_after_threshold_failures (CircuitBreaker_init 2 60%float 3)
           [(0%float, timeout_error, 10%float)] 11%float timeout_error 20%float
           eq_refl Hcaught eq_refl).
Defined.

(** X5.  Only failures in a row open a breaker: a success of a closed
    breaker sets [failure_count] back to 0, so that failures (with
    exceptions that derive from [Exception]) fewer than
    [failure_threshold] before it and fewer than [failure_threshold] after
    it leave the breaker closed, however many they are together. *)
Theorem closed_success_resets_failure_count :
  forall cb before t_enter after,
    state cb = "closed" ->
    Forall caught before ->
    Forall caught after ->
    failure_count cb + Z.of_nat (List.length before) < failure_threshold cb ->
    Z.of_nat (List.length after) < failure_threshold cb ->
    let recovered :=
      snd (call (fail_each cb before) t_enter (Returned tt) 0%float) in
    failure_count recovered = 0
    /\ state (fail_each recovered after) = "closed"
    /\ failure_count (fail_each recovered after) = Z.of_nat (List.length after).
Proof.
  intros cb before t_enter after Hclosed Hcaught Hcaught' Hbefore Hafter recovered.
  destruct (closed_failures_below_threshold before cb Hclosed Hcaught Hbefore)
    as (Hstate & _ & Hthreshold & _).
  assert (Hrecovered : recovered
                       = mkCircuitBreaker (failure_threshold (fail_each cb before))
                           (recovery_timeout (fail_each cb before))
                           (half_open_max_calls (fail_each cb before)) 0
                           (last_failure_time (fail_each cb before))
                           (state (fail_each cb before))
                           (half_open_calls (fail_each cb before))).
  { subst recovered. unfold call, check_state. rewrite Hstate. cbn.
    unfold on_success. rewrite Hstate. reflexivity. }
  assert (H0 : failure_count recovered = 0) by (rewrite Hrecovered; reflexivity).
  assert (Hs : state recovered = "closed") by (rewrite Hrecovered; exact Hstate).
  assert (Ht : failure_threshold recovered = failure_threshold cb)
    by (rewrite Hrecovered; exact Hthreshold).
  split; [exact H0|].
  destruct (closed_failures_below_threshold after recovered Hs Hcaught' ltac:(lia))
    as (Hstate' & Hcount' & _).
  split; [exact Hstate'|]. lia.
Qed.

Lemma closed_success_resets_failure_count_witness :
  state (CircuitBreaker_init 2 60%float 3) = "closed"
  /\ Forall caught [(0%float, timeout_error, 1%float)]
  /\ Forall caught [(3%float, timeout_error, 4%float)]
  /\ state (fail_each
              (snd (call (fail_each (CircuitBreaker_init 2 60%float 3)
                            [(0%float, timeout_error, 1%float)])
                         2%float (Returned tt) 0%float))
              [(3%float, timeout_error, 4%float)]) = "closed".
Proof.
  assert (Hbefore : Forall caught [(0%float, timeout_error, 1%float)])
    by (repeat constructor; apply timeout_error_caught).
  assert (Hafter : Forall caught [(3%float, timeout_error, 4%float)])
    by (repeat constructor; apply timeout_error_caught).
  split; [reflexivity|]. split; [exact Hbefore|]. split; [exact Hafter|].
  apply (closed_success_resets_failure_count (CircuitBreaker_init 2 60%float 3)
           [(0%float, timeout_error, 1%float)] 2%float
           [(3%float, timeout_error, 4%float)] eq_refl Hbefore Hafter);
    cbn; lia.
Defined.

Lemma half_open_successes_below_max :
  forall calls cb,
    state cb = "half_open" ->
    half_open_calls cb + Z.of_nat (List.length calls) < half_open_max_calls cb ->
    state (succeed_each cb calls) = "half_open"
    /\ half_open_calls (succeed_each cb calls)
       = half_open_calls cb + Z.of_nat (List.length calls)
    /\ half_open_max_calls (succeed_each cb calls) = half_open_max_calls cb
    /\ failure_count (succeed_each cb calls) = failure_count cb.
Proof.
  induction calls as [|t_enter rest IH]; intros cb Hhalf Hbelow.
  - cbn [fail_each succeed_each List.length Z.of_nat]. repeat split; try assumption; lia.
  - cbn [succeed_each List.length] in *.
    assert (Hle : (half_open_max_calls cb <=? half_open_calls cb + 1) = false)
      by (apply Z.leb_gt; lia).
    assert (Hstep : snd (call cb t_enter (Returned tt) 0%float)
                    = mkCircuitBreaker (failure_threshold cb) (recovery_timeout cb)
                        (half_open_max_calls cb) (failure_count cb)
                        (last_failure_time cb) (state cb) (half_open_calls cb + 1)).
    { unfold call, check_state. rewrite Hhalf. cbn. unfold on_success.
      rewrite Hhalf. cbn. now rewrite Hle. }
    rewrite Hstep.
    match goal with |- context [succeed_each ?c rest] => destruct (IH c) as (H1 & H2 & H3 & H4) end.
    + exact Hhalf.
    + cbn [half_open_calls half_open_max_calls]. lia.
    + cbn [half_open_calls half_open_max_calls failure_count] in H2, H3, H4.
      repeat split; try assumption. lia.
Qed.

(** X6.  A half-open breaker stays half-open while its successes are
    fewer than [half_open_max_calls], and the success that completes them
    closes it, with [failure_count] and the success counter back to 0. *)
Theorem half_open_closes_after_max_successes :
  forall cb earlier t_enter,
    state cb = "half_open" ->
    half_open_calls cb + Z.of_nat (List.length earlier) + 1 = half_open_max_calls cb ->
    let closed := succeed_each cb (earlier ++ [t_enter]) in
    state (succeed_each cb earlier) = "half_open"
    /\ state closed = "closed"
    /\ failure_count closed = 0
    /\ half_open_calls closed = 0.
Proof.
  intros cb earlier t_enter Hhalf Hcount closed.
  destruct (half_open_successes_below_max earlier cb Hhalf ltac:(lia))
    as (Hstate & Hcalls & Hmax & _).
  split; [exact Hstate|].
  assert (Happ : forall l1 l2 c,
             succeed_each c (l1 ++ l2) = succeed_each (succeed_each c l1) l2).
  { induction l1 as [|a l1 IH]; intros l2 c; [reflexivity|]. cbn. apply IH. }
  subst closed. rewrite Happ. cbn [succeed_each].
  unfold call, check_state. rewrite Hstate. cbn. unfold on_success. rewrite Hstate.
  cbn.
  assert (Hle : (half_open_max_calls (succeed_each cb earlier)
                 <=? half_open_calls (succeed_each cb earlier) + 1) = true)
    by (apply Z.leb_le; lia).
  rewrite Hle. cbn. repeat split.
Qed.

Lemma half_open_closes_after_max_successes_witness :
  state probing_breaker = "half_open"
  /\ half_open_calls probing_breaker + Z.of_nat (List.length [201%float]) + 1
     = half_open_max_calls probing_breaker
  /\ state (succeed_each probing_breaker ([201%float] ++ [202%float])) = "closed".
Proof.
  split; [vm_compute; reflexivity|]. split; [vm_compute; reflexivity|].
  apply (half_open_closes_after_max_successes probing_breaker [201%float]
           202%float eq_refl eq_refl).
Defined.

End RetryHandlerFacts.

(* ================================================================== *)
(** * Further properties of the job queue *)
(* ================================================================== *)

Module JobQueueFacts.
Import Py JobQueue.

(** X7.  Whatever the backend and the state of the link, the job that
    [enqueue_job] has just enqueued is found by [get_job]: pending, with
    no retry yet, with the data, priority and retries given, and with the
    two readings of the clock, one after the other, as the times of its
    creation and of its last update. *)
Theorem enqueue_job_then_get_job :
  forall q job_id created updated job_type job_data priority max_retries,
    fst (enqueue_job q job_id created updated job_type job_data priority
           max_retries) = job_id
    /\ get_job (snd (enqueue_job q job_id created updated job_type job_data
                       priority max_retries))
               job_id
       = Some (mkJob job_id job_type job_data "pending" priority max_retries 0
                     created updated None None).
Proof.
  intros q job_id created updated job_type job_data priority m.
  queue_cases q; cbn; try destruct (score_of _); cbn;
    rewrite ?dict_get_set_same; cbn; rewrite ?dict_get_set_same;
    split; reflexivity.
Qed.

(** X8.  For a job id that [get_job] does not find, [update_job_status]
    and [retry_job] return [False] and leave the queue as it is. *)
Theorem unknown_job_is_not_updated_nor_retried :
  forall q job_id s error_message result now,
    get_job q job_id = None ->
    update_job_status q job_id s error_message result now = (false, q)
    /\ retry_job q job_id now = (false, q).
Proof.
  intros q job_id s error_message result now Hget.
  unfold get_job in Hget. unfold update_job_status, retry_job.
  destruct (get_job_from q job_id) as [[job o]|]; [discriminate|].
  split; reflexivity.
Qed.

Lemma unknown_job_is_not_updated_nor_retried_witness :
  get_job one_job_in_memory "job-z" = None
  /\ update_job_status one_job_in_memory "job-z" COMPLETED None None "t"
     = (false, one_job_in_memory)
  /\ retry_job one_job_in_memory "job-z" "t" = (false, one_job_in_memory).
Proof.
  split; [reflexivity|].
  exact (unknown_job_is_not_updated_nor_retried one_job_in_memory "job-z"
           COMPLETED None None "t" eq_refl).
Defined.



Lemma dict_get_remove_same :
  forall (V : Type) (d : list (string * V)) k, dict_get (dict_remove d k) k = None.
Proof.
  intros V d k. unfold dict_remove. induction d as [|[k' v'] d IH]; [reflexivity|].
  cbn. destruct (String.eqb k' k) eqn:E; cbn; [exact IH|]. now rewrite E.
Qed.

(** X10.  On a connected Redis backend whose sorted set is headed by a job
    that Redis holds as pending, [dequeue_job] returns that job, removes
    its id from the sorted set and stores it as [processing]; the
    dictionary returned is the copy read before the update and still says
    [pending]. *)
Theorem dequeue_job_redis_takes_pending_head :
  forall q r job_id score rest job now,
    use_redis q = Some r ->
    zrevrange_0_0 r = Some ((job_id, score) :: rest) ->
    get r (job_key q job_id) = Some (Some job) ->
    status job = value PENDING ->
    fst (dequeue_job q now) = Some job
    /\ get_job (snd (dequeue_job q now)) job_id
       = Some (set_status job (value PROCESSING) now)
    /\ exists r',
         use_redis (snd (dequeue_job q now)) = Some r'
         /\ dict_get (zset r') job_id = None
         /\ fallback_queue (snd (dequeue_job q now)) = fallback_queue q.
Proof.
  intros q r job_id score rest job now Huse Htop Hget Hpending.
  unfold dequeue_job. rewrite Huse, Htop.
  unfold get_job_from. rewrite Huse, Hget. rewrite Hpending.
  change (String.eqb (value PENDING) (value PENDING)) with true. cbv iota.
  destruct q as [rc ra qn jp fb]. unfold use_redis in Huse. cbn in Huse.
  destruct ra; [|discriminate]. subst rc.
  destruct r as [up ks zs]. unfold zrevrange_0_0 in Htop. cbn in Htop.
  destruct up; [|discriminate].
  unfold get, job_key in Hget. cbn in Hget.
  destruct (dict_get ks (jp ++ job_id)%string) as [e|] eqn:Hkey; [|discriminate].
  cbn in Hget. injection Hget as Hpayload.
  unfold zrem, update_job_status, get_job, get_job_from, use_redis, with_redis,
    mutate, get, setex, job_key, updated.
  cbn. rewrite Hkey. cbn. rewrite Hpayload. cbn.
  rewrite dict_get_set_same. cbn.
  split; [reflexivity|]. split; [reflexivity|].
  eexists. split; [reflexivity|]. cbn. split; [apply dict_get_remove_same|reflexivity].
Qed.

Lemma dequeue_job_redis_takes_pending_head_witness :
  exists r score rest job,
    use_redis one_job_in_redis = Some r
    /\ zrevrange_0_0 r = Some (("job-a", score) :: rest)
    /\ get r (job_key one_job_in_redis "job-a") = Some (Some job)
    /\ status job = value PENDING
    /\ fst (dequeue_job one_job_in_redis "2025-01-01T00:00:01") = Some job.
Proof.
  do 4 eexists.
  split; [vm_compute; reflexivity|]. split; [vm_compute; reflexivity|].
  split; [vm_compute; reflexivity|]. split; [reflexivity|].
  eapply (dequeue_job_redis_takes_pending_head one_job_in_redis _ "job-a" _ _ _
            "2025-01-01T00:00:01");
    vm_compute; reflexivity.
Defined.

(** X11.  A call of [dequeue_job] that returns nothing leaves the queue
    as it is, on either backend. *)
Theorem dequeue_job_none_changes_nothing :
  forall q now, fst (dequeue_job q now) = None -> snd (dequeue_job q now) = q.
Proof.
  intros q now.
  assert (Hfallback : fst (dequeue_fallback q now) = None ->
                      snd (dequeue_fallback q now) = q).
  { unfold dequeue_fallback.
    destruct (first_pending _) as [[job_id job]|]; [discriminate|reflexivity]. }
  unfold dequeue_job.
  destruct (use_redis q) as [r|]; [|exact Hfallback].
  destruct (zrevrange_0_0 r) as [[|[job_id score] top]|];
    [reflexivity | | exact Hfallback].
  destruct (get_job_from q job_id) as [[job o]|]; [|exact Hfallback].
  destruct (String.eqb (status job) (value PENDING)); [|exact Hfallback].
  destruct (zrem r job_id) as [r1|]; [|exact Hfallback].
  cbn [fst]. destruct o; [discriminate|].
  destruct (dict_get _ _); discriminate.
Qed.

Lemma dequeue_job_none_changes_nothing_witness :
  fst (dequeue_job retried_head "2025-01-01T00:00:04") = None
  /\ snd (dequeue_job retried_head "2025-01-01T00:00:04") = retried_head.
Proof.
  assert (H : fst (dequeue_job retried_head "2025-01-01T00:00:04") = None)
    by (vm_compute; reflexivity).
  split; [exact H|].
  exact (dequeue_job_none_changes_nothing retried_head "2025-01-01T00:00:04" H).
Defined.

Lemma first_pending_some :
  forall l kv, first_pending l = Some kv -> In kv l /\ pending (snd kv).
Proof.
  unfold first_pending, pending. intros l kv H. apply find_some in H.
  destruct H as [Hin Hp]. split; [assumption|]. now apply String.eqb_eq.
Qed.

Lemma first_pending_insert_desc :
  forall x l,
    descending l ->
    first_pending (insert_desc x l)
    = if String.eqb (status (snd x)) (value PENDING)
      then match first_pending l with
           | Some y => if priority (snd x) <? priority (snd y) then Some y else Some x
           | None => Some x
           end
      else first_pending l.
Proof.
  intros x l. induction l as [|z l IH]; intros Hd.
  - cbn. destruct (String.eqb (status (snd x)) (value PENDING)); reflexivity.
  - destruct Hd as [Hz Hd]. specialize (IH Hd).
    cbn [insert_desc].
    destruct (priority (snd x) <? priority (snd z)) eqn:Exz.
    + unfold first_pending in *. cbn [find].
      destruct (String.eqb (status (snd z)) (value PENDING)) eqn:Ez.
      * rewrite Exz. destruct (String.eqb (status (snd x)) (value PENDING)); reflexivity.
      * exact IH.
    + unfold first_pending in *. cbn [find].
      destruct (String.eqb (status (snd x)) (value PENDING)) eqn:Ex; [|reflexivity].
      destruct (String.eqb (status (snd z)) (value PENDING)) eqn:Ez.
      * now rewrite Exz.
      * destruct (find _ l) as [y|] eqn:Ey; [|reflexivity].
        apply find_some in Ey. destruct Ey as [Hin _].
        specialize (Hz y Hin). apply Z.ltb_ge in Exz.
        destruct (priority (snd x) <? priority (snd y)) eqn:Exy; [|reflexivity].
        apply Z.ltb_lt in Exy. lia.
Qed.

Lemma first_pending_sorted_desc :
  forall before x after,
    pending (snd x) ->
    (forall y, In y before -> pending (snd y) -> priority (snd y) < priority (snd x)) ->
    (forall y, In y after -> pending (snd y) -> priority (snd y) <= priority (snd x)) ->
    first_pending (sorted_desc (before ++ x :: after)) = Some x.
Proof.
  intros before x after Hx. induction before as [|b before IH]; intros Hb Ha.
  - cbn [app sorted_desc].
    rewrite first_pending_insert_desc by apply sorted_desc_descending.
    unfold pending in Hx. rewrite Hx. change (String.eqb (value PENDING) (value PENDING)) with true.
    cbv iota.
    destruct (first_pending (sorted_desc after)) as [y|] eqn:Ey; [|reflexivity].
    apply first_pending_some in Ey. destruct Ey as [Hin Hp].
    apply (proj1 (sorted_desc_in _ _)) in Hin.
    specialize (Ha y Hin Hp).
    destruct (priority (snd x) <? priority (snd y)) eqn:E; [|reflexivity].
    apply Z.ltb_lt in E. lia.
  - cbn [app sorted_desc].
    rewrite first_pending_insert_desc by apply sorted_desc_descending.
    rewrite IH; [|intros y Hy; apply Hb; now right|assumption].
    destruct (String.eqb_spec (status (snd b)) (value PENDING)) as [Hp|_]; [|reflexivity].
    specialize (Hb b (or_introl eq_refl) Hp).
    destruct (priority (snd b) <? priority (snd x)) eqn:E; [reflexivity|].
    apply Z.ltb_ge in E. lia.
Qed.

(** X12.  On the in-process queue [dequeue_job] takes, among the pending
    jobs of highest priority, the one enqueued first: the job after which
    no pending job has a higher priority and before which every pending
    job has a strictly lower one.  It returns that job marked
    [processing] and stores it under its key. *)
Theorem dequeue_job_in_process_takes_first_of_highest :
  forall q now before job_id job after,
    use_redis q = None ->
    fallback_queue q = before ++ (job_id, job) :: after ->
    pending job ->
    (forall k j, In (k, j) before -> pending j -> priority j < priority job) ->
    (forall k j, In (k, j) after -> pending j -> priority j <= priority job) ->
    dequeue_job q now
    = (Some (set_status job (value PROCESSING) now),
       with_fallback q (dict_set (fallback_queue q) job_id
                          (set_status job (value PROCESSING) now))).
Proof.
  intros q now before job_id job after Huse Hq Hp Hb Ha.
  rewrite (dequeue_job_in_memory q now Huse). unfold dequeue_fallback.
  rewrite Hq.
  rewrite (first_pending_sorted_desc before (job_id, job) after); [reflexivity|exact Hp| |].
  - intros [k j] Hin Hpj. exact (Hb k j Hin Hpj).
  - intros [k j] Hin Hpj. exact (Ha k j Hin Hpj).
Qed.

(** Three pending jobs enqueued in process: [low] of priority 1, then
    [first] and [second] of priority 5. *)
Definition three_jobs_in_memory : JobQueue :=
  run JobQueue_init
    [ EnqueueJob "low" "2025-01-01T00:00:00.000010" "2025-01-01T00:00:00.000012"
        "process_document" [] 1 3;
      EnqueueJob "first" "2025-01-01T00:00:01.000010" "2025-01-01T00:00:01.000012"
        "process_document" [] 5 3;
      EnqueueJob "second" "2025-01-01T00:00:02.000010" "2025-01-01T00:00:02.000012"
        "process_document" [] 5 3 ].

Lemma dequeue_job_in_process_takes_first_of_highest_witness :
  option_map id (fst (dequeue_job three_jobs_in_memory "2025-01-01T00:00:03"))
  = Some "first".
Proof.
  rewrite (dequeue_job_in_process_takes_first_of_highest three_jobs_in_memory
             "2025-01-01T00:00:03"
             [("low", mkJob "low" "process_document" [] "pending" 1 3 0
                        "2025-01-01T00:00:00.000010" "2025-01-01T00:00:00.000012"
                        None None)]
             "first"
             (mkJob "first" "process_document" [] "pending" 5 3 0
                "2025-01-01T00:00:01.000010" "2025-01-01T00:00:01.000012" None None)
             [("second", mkJob "second" "process_document" [] "pending" 5 3 0
                           "2025-01-01T00:00:02.000010" "2025-01-01T00:00:02.000012"
                           None None)]).
  - reflexivity.
  - reflexivity.
  - reflexivity.
  - reflexivity.
  - intros k j [[= <- <-]|[]] _. cbn. lia.
  - intros k j [[= <- <-]|[]] _. cbn. lia.
Defined.

(** X13.  A job enqueued while the Redis link is down is kept in process
    only.  When the link is back and the sorted set is empty,
    [get_job] finds the job, pending, yet [dequeue_job] returns nothing
    and leaves the queue as it is: the in-process queue is not looked at. *)
Theorem job_enqueued_during_outage_is_not_dequeued :
  forall q r job_id created updated job_type job_data priority max_retries now',
    use_redis q = Some r ->
    connected r = false ->
    zset r = [] ->
    dict_get (keys r) (job_key q job_id) = None ->
    let q1 := set_link (snd (enqueue_job q job_id created updated job_type
                               job_data priority max_retries)) true in
    option_map status (get_job q1 job_id) = Some (value PENDING)
    /\ dequeue_job q1 now' = (None, q1).
Proof.
  intros q r job_id created updated job_type job_data p m now' Huse Hdown Hzset
         Hkey.
  destruct q as [rc ra qn jp fb]. unfold use_redis in Huse. cbn in Huse.
  destruct ra; [|discriminate]. subst rc.
  destruct r as [up ks zs]. cbn in Hdown, Hzset, Hkey. subst up zs.
  cbn. unfold get_job, get_job_from, dequeue_job, use_redis, get, job_key,
         zrevrange_0_0. cbn.
  rewrite Hkey. cbn. rewrite dict_get_set_same. split; reflexivity.
Qed.

Lemma job_enqueued_during_outage_is_not_dequeued_witness :
  let q := set_link (initialize JobQueue_init (Some fresh_redis)) false in
  let q1 := set_link (snd (enqueue_job q "job-a" "2025-01-01T00:00:00.000010"
                             "2025-01-01T00:00:00.000012" "process_document"
                             [] 0 3)) true in
  option_map status (get_job q1 "job-a") = Some (value PENDING)
  /\ dequeue_job q1 "2025-01-01T00:00:01" = (None, q1).
Proof.
  intros q.
  exact (job_enqueued_during_outage_is_not_dequeued q
           (mkRedis false [] []) "job-a" "2025-01-01T00:00:00.000010"
           "2025-01-01T00:00:00.000012" "process_document"
           [] 0 3 "2025-01-01T00:00:01" eq_refl eq_refl eq_refl eq_refl).
Defined.

End JobQueueFacts.

(* ================================================================== *)
(** * Further properties of the status store *)
(* ================================================================== *)

Module DocumentDBFacts.
Import Py DocumentDB.

(** A stage record that is still to run or running. *)
Definition unfinished (s : stage_dict) : Prop :=
  sd_status s = "processing" \/ sd_status s = "pending".

(** With every stage record completed the progress is 100, and with one
    of them not completed it is below: checked by evaluation. *)
Definition progress_full_ok (t : nat) : bool :=
  match progress_of (Z.of_nat t) (Z.of_nat t),
        progress_of (Z.of_nat (t - 1)) (Z.of_nat t) with
  | Some p, Some q => (p =? 100) && (0 <=? q) && (q <? 100)
  | _, _ => false
  end.

Lemma progress_full_checked :
  forallb progress_full_ok (seq 1 checked_stage_records) = true.
Proof. vm_compute. reflexivity. Qed.

(** The statements of a method, spelled out. *)
Ltac db_steps :=
  unfold try_except, bind, value_of, ret, raise, execute_command, execute_query.

Section Facts.

Variable UUID : string -> option string.
Variable str_isdigit : string -> bool.
Variable int_of_str : string -> option Z.
Variable json_dumps : json -> string.
Variable json_loads : string -> option json.

(** [int(user_id)], when [create_document] computes it, does not raise. *)
Definition user_id_converts (user_id : string) : Prop :=
  str_isdigit user_id = true -> int_of_str user_id <> None.

(** The [user_id] column of the row that [create_document] writes. *)
Definition user_of (user_id : string) : option Z :=
  if str_isdigit user_id then int_of_str user_id else None.

Lemma user_id_value :
  forall user_id,
    user_id_converts user_id ->
    (if str_isdigit user_id then option_map Some (int_of_str user_id) else Some None)
    = Some (user_of user_id).
Proof.
  intros user_id Hconverts. unfold user_of, user_id_converts in *.
  destruct (str_isdigit user_id); [|reflexivity].
  destruct (int_of_str user_id); [reflexivity|].
  now destruct (Hconverts eq_refl).
Qed.

(** X14.  A document id that [uuid.UUID] rejects reaches no statement:
    every method of the service returns its failure value ([False],
    [None], the empty dictionary) and the database and the connection are
    as before. *)
Theorem invalid_document_id_reaches_no_statement :
  forall document_id w,
    UUID document_id = None ->
    (forall filename file_path file_type file_size user_id document_type metadata now,
        create_document UUID str_isdigit int_of_str json_dumps document_id
          filename file_path file_type file_size user_id document_type metadata
          now w = (false, w))
    /\ (forall status processing_stage now,
           update_document_status UUID document_id status processing_stage now w
           = (false, w))
    /\ (forall stage_id stage_name status metadata now,
           create_processing_stage UUID json_dumps stage_id document_id stage_name
             status metadata now w = (None, w))
    /\ (forall stage_name status error_message processing_time_ms metadata now,
           update_processing_stage UUID json_dumps document_id stage_name status
             error_message processing_time_ms metadata now w = (false, w))
    /\ get_document_status UUID json_loads document_id w = (None, w)
    /\ (forall stage raw_data processed_data confidence_score processing_time_ms
               model_used metadata,
           save_extraction_result UUID json_dumps document_id stage raw_data
             processed_data confidence_score processing_time_ms model_used
             metadata w = (false, w))
    /\ (forall overall_score completeness_score accuracy_score compliance_score
               quality_score decision reasoning issues_found confidence judge_model,
           save_quality_score UUID json_dumps document_id overall_score
             completeness_score accuracy_score compliance_score quality_score
             decision reasoning issues_found confidence judge_model w = (false, w))
    /\ (forall routing_action routing_reason wms_integration_status
               wms_integration_data human_review_required,
           save_routing_decision UUID json_dumps document_id routing_action
             routing_reason wms_integration_status wms_integration_data
             human_review_required w = (false, w))
    /\ get_extraction_results UUID json_loads document_id w = (None, w).
Proof.
  intros document_id w Huuid.
  unfold create_document, update_document_status, create_processing_stage,
    update_processing_stage, get_document_status, save_extraction_result,
    save_quality_score, save_routing_decision, get_extraction_results.
  db_steps. rewrite Huuid.
  repeat split; intros; try reflexivity.
  destruct (UUID stage_id); reflexivity.
Qed.

Lemma map_fixed :
  forall (A : Type) (f : A -> A) (l : list A),
    (forall x, In x l -> f x = x) -> map f l = l.
Proof.
  intros A f l H. induction l as [|x l IH]; [reflexivity|].
  cbn. rewrite (H x (or_introl eq_refl)). f_equal. apply IH.
  intros y Hy. apply H. now right.
Qed.

(** X15.  An update that matches no row is not an error: when the
    statement is executed, [update_document_status] on a document that has
    no row, and [update_processing_stage] on a stage that has no record,
    return [True] and leave the database as it is. *)
Theorem update_of_missing_record_returns_true :
  forall document_id id w,
    UUID document_id = Some id ->
    hd false (faults w) = false ->
    (forall status processing_stage now,
        (forall r, In r (documents (db w)) -> d_id r <> id) ->
        fst (update_document_status UUID document_id status processing_stage now w)
        = true
        /\ db (snd (update_document_status UUID document_id status
                      processing_stage now w)) = db w)
    /\ (forall stage_name status error_message processing_time_ms metadata now,
           (forall r, In r (processing_stages (db w)) ->
                      ps_document_id r = id -> ps_stage_name r <> stage_name) ->
           fst (update_processing_stage UUID json_dumps document_id stage_name
                  status error_message processing_time_ms metadata now w) = true
           /\ db (snd (update_processing_stage UUID json_dumps document_id
                         stage_name status error_message processing_time_ms
                         metadata now w)) = db w).
Proof.
  intros document_id id w Huuid Hfaults. split.
  - intros status processing_stage now Hnone.
    assert (Hsame : set_document_status id status processing_stage now (db w) = db w).
    { unfold set_document_status. rewrite map_fixed; [now destruct (db w)|].
      intros r Hr. destruct (String.eqb_spec (d_id r) id) as [He|_]; [|reflexivity].
      now destruct (Hnone r Hr). }
    unfold update_document_status. db_steps. rewrite Huuid.
    destruct w as [d [|[|] rest]]; cbn in *; try discriminate; auto.
  - intros stage_name status error_message processing_time_ms metadata now Hnone.
    assert (Hsame : set_stage id stage_name status error_message processing_time_ms
                      (json_dumps (or_empty metadata)) now (db w) = db w).
    { unfold set_stage. rewrite map_fixed; [now destruct (db w)|].
      intros r Hr. unfold updated_stage.
      destruct (String.eqb_spec (ps_document_id r) id) as [He|_]; [|reflexivity].
      destruct (String.eqb_spec (ps_stage_name r) stage_name) as [Hs|_]; [|reflexivity].
      now destruct (Hnone r Hr He). }
    unfold update_processing_stage. db_steps. rewrite Huuid.
    destruct w as [d [|[|] rest]]; cbn in *; try discriminate; auto.
Qed.

(** X16.  The three [save_] methods delete and insert in two statements
    of their own.  When the [DELETE] is executed and the [INSERT] raises,
    the method returns [False] and the result saved before for the key is
    gone: the tables hold no row for it. *)
Theorem failed_insert_after_delete_loses_saved_result :
  forall document_id id w rest,
    UUID document_id = Some id ->
    faults w = false :: true :: rest ->
    (forall stage raw_data processed_data confidence_score processing_time_ms
            model_used metadata,
        fst (save_extraction_result UUID json_dumps document_id stage raw_data
               processed_data confidence_score processing_time_ms model_used
               metadata w) = false
        /\ extraction_rows id stage
             (db (snd (save_extraction_result UUID json_dumps document_id stage
                         raw_data processed_data confidence_score
                         processing_time_ms model_used metadata w))) = [])
    /\ (forall overall_score completeness_score accuracy_score compliance_score
               quality_score decision reasoning issues_found confidence judge_model,
           fst (save_quality_score UUID json_dumps document_id overall_score
                  completeness_score accuracy_score compliance_score quality_score
                  decision reasoning issues_found confidence judge_model w) = false
           /\ select_quality id
                (db (snd (save_quality_score UUID json_dumps document_id
                            overall_score completeness_score accuracy_score
                            compliance_score quality_score decision reasoning
                            issues_found confidence judge_model w))) = [])
    /\ (forall routing_action routing_reason wms_integration_status
               wms_integration_data human_review_required,
           fst (save_routing_decision UUID json_dumps document_id routing_action
                  routing_reason wms_integration_status wms_integration_data
                  human_review_required w) = false
           /\ select_routing id
                (db (snd (save_routing_decision UUID json_dumps document_id
                            routing_action routing_reason wms_integration_status
                            wms_integration_data human_review_required w))) = []).
Proof.
  intros document_id id w rest Huuid Hfaults.
  destruct w as [d fs]. cbn in Hfaults. subst fs.
  unfold save_extraction_result, save_quality_score, save_routing_decision.
  db_steps. rewrite Huuid. cbn.
  split; [|split]; intros; (split; [reflexivity|]).
  - unfold extraction_rows, delete_extraction. cbn.
    apply (filter_filter_negb _
             (fun r => String.eqb (er_document_id r) id && String.eqb (er_stage r) stage)).
  - unfold select_quality, delete_quality. cbn.
    apply (filter_filter_negb _ (fun r => String.eqb (qs_document_id r) id)).
  - unfold select_routing, delete_routing. cbn.
    apply (filter_filter_negb _ (fun r => String.eqb (rd_document_id r) id)).
Qed.

Lemma filter_filter_disjoint :
  forall (A : Type) (f g : A -> bool) (l : list A),
    (forall x, f x = true -> g x = false) ->
    filter f (filter (fun x => negb (g x)) l) = filter f l.
Proof.
  intros A f g l H. induction l as [|x l IH]; [reflexivity|].
  cbn. destruct (g x) eqn:Hg; cbn.
  - destruct (f x) eqn:Hf; [|exact IH]. rewrite (H x Hf) in Hg. discriminate.
  - destruct (f x); [f_equal|]; exact IH.
Qed.

(** X17.  [save_extraction_result] touches the rows of its own key only:
    whatever the connection does, the other tables are as before, and so
    are the extraction results of every other document and of every other
    stage of the document. *)
Theorem save_extraction_result_keeps_other_results :
  forall document_id stage raw_data processed_data confidence_score
         processing_time_ms model_used metadata w,
    let w1 := snd (save_extraction_result UUID json_dumps document_id stage
                     raw_data processed_data confidence_score processing_time_ms
                     model_used metadata w) in
    documents (db w1) = documents (db w)
    /\ processing_stages (db w1) = processing_stages (db w)
    /\ quality_scores (db w1) = quality_scores (db w)
    /\ routing_decisions (db w1) = routing_decisions (db w)
    /\ forall id' stage',
         UUID document_id <> Some id' \/ stage' <> stage ->
         extraction_rows id' stage' (db w1) = extraction_rows id' stage' (db w).
Proof.
  intros document_id stage raw_data processed_data confidence_score
         processing_time_ms model_used metadata w.
  unfold save_extraction_result. db_steps.
  destruct (UUID document_id) as [id|]; [|cbn; repeat split].
  assert (Hdisjoint :
            forall id' stage', Some id <> Some id' \/ stage' <> stage ->
              forall r : extraction_row,
                String.eqb (er_document_id r) id' && String.eqb (er_stage r) stage' = true ->
                String.eqb (er_document_id r) id && String.eqb (er_stage r) stage = false).
  { intros id' stage' Hother r Hr. apply andb_prop in Hr. destruct Hr as [H1 H2].
    apply String.eqb_eq in H1. apply String.eqb_eq in H2.
    apply andb_false_iff.
    destruct Hother as [Hid|Hstage].
    - left. apply String.eqb_neq. congruence.
    - right. apply String.eqb_neq. congruence. }
  destruct w as [d [|[|] [|[|] fs]]]; cbn; repeat split; intros id' stage' Hother;
    unfold extraction_rows, delete_extraction, insert_extraction; cbn;
    rewrite ?filter_app; cbn;
    try (replace (String.eqb id id' && String.eqb stage stage') with false
          by (symmetry; apply andb_false_iff;
              destruct Hother as [Hid|Hstage];
              [left; apply String.eqb_neq; congruence
              |right; apply String.eqb_neq; congruence]));
    rewrite ?app_nil_r;
    apply (filter_filter_disjoint _ _
             (fun r => String.eqb (er_document_id r) id && String.eqb (er_stage r) stage));
    apply (Hdisjoint id' stage' Hother).
Qed.

Lemma select_document_upsert_fresh :
  forall row now d,
    (forall r, In r (documents d) -> d_id r <> d_id row) ->
    select_document (d_id row) (upsert_document row now d) = [row].
Proof.
  intros row now d Hnone. unfold select_document, upsert_document. cbn [documents].
  assert (Hex : existsb (fun r => String.eqb (d_id r) (d_id row)) (documents d) = false).
  { apply not_true_is_false. intros H. apply existsb_exists in H.
    destruct H as (r & Hr & He). apply String.eqb_eq in He. exact (Hnone r Hr He). }
  rewrite Hex, filter_app. rewrite filter_none.
  - cbn. now rewrite String.eqb_refl.
  - intros r Hr. apply String.eqb_neq. now apply Hnone.
Qed.

(** X18.  A document created under an id that has no row and no stage
    record yet, with a user id that [int] converts when [isdigit] accepts
    it, is read back by [get_document_status] (the statements being
    executed) as [uploaded], with the file name, the type and the upload
    time given, progress 0 and current stage ["Preprocessing"].  With a
    user id that [isdigit] accepts and [int] refuses, [create_document]
    returns [False] and executes no statement. *)
Theorem create_document_then_get_document_status :
  forall document_id id w filename file_path file_type file_size user_id
         document_type metadata now,
    UUID document_id = Some id ->
    faults w = [] ->
    (forall r, In r (documents (db w)) -> d_id r <> id) ->
    (forall r, In r (processing_stages (db w)) -> ps_document_id r <> id) ->
    let created := create_document UUID str_isdigit int_of_str json_dumps
                     document_id filename file_path file_type file_size user_id
                     document_type metadata now w in
    (user_id_converts user_id ->
     fst created = true
     /\ exists view,
          get_document_status UUID json_loads document_id (snd created)
          = (Some view, snd created)
          /\ DocumentDB.document_id view = id
          /\ document_status view = "uploaded"
          /\ DocumentDB.filename view = filename
          /\ DocumentDB.document_type view = document_type
          /\ upload_timestamp view = now
          /\ progress view = 0
          /\ current_stage view = "Preprocessing")
    /\ (str_isdigit user_id = true -> int_of_str user_id = None ->
        created = (false, w)).
Proof.
  intros document_id id w filename file_path file_type file_size user_id
         document_type metadata now Huuid Hfaults Hdocs Hstages created.
  subst created. split.
  - intros Hconverts.
    destruct w as [d fs]. cbn in Hfaults, Hdocs, Hstages. subst fs.
    unfold create_document. db_steps. rewrite Huuid.
    rewrite (user_id_value user_id Hconverts). cbn [faults db fst snd].
    split; [reflexivity|].
    unfold get_document_status. db_steps. rewrite Huuid. cbn [faults db fst snd].
    set (row := mkDocument id filename file_path file_type file_size
                  (user_of user_id) "uploaded" "uploaded" document_type
                  (json_dumps (or_empty metadata)) now now now).
    change (select_document id (upsert_document row now d))
      with (select_document (d_id row) (upsert_document row now d)).
    rewrite (select_document_upsert_fresh row now d Hdocs).
    assert (Hnone : select_stages id (upsert_document row now d) = []).
    { unfold select_stages, upsert_document. cbn [processing_stages].
      rewrite filter_none; [reflexivity|].
      intros r Hr. apply String.eqb_neq. now apply Hstages. }
    cbn [faults db fst snd]. rewrite Hnone. cbn.
    eexists. split; [reflexivity|]. cbn. repeat split.
  - intros Hdigit Hint. unfold create_document. db_steps.
    rewrite Huuid, Hdigit, Hint. reflexivity.
Qed.

Lemma map_map_same :
  forall (A B : Type) (f : A -> A) (g : A -> B) (l : list A),
    (forall x, g (f x) = g x) -> map g (map f l) = map g l.
Proof.
  intros A B f g l H. rewrite map_map. apply map_ext. exact H.
Qed.

(** X19.  [create_document] on an id that already has a row, with a user
    id that [int] converts when [isdigit] accepts it, is an update of the
    file columns only: no row is added, every row keeps its status and its
    processing stage, and the rows of the id carry the new file name and
    path. *)
Theorem create_document_again_keeps_status :
  forall document_id id w filename file_path file_type file_size user_id
         document_type metadata now doc,
    UUID document_id = Some id ->
    hd false (faults w) = false ->
    In doc (documents (db w)) -> d_id doc = id ->
    user_id_converts user_id ->
    let w1 := snd (create_document UUID str_isdigit int_of_str json_dumps
                     document_id filename file_path file_type file_size user_id
                     document_type metadata now w) in
    fst (create_document UUID str_isdigit int_of_str json_dumps document_id
           filename file_path file_type file_size user_id document_type metadata
           now w) = true
    /\ map d_id (documents (db w1)) = map d_id (documents (db w))
    /\ map d_status (documents (db w1)) = map d_status (documents (db w))
    /\ map d_processing_stage (documents (db w1))
       = map d_processing_stage (documents (db w))
    /\ forall r, In r (documents (db w1)) -> d_id r = id ->
                 d_filename r = filename /\ d_file_path r = file_path
                 /\ d_updated_at r = now.
Proof.
  intros document_id id w filename file_path file_type file_size user_id
         document_type metadata now doc Huuid Hfaults Hin Hid Hconverts.
  assert (Hex : existsb (fun r => String.eqb (d_id r) id) (documents (db w)) = true).
  { apply existsb_exists. exists doc. split; [assumption|]. now apply String.eqb_eq. }
  unfold create_document. db_steps. rewrite Huuid.
  rewrite (user_id_value user_id Hconverts).
  destruct w as [d [|[|] rest]]; cbn in Hfaults, Hex, Hin |- *; try discriminate;
    unfold upsert_document; cbn [d_id documents]; rewrite Hex;
    (split; [reflexivity|]);
    (split; [apply map_map_same; intros r; now destruct (String.eqb (d_id r) id)|]);
    (split; [apply map_map_same; intros r; now destruct (String.eqb (d_id r) id)|]);
    (split; [apply map_map_same; intros r; now destruct (String.eqb (d_id r) id)|]);
    intros r Hr Hrid; apply in_map_iff in Hr; destruct Hr as (r0 & <- & _);
    (destruct (String.eqb_spec (d_id r0) id) as [_|Hne];
     [cbn; repeat split | contradiction]).
Qed.


Lemma get_document_status_view :
  forall document_id w view w',
    get_document_status UUID json_loads document_id w = (Some view, w') ->
    exists id,
      UUID document_id = Some id
      /\ progress_of (completed_stages (select_stages id (db w)))
                     (Z.of_nat (List.length (select_stages id (db w))))
         = Some (progress view)
      /\ current_stage view = current_stage_of (select_stages id (db w)).
Proof.
  intros document_id w view w'.
  unfold get_document_status. db_steps.
  destruct (UUID document_id) as [id|]; [|discriminate].
  destruct w as [d [|[|] [|[|] rest]]]; cbn [faults db];
    try discriminate;
    (destruct (select_document id d) as [|doc docs]; [discriminate|]);
    cbn [faults db]; try discriminate;
    (destruct (progress_of _ _) as [p|] eqn:Hp; [|discriminate]);
    intros H; inversion H; subst; cbn;
    exists id; (split; [reflexivity|]); split; reflexivity || exact Hp.
Qed.

Lemma filter_length_all :
  forall (A : Type) (f : A -> bool) (l : list A),
    List.length (filter f l) = List.length l <-> Forall (fun x => f x = true) l.
Proof.
  intros A f l. induction l as [|x l IH]; cbn.
  - split; [constructor|reflexivity].
  - pose proof (filter_length_le f l) as Hle.
    destruct (f x) eqn:Hx; cbn.
    + split.
      * intros [= H]. constructor; [assumption|now apply IH].
      * intros H. inversion H; subst. f_equal. now apply IH.
    + split; [lia|]. intros H. inversion H; subst. congruence.
Qed.

Lemma progress_of_full :
  forall t : nat,
    (1 <= t <= checked_stage_records)%nat ->
    progress_of (Z.of_nat t) (Z.of_nat t) = Some 100
    /\ exists p, progress_of (Z.of_nat (t - 1)) (Z.of_nat t) = Some p /\ 0 <= p < 100.
Proof.
  intros t Ht.
  pose proof progress_full_checked as Hall. rewrite forallb_forall in Hall.
  assert (Hin : In t (seq 1 checked_stage_records)) by (apply in_seq; lia).
  specialize (Hall t Hin). unfold progress_full_ok in Hall.
  destruct (progress_of (Z.of_nat t) (Z.of_nat t)) as [p|]; [|discriminate].
  destruct (progress_of (Z.of_nat (t - 1)) (Z.of_nat t)) as [p'|]; [|discriminate].
  apply andb_prop in Hall. destruct Hall as [Hall H3].
  apply andb_prop in Hall. destruct Hall as [H1 H2].
  apply Z.eqb_eq in H1. apply Z.leb_le in H2. apply Z.ltb_lt in H3.
  split; [now subst|]. exists p'. split; [reflexivity|lia].
Qed.

(** X21.  For a document with at most [checked_stage_records] stage
    records, the progress that [get_document_status] returns lies between
    0 and 100, and it is 100 exactly when the document has a stage record
    and all its stage records are [completed]. *)
Theorem progress_is_100_iff_all_stages_completed :
  forall document_id id w view w',
    UUID document_id = Some id ->
    (List.length (select_stages id (db w)) <= checked_stage_records)%nat ->
    get_document_status UUID json_loads document_id w = (Some view, w') ->
    0 <= progress view <= 100
    /\ (progress view = 100
        <-> select_stages id (db w) <> []
            /\ Forall (fun s => sd_status s = "completed") (select_stages id (db w))).
Proof.
  intros document_id id w view w' Huuid Hbound Hget.
  destruct (get_document_status_view _ _ _ _ Hget) as (id0 & Hid0 & Hp & _).
  rewrite Huuid in Hid0. injection Hid0 as <-.
  set (stages := select_stages id (db w)) in *.
  assert (Hall : completed_stages stages = Z.of_nat (List.length stages)
                 <-> Forall (fun s => sd_status s = "completed") stages).
  { unfold completed_stages.
    rewrite Nat2Z.inj_iff, filter_length_all.
    split; intros H; eapply Forall_impl; try exact H; intros s Hs;
      now apply String.eqb_eq. }
  pose proof (completed_stages_bounds stages) as Hc.
  unfold completed_stages in Hp, Hc, Hall.
  set (c := List.length (filter (fun s => String.eqb (sd_status s) "completed") stages))
    in *.
  destruct (List.length stages) as [|t'] eqn:Hlen.
  - (* no record *)
    apply length_zero_iff_nil in Hlen.
    assert (Hc0 : c = 0%nat) by lia. rewrite Hc0 in Hp. cbn in Hp.
    injection Hp as <-. split; [lia|]. split; [discriminate|]. intros [Hne _].
    contradiction.
  - set (t := S t') in *.
    assert (Hne : stages <> []) by (intros E; rewrite E in Hlen; discriminate).
    destruct (progress_of_full t) as (Hfull & q & Hq & Hqb); [lia|].
    destruct (Nat.eq_dec c t) as [Hct|Hct].
    + rewrite Hct, Hfull in Hp. injection Hp as <-. split; [lia|].
      split; [intros _; split; [exact Hne|apply Hall; now rewrite Hct] | reflexivity].
    + assert (Hlt : (c <= t - 1 <= t)%nat) by lia.
      pose proof (progress_of_monotone t c (t - 1) (progress view) q
                    ltac:(lia) Hlt Hp Hq) as Hle.
      assert (H0 : 0 <= progress view).
      { assert (Hz : exists p0, progress_of (Z.of_nat 0) (Z.of_nat t) = Some p0 /\ 0 <= p0).
        { pose proof progress_steps_checked as Hs. unfold progress_steps_ok in Hs.
          rewrite forallb_forall in Hs.
          assert (Hin : In t (seq 0 (S checked_stage_records))) by (apply in_seq; lia).
          specialize (Hs t Hin). rewrite forallb_forall in Hs.
          assert (Hin0 : In 0%nat (seq 0 t)) by (apply in_seq; lia).
          specialize (Hs 0%nat Hin0). unfold progress_step_ok in Hs.
          destruct (progress_of (Z.of_nat 0) (Z.of_nat t)) as [p0|]; [|discriminate].
          destruct (progress_of (Z.of_nat 1) (Z.of_nat t)) as [p1|]; [|discriminate].
          apply andb_prop in Hs. destruct Hs as [Hs _].
          apply andb_prop in Hs. destruct Hs as [_ Hs].
          apply Z.leb_le in Hs. eauto. }
        destruct Hz as (p0 & Hp0 & Hp0b).
        pose proof (progress_of_monotone t 0 c p0 (progress view)
                      ltac:(lia) ltac:(lia) Hp0 Hp). lia. }
      split; [lia|]. split; [lia|]. intros [_ Hf]. apply Hall in Hf.
      apply Nat2Z.inj in Hf. contradiction.
Qed.

(** X22.  The current stage that [get_document_status] returns is named
    after the first stage record, in the order of creation, that is
    [processing] or [pending]; when no record is (all stages completed or
    failed, or no record at all), it is ["Preprocessing"]. *)
Theorem current_stage_is_first_unfinished_stage :
  forall document_id id w view w',
    UUID document_id = Some id ->
    get_document_status UUID json_loads document_id w = (Some view, w') ->
    (forall before s after,
        select_stages id (db w) = before ++ s :: after ->
        (forall s', In s' before -> ~ unfinished s') ->
        unfinished s ->
        current_stage view = title (replace_char "_" " " (sd_stage_name s)))
    /\ ((forall s, In s (select_stages id (db w)) -> ~ unfinished s) ->
        current_stage view = "Preprocessing").
Proof.
  intros document_id id w view w' Huuid Hget.
  destruct (get_document_status_view _ _ _ _ Hget) as (id0 & Hid0 & _ & Hcurrent).
  rewrite Huuid in Hid0. injection Hid0 as <-. rewrite Hcurrent. clear Hcurrent Hget.
  assert (Hskip : forall s, ~ unfinished s ->
                    String.eqb (sd_status s) "processing" = false
                    /\ String.eqb (sd_status s) "pending" = false).
  { intros s Hs. unfold unfinished in Hs.
    split; apply String.eqb_neq; intros H; apply Hs; [left|right]; exact H. }
  split.
  - intros before s after -> Hbefore Hs.
    induction before as [|b before IH]; cbn [app current_stage_of].
    + destruct Hs as [Hs|Hs]; rewrite Hs; cbn.
      * reflexivity.
      * reflexivity.
    + destruct (Hskip b (Hbefore b (or_introl eq_refl))) as [-> ->].
      apply IH. intros s' Hs'. apply Hbefore. now right.
  - generalize (select_stages id (db w)). intros stages Hnone.
    induction stages as [|b stages IH]; [reflexivity|].
    cbn [current_stage_of].
    destruct (Hskip b (Hnone b (or_introl eq_refl))) as [-> ->].
    apply IH. intros s Hs. apply Hnone. now right.
Qed.

End Facts.

Lemma invalid_document_id_reaches_no_statement_witness :
  example_UUID "invoice-17" = None
  /\ update_document_status example_UUID "invoice-17" "failed" None
       "2025-01-01T00:00:09" uploaded = (false, uploaded)
  /\ get_document_status example_UUID example_loads "invoice-17" uploaded
     = (None, uploaded).
Proof.
  pose proof (invalid_document_id_reaches_no_statement example_UUID
                example_isdigit example_int example_dumps example_loads
                "invoice-17" uploaded eq_refl) as H.
  split; [reflexivity|]. split.
  - exact (proj1 (proj2 H) "failed" None "2025-01-01T00:00:09").
  - exact (proj1 (proj2 (proj2 (proj2 (proj2 H))))).
Defined.

(** The stage records of an uploaded document have not been created:
    completing its preprocessing stage changes nothing and reports
    success. *)
Lemma update_of_missing_record_returns_true_witness :
  example_UUID invoice = Some invoice
  /\ hd false (faults uploaded) = false
  /\ fst (update_processing_stage example_UUID example_dumps invoice
            "preprocessing" "completed" None (Some 120) None
            "2025-01-01T00:00:02" uploaded) = true
  /\ db (snd (update_processing_stage example_UUID example_dumps invoice
                "preprocessing" "completed" None (Some 120) None
                "2025-01-01T00:00:02" uploaded)) = db uploaded.
Proof.
  split; [reflexivity|]. split; [reflexivity|].
  apply (proj2 (update_of_missing_record_returns_true example_UUID example_dumps
                  invoice invoice uploaded eq_refl eq_refl)).
  intros r [].
Defined.

(** The connection executes one statement and fails at the next. *)
Definition failing_after_one (w : world) : world := mkWorld (db w) [false; true].

Lemma failed_insert_after_delete_loses_saved_result_witness :
  example_UUID invoice = Some invoice
  /\ faults (failing_after_one saved_once) = [false; true]
  /\ List.length (select_quality invoice (db (failing_after_one saved_once))) = 1%nat
  /\ fst (save_quality_score example_UUID example_dumps invoice
            0%float 0%float 0%float 0%float 0%float "REVIEW_REQUIRED" (JDict []) []
            0%float "judge" (failing_after_one saved_once)) = false
  /\ select_quality invoice
       (db (snd (save_quality_score example_UUID example_dumps invoice
                   0%float 0%float 0%float 0%float 0%float "REVIEW_REQUIRED"
                   (JDict []) [] 0%float "judge" (failing_after_one saved_once))))
     = [].
Proof.
  split; [reflexivity|]. split; [reflexivity|]. split; [reflexivity|].
  exact (proj1 (proj2 (failed_insert_after_delete_loses_saved_result example_UUID
                         example_dumps invoice invoice (failing_after_one saved_once)
                         [] eq_refl eq_refl))
           0%float 0%float 0%float 0%float 0%float "REVIEW_REQUIRED" (JDict []) []
           0%float "judge").
Defined.

(** A user id that [isdigit] accepts and [int] refuses: a superscript
    two, in UTF-8. *)
Definition superscript_two : string :=
  String (ascii_of_nat 194) (String (ascii_of_nat 178) EmptyString).

Definition unicode_isdigit (s : string) : bool :=
  isdigit s || String.eqb s superscript_two.

Definition unicode_int (s : string) : option Z :=
  if isdigit s then Some (int_of_digits 0 s) else None.

Lemma create_document_then_get_document_status_witness :
  example_UUID invoice = Some invoice
  /\ faults empty_world = []
  /\ user_id_converts example_isdigit example_int "42"
  /\ (exists view,
        get_document_status example_UUID example_loads invoice uploaded
        = (Some view, uploaded)
        /\ document_status view = "uploaded"
        /\ filename view = "invoice.pdf"
        /\ progress view = 0)
  /\ unicode_isdigit superscript_two = true
  /\ unicode_int superscript_two = None
  /\ create_document example_UUID unicode_isdigit unicode_int example_dumps
       invoice "invoice.pdf" "data/uploads/invoice.pdf" "application/pdf" 1024
       superscript_two "invoice" None "2025-01-01T00:00:00" empty_world
     = (false, empty_world).
Proof.
  assert (Hconverts : user_id_converts example_isdigit example_int "42")
    by (intros _; vm_compute; discriminate).
  split; [reflexivity|]. split; [reflexivity|]. split; [exact Hconverts|].
  split.
  - destruct (proj1 (create_document_then_get_document_status example_UUID
                       example_isdigit example_int example_dumps example_loads
                       invoice invoice empty_world "invoice.pdf"
                       "data/uploads/invoice.pdf" "application/pdf" 1024 "42"
                       "invoice" None "2025-01-01T00:00:00" eq_refl eq_refl
                       (fun r (H : In r []) => match H with end)
                       (fun r (H : In r []) => match H with end))
                Hconverts)
      as (_ & view & Hget & _ & Hstatus & Hname & _ & _ & Hprogress & _).
    exists view. repeat split; assumption.
  - split; [reflexivity|]. split; [reflexivity|].
    exact (proj2 (create_document_then_get_document_status example_UUID
                    unicode_isdigit unicode_int example_dumps example_loads
                    invoice invoice empty_world "invoice.pdf"
                    "data/uploads/invoice.pdf" "application/pdf" 1024
                    superscript_two "invoice" None "2025-01-01T00:00:00" eq_refl
                    eq_refl
                    (fun r (H : In r []) => match H with end)
                    (fun r (H : In r []) => match H with end))
             eq_refl eq_refl).
Defined.

Lemma create_document_again_keeps_status_witness :
  example_UUID invoice = Some invoice
  /\ user_id_converts example_isdigit example_int "42"
  /\ map d_status (documents (db preprocessing_completed)) = ["preprocessing"]
  /\ map d_status
       (documents
          (db (snd (create_document example_UUID example_isdigit example_int
                      example_dumps invoice "again.pdf" "data/uploads/again.pdf"
                      "application/pdf" 2048 "42" "invoice" None
                      "2025-01-01T00:00:05" preprocessing_completed))))
     = map d_status (documents (db preprocessing_completed)).
Proof.
  assert (Hconverts : user_id_converts example_isdigit example_int "42")
    by (intros _; vm_compute; discriminate).
  split; [reflexivity|]. split; [exact Hconverts|]. split; [reflexivity|].
  refine (proj1 (proj2 (proj2 (create_document_again_keeps_status example_UUID
                                 example_isdigit example_int example_dumps invoice
                                 invoice preprocessing_completed
                                 "again.pdf" "data/uploads/again.pdf"
                                 "application/pdf" 2048 "42" "invoice" None
                                 "2025-01-01T00:00:05"
                                 (hd uploaded_row
                                     (documents (db preprocessing_completed)))
                                 eq_refl eq_refl _ eq_refl Hconverts)))).
  vm_compute. left. reflexivity.
Defined.


Lemma progress_is_100_iff_all_stages_completed_witness :
  exists view,
    get_document_status example_UUID example_loads invoice ocr_begun
    = (Some view, ocr_begun)
    /\ 0 <= progress view <= 100
    /\ (progress view = 100
        <-> select_stages invoice (db ocr_begun) <> []
            /\ Forall (fun s => sd_status s = "completed")
                      (select_stages invoice (db ocr_begun))).
Proof.
  eexists. split; [vm_compute; reflexivity|].
  apply (progress_is_100_iff_all_stages_completed example_UUID example_loads invoice
           invoice ocr_begun _ ocr_begun eq_refl).
  - vm_compute. lia.
  - vm_compute. reflexivity.
Defined.

Lemma current_stage_is_first_unfinished_stage_witness :
  exists view,
    get_document_status example_UUID example_loads invoice ocr_begun
    = (Some view, ocr_begun)
    /\ current_stage view = "Ocr Extraction".
Proof.
  eexists. split; [vm_compute; reflexivity|].
  refine (proj1 (current_stage_is_first_unfinished_stage example_UUID example_loads
                   invoice invoice ocr_begun _ ocr_begun eq_refl _)
            [mkStageDict "preprocessing" "completed" (Some "2025-01-01T00:00:01")
               (Some "2025-01-01T00:00:02") None None (Text "{}")]
            (mkStageDict "ocr_extraction" "processing" (Some "2025-01-01T00:00:03")
               None None None (Text "{}"))
            [] _ _ _).
  - vm_compute. reflexivity.
  - vm_compute. reflexivity.
  - intros s' [<-|[]] [H|H]; discriminate H.
  - left. reflexivity.
Defined.

End DocumentDBFacts.

(* ================================================================== *)
(** * src/api/utils/log_utils.py *)
(* ================================================================== *)

Module LogUtils.

(** A Python [str]: its code points, each below [0x110000]. *)
Definition str : Type := list N.

(** The code points of an ASCII literal. *)
Definition codes (s : string) : str := map N_of_ascii (list_ascii_of_string s).

(** [s[:stop]]: a negative [stop] counts from the end. *)
Definition slice_to (s : str) (stop : Z) : str :=
  if 0 <=? stop then firstn (Z.to_nat stop) s
  else firstn (Z.to_nat (Z.of_nat (List.length s) + stop)) s.

(** The class [[\x00-\x1f]]. *)
Definition is_control (c : N) : bool := (c <=? 31)%N.

(** [re.search(r'[\x00-\x1f]', s)] finds a match. *)
Definition has_control (s : str) : bool := existsb is_control s.

(** [re.sub(r'[\x00-\x1f]', '', s)] *)
Definition remove_control (s : str) : str :=
  filter (fun c => negb (is_control c)) s.

(** [re.sub(r'[\r\n]', '', s)] *)
Definition remove_newlines (s : str) : str :=
  filter (fun c => negb ((c =? 13) || (c =? 10))%N) s.

(** The UTF-8 bytes of a code point; [None] stands for the
    [UnicodeEncodeError] raised on a surrogate. *)
Definition utf8 (c : N) : option (list N) :=
  (if c <? 128 then Some [c]
   else if c <? 2048 then Some [192 + c / 64; 128 + c mod 64]
   else if (55296 <=? c) && (c <=? 57343) then None
   else if c <? 65536
   then Some [224 + c / 4096; 128 + (c / 64) mod 64; 128 + c mod 64]
   else Some [240 + c / 262144; 128 + (c / 4096) mod 64; 128 + (c / 64) mod 64;
              128 + c mod 64])%N.

(** [s.encode('utf-8')] *)
Fixpoint encode_utf8 (s : str) : option (list N) :=
  match s with
  | [] => Some []
  | c :: rest =>
      match utf8 c, encode_utf8 rest with
      | Some bytes, Some more => Some (bytes ++ more)
      | _, _ => None
      end
  end.

(** The character of the Base64 alphabet for a group of six bits. *)
Definition b64_char (i : N) : N :=
  (if i <? 26 then 65 + i
   else if i <? 52 then 97 + (i - 26)
   else if i <? 62 then 48 + (i - 52)
   else if i =? 62 then 43
   else 47)%N.

(** [base64.b64encode(bytes).decode('ascii')]: three bytes give four
    characters, and the last group is padded with [=]. *)
Fixpoint b64encode (bytes : list N) : str :=
  (match bytes with
   | [] => []
   | [a] => [b64_char (a / 4); b64_char ((a mod 4) * 16); 61; 61]
   | [a; b] =>
       [b64_char (a / 4); b64_char ((a mod 4) * 16 + b / 16);
        b64_char ((b mod 16) * 4); 61]
   | a :: b :: c :: rest =>
       b64_char (a / 4) :: b64_char ((a mod 4) * 16 + b / 16)
       :: b64_char ((b mod 16) * 4 + c / 64) :: b64_char (c mod 64)
       :: b64encode rest
   end)%N.

(** [sanitize_log_data(data, max_length)]; [data] is [None] or what
    [str(data)] gives. *)
Definition sanitize_log_data (data : option str) (max_length : Z) : str :=
  match data with
  | None => codes "None"
  | Some data_str =>
      let data_str :=
        if max_length <? Z.of_nat (List.length data_str)
        then slice_to data_str max_length ++ codes "...[truncated]"
        else data_str in
      if has_control data_str then
        match encode_utf8 data_str with
        | Some bytes => codes "[base64:" ++ b64encode bytes ++ codes "]"
        | None => remove_newlines (remove_control data_str)
        end
      else remove_newlines data_str
  end.

(** ** Properties *)

Lemma b64_char_printable : forall i, is_control (b64_char i) = false.
Proof.
  intros i. unfold is_control, b64_char.
  destruct (i <? 26)%N; [apply N.leb_gt; lia|].
  destruct (i <? 52)%N; [apply N.leb_gt; lia|].
  destruct (i <? 62)%N; [apply N.leb_gt; lia|].
  destruct (i =? 62)%N; reflexivity.
Qed.

Lemma b64encode_printable : forall bytes, has_control (b64encode bytes) = false.
Proof.
  unfold has_control.
  fix IH 1. intros [|a [|b [|c rest]]]; cbn [b64encode existsb];
    rewrite ?b64_char_printable; try reflexivity.
  cbn [orb]. apply IH.
Qed.

Lemma has_control_app :
  forall a b, has_control (a ++ b) = has_control a || has_control b.
Proof. intros a b. unfold has_control. apply existsb_app. Qed.

Lemma has_control_filter :
  forall f s, has_control s = false -> has_control (filter f s) = false.
Proof.
  intros f s. unfold has_control. induction s as [|c s IH]; [reflexivity|].
  cbn. intros H. apply orb_false_iff in H. destruct H as [Hc Hs].
  destruct (f c); cbn; [rewrite Hc|]; auto.
Qed.

Lemma has_control_remove_control : forall s, has_control (remove_control s) = false.
Proof.
  intros s. unfold has_control, remove_control. induction s as [|c s IH]; [reflexivity|].
  cbn. destruct (is_control c) eqn:Hc; cbn; [exact IH|]. now rewrite Hc.
Qed.

Lemma remove_newlines_clean :
  forall s, has_control s = false -> remove_newlines s = s.
Proof.
  intros s. unfold has_control, remove_newlines.
  induction s as [|c s IH]; [reflexivity|].
  cbn. intros H. apply orb_false_iff in H. destruct H as [Hc Hs].
  unfold is_control in Hc. apply N.leb_gt in Hc.
  replace ((c =? 13) || (c =? 10))%N with false.
  - cbn. f_equal. now apply IH.
  - symmetry. apply orb_false_iff. split; apply N.eqb_neq; lia.
Qed.

(** X23.  Whatever the data and the maximal length, what
    [sanitize_log_data] returns holds no control character: no code point
    below [0x20], so no line break with which a log entry could be forged. *)
Theorem sanitize_log_data_has_no_control_character :
  forall data max_length, has_control (sanitize_log_data data max_length) = false.
Proof.
  intros [data_str|] max_length; [|reflexivity].
  unfold sanitize_log_data.
  set (s := if max_length <? Z.of_nat (List.length data_str)
            then slice_to data_str max_length ++ codes "...[truncated]"
            else data_str).
  destruct (has_control s) eqn:Hs.
  - destruct (encode_utf8 s) as [bytes|].
    + rewrite !has_control_app, b64encode_printable. reflexivity.
    + apply has_control_filter, has_control_remove_control.
  - now apply has_control_filter.
Qed.

Lemma has_control_firstn :
  forall n s, has_control s = false -> has_control (firstn n s) = false.
Proof.
  unfold has_control. induction n as [|n IH]; intros [|c s]; cbn; try reflexivity.
  intros H. apply orb_false_iff in H. destruct H as [-> Hs]. cbn. now apply IH.
Qed.

(** X24.  Data without control characters is never encoded: it is
    returned as it is when it is not longer than [max_length], and cut
    (from the end, when [max_length] is negative) and marked as truncated
    when it is. *)
Theorem sanitize_log_data_keeps_clean_data :
  forall data_str max_length,
    has_control data_str = false ->
    (Z.of_nat (List.length data_str) <= max_length ->
     sanitize_log_data (Some data_str) max_length = data_str)
    /\ (max_length < Z.of_nat (List.length data_str) ->
        sanitize_log_data (Some data_str) max_length
        = slice_to data_str max_length ++ codes "...[truncated]").
Proof.
  intros data_str max_length Hclean. unfold sanitize_log_data. split; intros Hlen.
  - replace (max_length <? Z.of_nat (List.length data_str)) with false
      by (symmetry; apply Z.ltb_ge; lia).
    rewrite Hclean. now apply remove_newlines_clean.
  - replace (max_length <? Z.of_nat (List.length data_str)) with true
      by (symmetry; apply Z.ltb_lt; lia).
    assert (H : has_control (slice_to data_str max_length ++ codes "...[truncated]")
                = false).
    { rewrite has_control_app. apply orb_false_iff. split; [|reflexivity].
      unfold slice_to. destruct (0 <=? max_length); now apply has_control_firstn. }
    rewrite H. now apply remove_newlines_clean.
Qed.

Lemma sanitize_log_data_keeps_clean_data_witness :
  has_control (codes "invoice.pdf") = false
  /\ sanitize_log_data (Some (codes "invoice.pdf")) 500 = codes "invoice.pdf"
  /\ sanitize_log_data (Some (codes "invoice.pdf")) 7 = codes "invoice...[truncated]"
  /\ sanitize_log_data (Some (codes "invoice.pdf")) (-4) = codes "invoice...[truncated]".
Proof.
  split; [reflexivity|].
  split; [|split].
  - apply (proj1 (sanitize_log_data_keeps_clean_data (codes "invoice.pdf") 500
                    eq_refl)).
    cbn. lia.
  - rewrite (proj2 (sanitize_log_data_keeps_clean_data (codes "invoice.pdf") 7
                      eq_refl)); [reflexivity|cbn; lia].
  - rewrite (proj2 (sanitize_log_data_keeps_clean_data (codes "invoice.pdf") (-4)
                      eq_refl)); [reflexivity|cbn; lia].
Defined.

(** A forged second log line is returned encoded. *)
Example sanitize_log_data_encodes_line_break :
  sanitize_log_data (Some (codes "a" ++ [10%N] ++ codes "INFO ok")) 500
  = codes "[base64:YQpJTkZPIG9r]".
Proof. vm_compute. reflexivity. Qed.

End LogUtils.

(* ================================================================== *)
(** * The stored file name of upload_document (src/api/routers/document.py) *)
(* ================================================================== *)

Module Upload.
Import Py DocumentDB.

(** The backslash. *)
Definition backslash : ascii := ascii_of_nat 92.

(** ['/' in p] *)
Fixpoint has_slash (p : string) : bool :=
  match p with
  | EmptyString => false
  | String c rest => Ascii.eqb c "/" || has_slash rest
  end.

(** [os.path.basename(p)] of [posixpath]: what follows the last slash. *)
Fixpoint basename (p : string) : string :=
  match p with
  | EmptyString => EmptyString
  | String c rest =>
      if has_slash rest then basename rest
      else if Ascii.eqb c "/" then rest
      else p
  end.

(** [s.replace("..", empty)]: the occurrences are found from the left
    and do not overlap. *)
Fixpoint remove_dotdot (s : string) : string :=
  match s with
  | EmptyString => EmptyString
  | String c rest =>
      match rest with
      | String c' rest' =>
          if Ascii.eqb c "." && Ascii.eqb c' "."
          then remove_dotdot rest'
          else String c (remove_dotdot rest)
      | EmptyString => String c EmptyString
      end
  end.

(** The name under which [upload_document] stores the file: the
    [os.path.basename] of [file.filename], with [".."] removed and then
    ["/"] and the backslash replaced by ["_"]. *)
Definition safe_filename (filename : string) : string :=
  replace_char backslash "_"
    (replace_char "/" "_" (remove_dotdot (basename filename))).

(** [sub in s] *)
Definition occurs (sub s : string) : Prop :=
  exists before after, s = String.append before (String.append sub after).

(** ** Properties *)

Lemma has_slash_basename : forall p, has_slash (basename p) = false.
Proof.
  induction p as [|c rest IH]; [reflexivity|].
  cbn [basename]. destruct (has_slash rest) eqn:Hrest; [exact IH|].
  destruct (Ascii.eqb c "/") eqn:Hc; [exact Hrest|].
  cbn [has_slash]. now rewrite Hc, Hrest.
Qed.

(** No two dots in a row. *)
Fixpoint no_dotdot (s : string) : Prop :=
  match s with
  | EmptyString => True
  | String c rest =>
      match rest with
      | String c' _ => ~ (c = "."%char /\ c' = "."%char)
      | EmptyString => True
      end
      /\ no_dotdot rest
  end.

Lemma remove_dotdot_step :
  forall c c' rest',
    remove_dotdot (String c (String c' rest'))
    = if Ascii.eqb c "." && Ascii.eqb c' "."
      then remove_dotdot rest'
      else String c (remove_dotdot (String c' rest')).
Proof. reflexivity. Qed.

Lemma remove_dotdot_no_dotdot :
  forall n s,
    (String.length s <= n)%nat ->
    no_dotdot (remove_dotdot s)
    /\ forall c rest, s = String c rest -> c <> "."%char ->
                      exists rest', remove_dotdot s = String c rest'.
Proof.
  induction n as [|n IH]; intros s Hlen.
  - destruct s; [|cbn in Hlen; lia]. split; [exact I|]. intros c rest H. discriminate.
  - destruct s as [|c [|c' rest']].
    + split; [exact I|]. intros c rest H. discriminate.
    + split; [cbn; auto|]. intros c0 rest0 [= <- <-] _. now eexists.
    + rewrite remove_dotdot_step.
      destruct (Ascii.eqb_spec c ".") as [Hc|Hc]; cbn [andb].
      * destruct (Ascii.eqb_spec c' ".") as [Hc'|Hc'].
        -- split.
           ++ apply (IH rest'). cbn in Hlen. lia.
           ++ intros c0 rest0 [= <- <-] Hne. contradiction.
        -- destruct (IH (String c' rest')) as [Hno Hhead]; [cbn in Hlen |- *; lia|].
           destruct (Hhead c' rest' eq_refl Hc') as (out & Hout).
           split.
           ++ cbn [no_dotdot]. rewrite Hout. split; [tauto|]. rewrite <- Hout. exact Hno.
           ++ intros c0 rest0 [= <- <-] _. now eexists.
      * destruct (IH (String c' rest')) as [Hno _]; [cbn in Hlen |- *; lia|].
        split.
        -- cbn [no_dotdot]. split; [|exact Hno].
           destruct (remove_dotdot (String c' rest')); [exact I|tauto].
        -- intros c0 rest0 [= <- <-] _. now eexists.
Qed.

Lemma replace_char_no_dotdot :
  forall a s, a <> "."%char -> no_dotdot s -> no_dotdot (replace_char a "_" s).
Proof.
  intros a s Ha. induction s as [|c [|c' rest] IH]; cbn [replace_char no_dotdot].
  - auto.
  - auto.
  - intros [Hcc Hrest]. split; [|exact (IH Hrest)].
    destruct (Ascii.eqb_spec c a) as [->|_]; [intros [H _]; discriminate|].
    destruct (Ascii.eqb_spec c' a) as [->|_]; [intros [_ H]; discriminate|].
    exact Hcc.
Qed.

Lemma no_dotdot_occurs : forall s, no_dotdot s -> ~ occurs ".." s.
Proof.
  intros s Hs (before & after & ->). revert Hs.
  induction before as [|c before IH]; cbn.
  - intros [H _]. apply H. now split.
  - intros [_ H]. exact (IH H).
Qed.

(** The characters of a string. *)
Fixpoint has_char (a : ascii) (s : string) : bool :=
  match s with
  | EmptyString => false
  | String c rest => Ascii.eqb c a || has_char a rest
  end.

Lemma has_char_occurs :
  forall a s, has_char a s = false -> ~ occurs (String a EmptyString) s.
Proof.
  intros a s Hs (before & after & ->). revert Hs.
  induction before as [|c before IH]; cbn.
  - now rewrite Ascii.eqb_refl.
  - intros H. apply orb_false_iff in H. exact (IH (proj2 H)).
Qed.

Lemma has_char_replace_char_same :
  forall a b s, a <> b -> has_char a (replace_char a b s) = false.
Proof.
  intros a b s Hab. induction s as [|c rest IH]; [reflexivity|].
  cbn. rewrite IH. destruct (Ascii.eqb_spec c a) as [->|Hc].
  - replace (Ascii.eqb b a) with false; [reflexivity|].
    symmetry. apply Ascii.eqb_neq. congruence.
  - replace (Ascii.eqb c a) with false; [reflexivity|].
    symmetry. now apply Ascii.eqb_neq.
Qed.

Lemma has_char_replace_char_other :
  forall a b x s,
    b <> x -> has_char x s = false -> has_char x (replace_char a b s) = false.
Proof.
  intros a b x s Hb. induction s as [|c rest IH]; [reflexivity|].
  cbn. intros H. apply orb_false_iff in H. destruct H as [Hc Hrest].
  rewrite (IH Hrest). destruct (Ascii.eqb c a); [|now rewrite Hc].
  replace (Ascii.eqb b x) with false; [reflexivity|].
  symmetry. now apply Ascii.eqb_neq.
Qed.

(** X25.  Whatever file name the client sends, the name under which
    [upload_document] stores the file holds no slash, no backslash and no
    [".."]: the stored file stays in the upload directory. *)
Theorem safe_filename_has_no_path_traversal :
  forall filename,
    ~ occurs "/" (safe_filename filename)
    /\ ~ occurs (String backslash EmptyString) (safe_filename filename)
    /\ ~ occurs ".." (safe_filename filename).
Proof.
  intros filename. unfold safe_filename. split; [|split].
  - apply has_char_occurs. apply has_char_replace_char_other; [discriminate|].
    apply has_char_replace_char_same. discriminate.
  - apply has_char_occurs. apply has_char_replace_char_same. discriminate.
  - apply no_dotdot_occurs.
    apply replace_char_no_dotdot; [discriminate|].
    apply replace_char_no_dotdot; [discriminate|].
    apply (remove_dotdot_no_dotdot (String.length (basename filename))). lia.
Qed.

Example safe_filename_values :
  safe_filename "invoice.pdf" = "invoice.pdf"
  /\ safe_filename "../../etc/passwd" = "passwd"
  /\ safe_filename "a/....pdf" = "pdf"
  /\ safe_filename "scan...png" = "scan.png"
  /\ safe_filename (String.append ".." (String backslash "x.png")) = "_x.png"
  /\ safe_filename "uploads/" = "".
Proof. vm_compute. repeat split. Qed.

End Upload.

(* ================================================================== *)
(** * Further properties of a pipeline run *)
(* ================================================================== *)

Module RouterFacts.
Import Py RetryHandler DocumentDB Router.

(** The calls that the three critical stages make while they succeed. *)
Definition critical_call (c : call) : bool :=
  let critical name :=
    String.eqb name "preprocessing" || String.eqb name "ocr_extraction"
    || String.eqb name "llm_processing" in
  match c with
  | MemorySetPreprocessing => true
  | UpdateProcessingStage stage_name status _ =>
      critical stage_name
      && (String.eqb status "processing" || String.eqb status "completed")
  | UpdateDocumentStatus status _ => critical status
  | MemoryStageCompleted stage_name _ _ => critical stage_name
  | ToolsUpdateDocumentStatus _ _ => false
  | ToolsStoreProcessingResults _ _ _ _ _ => false
  end.

(** One step of a run, spelled out. *)
Ltac run_step := cbv beta iota delta [and_then done calling raising fst snd].

Section Runs.

Variable sanitize_error_message : exn -> string -> string.
Variable use_database : bool.
Variable tracked : bool.

(** The calls of a stage that has completed. *)
Definition completed_calls (stage_name next_stage : string) (progress : Z)
  : list call :=
  when use_database [ UpdateProcessingStage stage_name "processing" None ]
  ++ _update_stage_completion use_database tracked stage_name next_stage progress.

Lemma execute_processing_stage_returned :
  forall stage_name next_stage progress processor_func result,
    stage_outcome processor_func = Returned result ->
    _execute_processing_stage sanitize_error_message use_database tracked
      stage_name next_stage progress processor_func
    = (Returned result, completed_calls stage_name next_stage progress).
Proof.
  intros stage_name next_stage progress processor_func result Hresult.
  unfold _execute_processing_stage, and_then, except_Exception, calling, done,
    completed_calls.
  cbn [fst snd]. rewrite Hresult. cbn [fst snd app].
  now rewrite !app_nil_r.
Qed.

Lemma execute_processing_stage_raised :
  forall stage_name next_stage progress processor_func e,
    stage_outcome processor_func = Raised e ->
    _execute_processing_stage sanitize_error_message use_database tracked
      stage_name next_stage progress processor_func
    = (Raised e,
       when use_database [ UpdateProcessingStage stage_name "processing" None ]
       ++ (if is_exception e
           then _handle_stage_error sanitize_error_message stage_name e
           else [])).
Proof.
  intros stage_name next_stage progress processor_func e Hraised.
  unfold _execute_processing_stage, and_then, except_Exception, calling, raising.
  cbn [fst snd]. rewrite Hraised. cbn [fst snd app].
  destruct (is_exception e); cbn [fst snd app]; reflexivity.
Qed.

(** The calls of a run up to the failure of a critical stage, the reports
    of the failure left out. *)
Definition calls_before_failure (p : processors) (file_path : string)
  : list call :=
  when tracked [ MemorySetPreprocessing ]
  ++ match stage_outcome (process_document p file_path) with
     | Raised _ =>
         when use_database [ UpdateProcessingStage "preprocessing" "processing" None ]
     | Returned preprocessing_result =>
         completed_calls "preprocessing" "OCR Extraction" 20
         ++ match stage_outcome
                    (extract_text p (get preprocessing_result "images" (JList []))
                       (get preprocessing_result "metadata" (JDict []))) with
            | Raised _ =>
                when use_database
                  [ UpdateProcessingStage "ocr_extraction" "processing" None ]
            | Returned _ =>
                completed_calls "ocr_extraction" "LLM Processing" 40
                ++ when use_database
                     [ UpdateProcessingStage "llm_processing" "processing" None ]
            end
     end.

Lemma critical_failure_run :
  forall p file_path document_type e,
    critical_stages p file_path document_type = Raised e ->
    exists stage_name,
      In stage_name ["preprocessing"; "ocr_extraction"; "llm_processing"]
      /\ process_document_background sanitize_error_message use_database tracked
           p true file_path document_type
         = if is_exception e
           then (Returned tt,
                 calls_before_failure p file_path
                 ++ [ ToolsUpdateDocumentStatus "failed"
                        (sanitize_error_message e stage_name);
                      ToolsUpdateDocumentStatus "failed"
                        (sanitize_error_message e "NVIDIA NeMo processing") ])
           else (Raised e, calls_before_failure p file_path).
Proof.
  intros p file_path document_type e.
  unfold critical_stages, calls_before_failure, process_document_background.
  cbn [negb]. run_step.
  destruct (stage_outcome (process_document p file_path))
    as [preprocessing_result|e1] eqn:H1.
  - rewrite (execute_processing_stage_returned _ _ _ _ _ H1). run_step.
    destruct (stage_outcome (extract_text p _ _)) as [ocr_result|e2] eqn:H2.
    + rewrite (execute_processing_stage_returned _ _ _ _ _ H2). run_step.
      destruct (stage_outcome (llm_process_document p _ _ _))
        as [llm_result|e3] eqn:H3; [discriminate|].
      intros [= <-]. exists "llm_processing".
      rewrite (execute_processing_stage_raised _ _ _ _ _ H3). run_step.
      split; [cbn; auto|].
      unfold except_Exception, processing_failed, _handle_stage_error.
      run_step.
      destruct (is_exception e3); cbn [app];
        rewrite ?app_nil_r; repeat rewrite <- app_assoc; reflexivity.
    + intros [= <-]. exists "ocr_extraction".
      rewrite (execute_processing_stage_raised _ _ _ _ _ H2). run_step.
      split; [cbn; auto|].
      unfold except_Exception, processing_failed, _handle_stage_error.
      run_step.
      destruct (is_exception e2); cbn [app];
        rewrite ?app_nil_r; repeat rewrite <- app_assoc; reflexivity.
  - intros [= <-]. exists "preprocessing".
    rewrite (execute_processing_stage_raised _ _ _ _ _ H1). run_step.
    split; [cbn; auto|].
    unfold except_Exception, processing_failed, _handle_stage_error.
    run_step.
    destruct (is_exception e1); cbn [app];
      rewrite ?app_nil_r; repeat rewrite <- app_assoc; reflexivity.
Qed.

Lemma forallb_completed_calls :
  forall stage_name next_stage progress,
    In stage_name ["preprocessing"; "ocr_extraction"; "llm_processing"] ->
    forallb critical_call (completed_calls stage_name next_stage progress) = true.
Proof.
  intros stage_name next_stage progress Hin.
  unfold completed_calls, _update_stage_completion, when.
  destruct Hin as [<- | [<- | [<- | []]]]; destruct use_database, tracked;
    reflexivity.
Qed.

Lemma forallb_processing_call :
  forall stage_name,
    In stage_name ["preprocessing"; "ocr_extraction"; "llm_processing"] ->
    forallb critical_call
      (when use_database [ UpdateProcessingStage stage_name "processing" None ])
    = true.
Proof.
  intros stage_name Hin. unfold when.
  destruct Hin as [<- | [<- | [<- | []]]]; destruct use_database; reflexivity.
Qed.

Lemma calls_before_failure_critical :
  forall p file_path,
    forallb critical_call (calls_before_failure p file_path) = true.
Proof.
  intros p file_path. unfold calls_before_failure.
  rewrite forallb_app. apply andb_true_intro. split.
  { unfold when. destruct tracked; reflexivity. }
  destruct (stage_outcome (process_document p file_path)) as [r1|e1].
  - rewrite forallb_app, forallb_completed_calls by (cbn; auto). cbn [andb].
    destruct (stage_outcome (extract_text p _ _)) as [r2|e2].
    + rewrite forallb_app, forallb_completed_calls by (cbn; auto). cbn [andb].
      apply forallb_processing_call. cbn; auto.
    + apply forallb_processing_call. cbn; auto.
  - apply forallb_processing_call. cbn; auto.
Qed.

Lemma is_exception_cases :
  forall e,
    (instance_of e "Exception" -> is_exception e = true)
    /\ (~ instance_of e "Exception" -> is_exception e = false).
Proof.
  intros e. split.
  - intros H. now apply is_exception_spec.
  - intros H. destruct (is_exception e) eqn:E; [|reflexivity].
    apply is_exception_spec in E. contradiction.
Qed.

(** X26.  When one of the three critical stages fails after its
    retries, the run ends there: up to the failure only the critical
    stages have written, nothing is stored, and validation and routing are
    not begun.  A failure with an exception that derives from [Exception]
    is reported twice, by the handler of the stage and by the handler of
    the run, and the run returns; any other exception is not reported and
    leaves the run. *)
Theorem critical_stage_failure_ends_the_run :
  forall p file_path document_type e,
    critical_stages p file_path document_type = Raised e ->
    exists calls stage_name,
      In stage_name ["preprocessing"; "ocr_extraction"; "llm_processing"]
      /\ forallb critical_call calls = true
      /\ (instance_of e "Exception" ->
          process_document_background sanitize_error_message use_database tracked
            p true file_path document_type
          = (Returned tt,
             calls
             ++ [ ToolsUpdateDocumentStatus "failed"
                    (sanitize_error_message e stage_name);
                  ToolsUpdateDocumentStatus "failed"
                    (sanitize_error_message e "NVIDIA NeMo processing") ]))
      /\ (~ instance_of e "Exception" ->
          process_document_background sanitize_error_message use_database tracked
            p true file_path document_type
          = (Raised e, calls)).
Proof.
  intros p file_path document_type e Hcritical.
  destruct (critical_failure_run p file_path document_type e Hcritical)
    as (stage_name & Hin & Hrun).
  destruct (is_exception_cases e) as [Hyes Hno].
  exists (calls_before_failure p file_path), stage_name.
  split; [exact Hin|]. split; [apply calls_before_failure_critical|].
  split; intros H; rewrite Hrun; [rewrite (Hyes H)|rewrite (Hno H)]; reflexivity.
Qed.

Lemma validation_stage_raised :
  forall p document_type llm_result e,
    stage_outcome
      (evaluate_document p (get llm_result "structured_data" (JDict []))
         (get llm_result "entities" (JDict [])) document_type)
    = Raised e ->
    is_exception e = true ->
    validation_stage sanitize_error_message use_database tracked p document_type
      llm_result
    = (Returned default_validation_result,
       when use_database [ UpdateProcessingStage "validation" "processing" None ]
       ++ _handle_stage_error sanitize_error_message "validation" e
       ++ when use_database
            [ UpdateProcessingStage "validation" "failed"
                (Some (substring 0 500 (exn_str e))) ]).
Proof.
  intros p document_type llm_result e Hraised He. unfold validation_stage.
  rewrite (execute_processing_stage_raised _ _ _ _ _ Hraised), He.
  unfold except_Exception. run_step. rewrite He.
  now rewrite app_nil_r, <- app_assoc.
Qed.

(** The calls of the routing stage. *)
Definition routing_calls (p : processors) (document_type : string)
    (llm_result validation_result : dict) : list call :=
  match stage_outcome (route_document p llm_result validation_result
                         document_type) with
  | Returned _ => completed_calls "routing" "Finalizing" 90
  | Raised routing_error =>
      when use_database [ UpdateProcessingStage "routing" "processing" None ]
      ++ _handle_stage_error sanitize_error_message "routing" routing_error
      ++ when use_database
           [ UpdateProcessingStage "routing" "failed"
               (Some (substring 0 500 (exn_str routing_error))) ]
  end.

Lemma routing_stage_caught :
  forall p document_type llm_result validation_result,
    (forall routing_error,
        stage_outcome (route_document p llm_result validation_result
                         document_type) = Raised routing_error ->
        instance_of routing_error "Exception") ->
    routing_stage sanitize_error_message use_database tracked p document_type
      llm_result validation_result
    = (Returned match stage_outcome
                        (route_document p llm_result validation_result
                           document_type) with
                | Returned routing_result => routing_result
                | Raised _ => default_routing_result
                end,
       routing_calls p document_type llm_result validation_result).
Proof.
  intros p document_type llm_result validation_result Hcaught.
  unfold routing_stage, routing_calls.
  destruct (stage_outcome (route_document p llm_result validation_result
                             document_type)) as [r|e] eqn:Hrouting.
  - rewrite (execute_processing_stage_returned _ _ _ _ _ Hrouting). reflexivity.
  - assert (He : is_exception e = true)
      by (apply is_exception_spec; now apply Hcaught).
    rewrite (execute_processing_stage_raised _ _ _ _ _ Hrouting), He.
    unfold except_Exception. run_step. rewrite He.
    now rewrite app_nil_r, <- app_assoc.
Qed.

(** X27.  When the critical stages succeed, validation fails after its
    retries with an exception that derives from [Exception], routing
    returns or fails with such an exception too, and the OCR text can be
    included in the LLM result, the run goes on with the default
    validation result ([REVIEW_REQUIRED], all scores 0): the document is
    marked [failed] by the handler of the stage, routing is asked to route
    on the default result, and the results are stored with it. *)
Theorem failed_validation_routes_and_stores_default_result :
  forall p file_path document_type preprocessing_result ocr_result llm_result
         llm_result' e,
    critical_stages p file_path document_type
    = Returned (preprocessing_result, ocr_result, llm_result) ->
    stage_outcome
      (evaluate_document p (get llm_result "structured_data" (JDict []))
         (get llm_result "entities" (JDict [])) document_type)
    = Raised e ->
    instance_of e "Exception" ->
    (forall routing_error,
        stage_outcome (route_document p llm_result default_validation_result
                         document_type) = Raised routing_error ->
        instance_of routing_error "Exception") ->
    include_ocr_text llm_result ocr_result = Returned llm_result' ->
    exists calls,
      process_document_background sanitize_error_message use_database tracked p
        true file_path document_type
      = (Returned tt,
         calls
         ++ [ ToolsStoreProcessingResults preprocessing_result ocr_result llm_result'
                default_validation_result
                match stage_outcome
                        (route_document p llm_result default_validation_result
                           document_type) with
                | Returned routing_result => routing_result
                | Raised _ => default_routing_result
                end ])
      /\ In (ToolsUpdateDocumentStatus "failed"
               (sanitize_error_message e "validation")) calls.
Proof.
  intros p file_path document_type preprocessing_result ocr_result llm_result
         llm_result' e Hcritical Hvalidation He Hrouting Hinclude.
  apply is_exception_spec in He.
  revert Hcritical.
  unfold critical_stages, process_document_background.
  cbn [negb]. run_step.
  destruct (stage_outcome (process_document p file_path)) as [r1|e1] eqn:H1;
    [|discriminate].
  rewrite (execute_processing_stage_returned _ _ _ _ _ H1). run_step.
  destruct (stage_outcome (extract_text p _ _)) as [r2|e2] eqn:H2; [|discriminate].
  rewrite (execute_processing_stage_returned _ _ _ _ _ H2). run_step.
  destruct (stage_outcome (llm_process_document p _ _ _)) as [r3|e3] eqn:H3;
    [|discriminate].
  rewrite (execute_processing_stage_returned _ _ _ _ _ H3). run_step.
  intros [= -> -> ->].
  rewrite (validation_stage_raised _ _ _ _ Hvalidation He). run_step.
  rewrite (routing_stage_caught _ _ _ _ Hrouting). run_step.
  rewrite Hinclude. run_step.
  unfold except_Exception. run_step.
  exists (when tracked [ MemorySetPreprocessing ]
          ++ completed_calls "preprocessing" "OCR Extraction" 20
          ++ completed_calls "ocr_extraction" "LLM Processing" 40
          ++ completed_calls "llm_processing" "Validation" 60
          ++ (when use_database
                [ UpdateProcessingStage "validation" "processing" None ]
              ++ _handle_stage_error sanitize_error_message "validation" e
              ++ when use_database
                   [ UpdateProcessingStage "validation" "failed"
                       (Some (substring 0 500 (exn_str e))) ])
          ++ routing_calls p document_type llm_result default_validation_result).
  split.
  - cbn [app]. f_equal. repeat rewrite <- app_assoc. reflexivity.
  - unfold _handle_stage_error.
    do 4 (apply in_or_app; right). apply in_or_app. left.
    apply in_or_app. right. apply in_or_app. left. left. reflexivity.
Qed.

End Runs.

(** X28.  The processor of a stage is attempted at most four times, and
    between two attempts the stage waits 1, 2 and 4 seconds: the cap of 30
    seconds is never reached.  The outcome of the stage is the outcome of
    the last attempt. *)
Theorem stage_is_attempted_at_most_four_times :
  forall processor_func : nat -> outcome dict,
    exists m,
      (m <= 3)%nat
      /\ stage_outcome processor_func = processor_func m
      /\ invocations (snd (retry_with_backoff processor_func retry_config)) = S m
      /\ sleeps (snd (retry_with_backoff processor_func retry_config))
         = firstn m [1%float; 2%float; 4%float].
Proof.
  intros processor_func.
  destruct (retry_with_backoff_shape processor_func retry_config)
    as (m & Hle & _ & _ & Hres & Htr); [cbn; lia|].
  exists m. cbn in Hle. split; [lia|]. split; [exact Hres|].
  rewrite Htr, invocations_backoff_trace, sleeps_backoff_trace.
  split; [reflexivity|].
  assert (Hm : (m = 0 \/ m = 1 \/ m = 2 \/ m = 3)%nat) by lia.
  destruct Hm as [-> | [-> | [-> | ->]]]; vm_compute; reflexivity.
Qed.

Lemma critical_stage_failure_ends_the_run_witness :
  exists calls stage_name,
    critical_stages ocr_rejects "data/uploads/invoice.pdf" "invoice"
    = Raised (mkExn "ValueError" ["ValueError"; "Exception"; "BaseException"]
                    "unreadable image")
    /\ process_document_background sanitized true true ocr_rejects true
         "data/uploads/invoice.pdf" "invoice"
       = (Returned tt,
          calls
          ++ [ ToolsUpdateDocumentStatus "failed" stage_name;
               ToolsUpdateDocumentStatus "failed" "NVIDIA NeMo processing failed" ])
    /\ forallb critical_call calls = true.
Proof.
  assert (Hcritical : critical_stages ocr_rejects "data/uploads/invoice.pdf" "invoice"
                      = Raised (mkExn "ValueError"
                                  ["ValueError"; "Exception"; "BaseException"]
                                  "unreadable image"))
    by (vm_compute; reflexivity).
  destruct (critical_stage_failure_ends_the_run sanitized true true ocr_rejects
              "data/uploads/invoice.pdf" "invoice" _ Hcritical)
    as (calls & stage_name & _ & Hcalls & Hrun & _).
  exists calls, (sanitized (mkExn "ValueError"
                              ["ValueError"; "Exception"; "BaseException"]
                              "unreadable image") stage_name).
  split; [exact Hcritical|]. split; [|exact Hcalls].
  apply Hrun. apply is_exception_spec. reflexivity.
Defined.

Lemma failed_validation_routes_and_stores_default_result_witness :
  exists calls preprocessing_result ocr_result llm_result routing_result,
    validation_times_out
    = calls
      ++ [ ToolsStoreProcessingResults preprocessing_result ocr_result llm_result
             default_validation_result routing_result ]
    /\ In (ToolsUpdateDocumentStatus "failed" "validation failed") calls.
Proof.
  destruct (failed_validation_routes_and_stores_default_result sanitized true true
              judge_times_out "data/uploads/invoice.pdf" "invoice"
              [("images", JList [JStr "page-1"]); ("metadata", JDict [])]
              [("text", JStr "INVOICE 42")]
              [("structured_data", JDict []); ("entities", JDict [])]
              [("structured_data", JDict []); ("entities", JDict []);
               ("ocr_text", JStr "INVOICE 42")]
              timeout_error)
    as (calls & Hrun & Hin).
  - vm_compute. reflexivity.
  - vm_compute. reflexivity.
  - apply is_exception_spec. reflexivity.
  - intros routing_error Hraised. vm_compute in Hraised. discriminate Hraised.
  - vm_compute. reflexivity.
  - exists calls. do 4 eexists. split; [|exact Hin].
    unfold validation_times_out. rewrite Hrun. reflexivity.
Defined.

End RouterFacts.
